(** * SPI weather board: the environmental data aggregation functions

    A shallow embedding of the Netlify functions and browser helpers of the
    repository (the buoy parsers, the tide clients, the wave selection and
    cache, the handlers) together with the properties of the specification.

    Conventions of the embedding.
    - A JavaScript number is an exact rational ([Q]), kept in lowest terms by
      [Qred] after every operation; [NaN] and [null] are separate
      constructors of [jsnum].  The readings of the feeds are short decimal
      literals, far from every rounding boundary of binary64 except where a
      lemma says otherwise, and the boundary values used below (11.25,
      348.75, 22.5) are dyadic, so the arithmetic on them is exact in
      binary64 as well.
    - Strings are [string]; the white space of [trim] and of [\s] is the
      ASCII white space.
    - An [await] that may reject is an [outcome]: a value or a thrown error.
    - [Date.now()] and the parsed time stamps are integers (epoch
      milliseconds); a time stamp [new Date(s).getTime()] that does not parse
      is [None] (JavaScript's NaN). *)

From Stdlib Require Import ZArith QArith Qround Qabs List String Ascii Bool Lia.
From Stdlib Require Import Permutation Lqa DecimalString DecimalPos DecimalN.
Import ListNotations.

Local Open Scope string_scope.
Local Open Scope Z_scope.

(** ** JavaScript numbers *)

Module JsNum.

(** [Math.floor]. *)
Definition floor (x : Q) : Z := Qfloor x.

(** Truncation toward zero, the integer part used by [%]. *)
Definition trunc (x : Q) : Z := Z.quot (Qnum x) (Zpos (Qden x)).

(** The remainder operator [a % b] on numbers: the result has the sign of the
    dividend, [a - b * trunc (a / b)]. *)
Definition rem (a b : Q) : Q :=
  Qred (a - b * inject_Z (trunc (a / b))).

(** [Math.round]: the nearest integer, halves toward +infinity. *)
Definition round (x : Q) : Z := Qfloor (x + (1 # 2)).

(** [Math.round(n * 10) / 10]. *)
Definition round1 (n : Q) : Q := Qred (inject_Z (round (n * 10)) / 10).

(** [Number(n.toFixed(1))]: one decimal, halves away from zero. *)
Definition toFixed1 (n : Q) : Q :=
  if Qle_bool 0 n
  then Qred (inject_Z (Qfloor (n * 10 + (1 # 2))) / 10)
  else Qred (- (inject_Z (Qfloor (- n * 10 + (1 # 2))) / 10)).

(** A value that is a number, [NaN], or [null]. *)
Inductive jsnum : Type :=
| Null : jsnum
| NaN : jsnum
| Num : Q -> jsnum.

(** [v == null]. *)
Definition is_null (v : jsnum) : bool :=
  match v with Null => true | _ => false end.

(** [isNaN(v)]: [null] converts to [0], which is not [NaN]. *)
Definition isNaN (v : jsnum) : bool :=
  match v with NaN => true | _ => false end.

End JsNum.

Import JsNum.

(** ** Values handed to [JSON.stringify] *)

#[local] Set Warnings "-register-all".

Inductive json : Type :=
| JUndefined : json
| JNull : json
| JBool : bool -> json
| JNumber : Q -> json
| JNaN : json
| JString : string -> json
| JArray : list json -> json
| JObject : list (string * json) -> json.

(** Property lookup [o.k] on an object literal: [None] when the key is
    absent. *)
Fixpoint field (k : string) (o : list (string * json)) : option json :=
  match o with
  | [] => None
  | (k', v) :: o' => if String.eqb k k' then Some v else field k o'
  end.

Definition get_field (k : string) (j : json) : option json :=
  match j with
  | JObject o => field k o
  | _ => None
  end.

Definition of_jsnum (v : jsnum) : json :=
  match v with
  | Null => JNull
  | NaN => JNaN
  | Num q => JNumber q
  end.

(** ** The compass conversion *)

Module Compass.

Definition dirs : list string :=
  ["N"; "NNE"; "NE"; "ENE"; "E"; "ESE"; "SE"; "SSE";
   "S"; "SSW"; "SW"; "WSW"; "W"; "WNW"; "NW"; "NNW"].

(** [Math.floor((d % 360) / 22.5 + 0.5) % 16]; the last [%] is on an
    integer-valued number, so it is the truncated remainder of [Z]. *)
Definition index (d : Q) : Z :=
  Z.rem (floor (JsNum.rem d 360 / (45 # 2) + (1 # 2))) 16.

(** [dirs[i]]: [undefined] outside the array. *)
Definition at_index (i : Z) : json :=
  if i <? 0 then JUndefined
  else match nth_error dirs (Z.to_nat i) with
       | Some s => JString s
       | None => JUndefined
       end.

End Compass.

(** ** src/unnamed/part_000: the helpers js/buoys.js imports from
       [./util.js] *)

Module Util.

Definition oneDec (n : jsnum) : jsnum :=
  match n with
  | Null => Null
  | NaN => NaN
  | Num q => Num (toFixed1 q)
  end.

Definition CtoF (c : Q) : Q := Qred (c * 9 / 5 + 32).

Definition mpsToKts (ms : Q) : Q := Qred (ms * (194384 # 100000)).

Definition degToCardinal (deg : jsnum) : json :=
  match deg with
  | Null => JNull
  | NaN => JNull
  | Num q => Compass.at_index (Compass.index q)
  end.

End Util.

(** ** Fallible steps *)

(** The result of an [await]: the value, or the error that was thrown. *)
Inductive outcome (A : Type) : Type :=
| Returned : A -> outcome A
| Threw : string -> outcome A.

Arguments Returned {A} _.
Arguments Threw {A} _.

Definition bind {A B : Type} (m : outcome A) (k : A -> outcome B) : outcome B :=
  match m with
  | Returned a => k a
  | Threw e => Threw e
  end.

Notation "'let*' x ':=' m 'in' k" := (bind m (fun x => k))
  (at level 10, x name, m at level 100, k at level 200).

(** [try { return m } catch { return d }]. *)
Definition try_catch {A : Type} (m : outcome A) (d : A) : A :=
  match m with
  | Returned a => a
  | Threw _ => d
  end.

(** An HTTP response as the functions use it: [resp.ok] and the body. *)
Record response (A : Type) : Type := mkResponse {
  ok : bool;
  payload : A
}.

Arguments mkResponse {A} _ _.
Arguments ok {A} _.
Arguments payload {A} _.

(** ** Strings *)

Module Str.

Definition is_space (c : ascii) : bool :=
  let n := nat_of_ascii c in
  (Nat.eqb n 32 || (Nat.leb 9 n && Nat.leb n 13))%bool.

Definition is_digit (c : ascii) : bool :=
  let n := nat_of_ascii c in (Nat.leb 48 n && Nat.leb n 57)%bool.

Definition chars (s : string) : list ascii := list_ascii_of_string s.
Definition of_chars (l : list ascii) : string := string_of_list_ascii l.

Fixpoint drop_space (l : list ascii) : list ascii :=
  match l with
  | c :: l' => if is_space c then drop_space l' else l
  | [] => []
  end.

(** [s.trim()]. *)
Definition trim (s : string) : string :=
  of_chars (rev (drop_space (rev (drop_space (chars s))))).

(** [s.startsWith(p)]. *)
Definition startsWith (p s : string) : bool := String.prefix p s.

(** [s.includes(p)]. *)
Fixpoint includes (p s : string) : bool :=
  (String.prefix p s ||
   match s with
   | EmptyString => false
   | String _ s' => includes p s'
   end)%bool.

(** A non-empty string is truthy. *)
Definition truthy (s : string) : bool :=
  match s with EmptyString => false | _ => true end.

(** [s.split(/\r?\n/)]: [cur] is the line read so far, last character
    first. *)
Fixpoint split_lines_go (l cur : list ascii) : list string :=
  match l with
  | [] => [of_chars (rev cur)]
  | c :: l' =>
      if Ascii.eqb c "010"%char then
        match cur with
        | r :: cur' =>
            if Ascii.eqb r "013"%char
            then of_chars (rev cur') :: split_lines_go l' []
            else of_chars (rev cur) :: split_lines_go l' []
        | [] => of_chars (rev cur) :: split_lines_go l' []
        end
      else split_lines_go l' (c :: cur)
  end.

Definition split_lines (s : string) : list string :=
  split_lines_go (chars s) [].

(** [s.split("\n")]. *)
Fixpoint split_nl_go (l cur : list ascii) : list string :=
  match l with
  | [] => [of_chars (rev cur)]
  | c :: l' =>
      if Ascii.eqb c "010"%char
      then of_chars (rev cur) :: split_nl_go l' []
      else split_nl_go l' (c :: cur)
  end.

Definition split_nl (s : string) : list string := split_nl_go (chars s) [].

(** [s.split(/\s+/)]: a run of white space separates two fields, so a string
    that starts or ends with white space has an empty first or last field,
    and the empty string has one field, the empty string. *)
Fixpoint split_ws_go (l cur : list ascii) (in_ws : bool) : list string :=
  match l with
  | [] => [of_chars (rev cur)]
  | c :: l' =>
      if is_space c then
        if in_ws then split_ws_go l' [] true
        else of_chars (rev cur) :: split_ws_go l' [] true
      else split_ws_go l' (c :: cur) false
  end.

Definition split_ws (s : string) : list string :=
  split_ws_go (chars s) [] false.

(** [s.replace] of ["#"] by the empty string: the first occurrence only. *)
Fixpoint remove_first_hash (s : string) : string :=
  match s with
  | EmptyString => EmptyString
  | String c s' =>
      if Ascii.eqb c "#"%char then s' else String c (remove_first_hash s')
  end.

(** [s.replace] of [/^#\s*/] by the empty string. *)
Definition strip_hash_prefix (s : string) : string :=
  match s with
  | String c s' =>
      if Ascii.eqb c "#"%char then of_chars (drop_space (chars s')) else s
  | EmptyString => EmptyString
  end.

(** [a.indexOf(x)] on an array of strings, [-1] when absent. *)
Fixpoint indexOf_from (x : string) (a : list string) (i : Z) : Z :=
  match a with
  | [] => -1
  | y :: a' => if String.eqb y x then i else indexOf_from x a' (i + 1)
  end.

Definition indexOf (a : list string) (x : string) : Z := indexOf_from x a 0.

(** [a[i]] on an array: [None] (undefined) outside it. *)
Definition at_ {A : Type} (a : list A) (i : Z) : option A :=
  if i <? 0 then None else nth_error a (Z.to_nat i).

(** [a.find(p)]. *)
Definition find_ {A : Type} (p : A -> bool) (a : list A) : option A :=
  List.find p a.

End Str.

(** ** [parseFloat] *)

Module ParseFloat.

Fixpoint span_digits (l : list ascii) : list ascii * list ascii :=
  match l with
  | c :: l' =>
      if Str.is_digit c
      then let (d, r) := span_digits l' in (c :: d, r)
      else ([], l)
  | [] => ([], [])
  end.

Definition digit_value (c : ascii) : Z := Z.of_nat (nat_of_ascii c) - 48.

Definition digits_value (l : list ascii) : Z :=
  fold_left (fun acc c => 10 * acc + digit_value c) l 0.

Definition sign_of (l : list ascii) : bool * list ascii :=
  match l with
  | c :: l' =>
      if Ascii.eqb c "-"%char then (true, l')
      else if Ascii.eqb c "+"%char then (false, l')
      else (false, l)
  | [] => (false, [])
  end.

(** The exponent part [e[+-]digits], [0] when there is none. *)
Definition exponent_of (l : list ascii) : Z :=
  match l with
  | c :: l' =>
      if (Ascii.eqb c "e"%char || Ascii.eqb c "E"%char)%bool then
        let (neg, l1) := sign_of l' in
        let (ed, _) := span_digits l1 in
        match ed with
        | [] => 0
        | _ => if neg then - digits_value ed else digits_value ed
        end
      else 0
  | [] => 0
  end.

Definition scale (m : Z) (e : Z) : Q :=
  if e <? 0 then Qred (m # Z.to_pos (10 ^ (- e)))
  else Qred (inject_Z (m * 10 ^ e)).

(** [parseFloat(s)]: leading white space is skipped and the longest prefix
    that is a decimal literal is converted; [NaN] when there is none.  (The
    literal [Infinity] is not a reading of any feed and is left out: it gives
    [NaN] here.) *)
Definition parseFloat_chars (l : list ascii) : jsnum :=
  let (neg, l1) := sign_of (Str.drop_space l) in
  let (ip, l2) := span_digits l1 in
  let (fp, l3) :=
    match l2 with
    | c :: l2' =>
        if Ascii.eqb c "."%char then span_digits l2' else ([], l2)
    | [] => ([], [])
    end in
  match ip, fp with
  | [], [] => NaN
  | _, _ =>
      let m := digits_value (ip ++ fp) in
      let e := exponent_of l3 - Z.of_nat (List.length fp) in
      Num (scale (if neg then - m else m) e)
  end.

Definition parseFloat (s : string) : jsnum := parseFloat_chars (Str.chars s).

(** [parseFloat(c)] of a cell that may be undefined: [String(undefined)] is
    not a literal. *)
Definition parseFloat_opt (c : option string) : jsnum :=
  match c with
  | Some s => parseFloat s
  | None => NaN
  end.

End ParseFloat.

Import ParseFloat.

(** ** The report entities *)

Record StationObservation : Type := mkObs {
  airF : jsnum;
  waterF : jsnum;
  windKts : jsnum;
  gustKts : jsnum;
  windDirCardinal : json
}.

Definition obs_json (o : StationObservation) : json :=
  JObject [("airF", of_jsnum (airF o)); ("waterF", of_jsnum (waterF o));
           ("windKts", of_jsnum (windKts o)); ("gustKts", of_jsnum (gustKts o));
           ("windDirCardinal", windDirCardinal o)].

(** The five readings taken from one data row. *)
Record reading : Type := mkReading {
  WDIR : jsnum;
  WSPD : jsnum;
  GST : jsnum;
  ATMP : jsnum;
  WTMP : jsnum
}.

(** [v != null ? f(v) : null]. *)
Definition unless_null (f : Q -> Q) (v : jsnum) : jsnum :=
  match v with
  | Null => Null
  | NaN => NaN
  | Num q => Num (f q)
  end.

(** ** The upstream payloads and the cache *)

(** One hour of the forecast: [new Date(h.time).getTime()] ([None] when the
    time stamp does not parse) and [h.waveHeight?.sg ?? null]. *)
Record hour : Type := mkHour {
  h_time : option Z;
  h_sg : jsnum
}.

(** The forecast document: [data.hours], [None] when the member is absent. *)
Record forecast : Type := mkForecast {
  hours : option (list hour)
}.

(** One tide prediction [{ t, v, type }]. *)
Record prediction : Type := mkPrediction {
  p_t : string;
  p_v : string;
  p_type : string
}.

(** The tide document: [data.predictions], [None] when the member is
    absent. *)
Record tide_doc : Type := mkTideDoc {
  predictions : option (list prediction)
}.

Definition prediction_json (p : prediction) : json :=
  JObject [("t", JString (p_t p)); ("v", JString (p_v p));
           ("type", JString (p_type p))].

(** [x ?? null] on the result of a [find]. *)
Definition or_null (x : option json) : json :=
  match x with
  | Some j => j
  | None => JNull
  end.

(** The value the function keeps for the waves: [{ waveM, waveFt }]. *)
Record wave_reading : Type := mkWave {
  waveM : jsnum;
  waveFt : jsnum
}.

Definition wave_json (w : wave_reading) : json :=
  JObject [("waveM", of_jsnum (waveM w)); ("waveFt", of_jsnum (waveFt w))].

(** The content of the blob [waves.json]. *)
Record cache_entry : Type := mkEntry {
  timestamp : Z;
  waves : wave_reading
}.

(** The answer of a handler. *)
Record http_result : Type := mkResult {
  statusCode : Z;
  headers : list (string * string);
  body : json
}.

(** ** js/buoys.js *)

Module Buoys.

(** [parseFloat(c[i])]. *)
Definition column (c : list string) (i : Z) : jsnum :=
  parseFloat_opt (Str.at_ c i).

(** The body of [lines.map(line => ...)]: the readings sit at fixed
    positions of the row. *)
Definition parse_line (line : string) : reading :=
  let c := Str.split_ws (Str.trim line) in
  {| WDIR := column c 5;
     WSPD := column c 6;
     GST := column c 7;
     ATMP := column c 13;
     WTMP := column c 14 |}.

(** [text.split(/\r?\n/).filter(l => l.trim() && !l.startsWith("#"))]. *)
Definition data_lines (text : string) : list string :=
  filter (fun l => (Str.truthy (Str.trim l) && negb (Str.startsWith "#" l))%bool)
         (Str.split_lines text).

(** [fallback(getter)]: the first reading that is not [NaN], newest row
    first. *)
Fixpoint fallback (getter : reading -> jsnum) (rows : list reading) : jsnum :=
  match rows with
  | [] => Null
  | r :: rows' =>
      let v := getter r in
      if negb (isNaN v) then v else fallback getter rows'
  end.

Definition observation (rows : list reading) : StationObservation :=
  let airC := fallback ATMP rows in
  let waterC := fallback WTMP rows in
  let wspd := fallback WSPD rows in
  let gust := fallback GST rows in
  let wdir := fallback WDIR rows in
  {| airF := unless_null (fun c => toFixed1 (Util.CtoF c)) airC;
     waterF := unless_null (fun c => toFixed1 (Util.CtoF c)) waterC;
     windKts := unless_null (fun m => toFixed1 (Util.mpsToKts m)) wspd;
     gustKts := unless_null (fun m => toFixed1 (Util.mpsToKts m)) gust;
     windDirCardinal := Util.degToCardinal wdir |}.

Definition fetchBuoy (resp : outcome (response string))
  : outcome StationObservation :=
  let* r := resp in
  if negb (ok r) then Threw "Error: Buoy fetch failed"
  else Returned (observation (map parse_line (data_lines (payload r)))).

End Buoys.

(** ** functions/weather/weather.js *)

Module WeatherCjs.

Definition degToCardinal (d : jsnum) : json :=
  match d with
  | Null => JString "--"
  | NaN => JUndefined
  | Num q => Compass.at_index (Compass.index q)
  end.

(** [get(i)]: the reading of column [i] of the row, [null] when the row has
    no such column. *)
Definition get (c : list string) (i : Z) : jsnum :=
  if ((0 <=? i) && (i <? Z.of_nat (List.length c)))%bool
  then parseFloat_opt (Str.at_ c i)
  else Null.

(** The row object built from the cells [c] of a data row, the columns
    resolved against the header. *)
Definition parse_cells (header c : list string) : reading :=
  {| WDIR := get c (Str.indexOf header "WDIR");
     WSPD := get c (Str.indexOf header "WSPD");
     GST := get c (Str.indexOf header "GST");
     ATMP := get c (Str.indexOf header "ATMP");
     WTMP := get c (Str.indexOf header "WTMP") |}.

(** [newest(fn)]: the first reading that is neither [null] nor [NaN]. *)
Fixpoint newest (fn : reading -> jsnum) (rows : list reading) : jsnum :=
  match rows with
  | [] => Null
  | r :: rows' =>
      let v := fn r in
      if (negb (is_null v) && negb (isNaN v))%bool then v
      else newest fn rows'
  end.

Definition observation (rows : list reading) : StationObservation :=
  let airC := newest ATMP rows in
  let waterC := newest WTMP rows in
  let wspd := newest WSPD rows in
  let gust := newest GST rows in
  let wdir := newest WDIR rows in
  {| airF := unless_null (fun c => toFixed1 (Util.CtoF c)) airC;
     waterF := unless_null (fun c => toFixed1 (Util.CtoF c)) waterC;
     windKts := unless_null (fun m => toFixed1 (Util.mpsToKts m)) wspd;
     gustKts := unless_null (fun m => toFixed1 (Util.mpsToKts m)) gust;
     windDirCardinal := degToCardinal wdir |}.

(** The parser once the header line and the data rows are split into
    fields. *)
Definition observe (header : list string) (cells : list (list string))
  : StationObservation :=
  observation (map (parse_cells header) cells).

(** [headerLine.replace("#", empty).trim().split(/\s+/)]. *)
Definition header_fields (headerLine : string) : list string :=
  Str.split_ws (Str.trim (Str.remove_first_hash headerLine)).

(** [fetchBuoy] from the text of the response on; a payload without a header
    line that names WDIR makes [headerLine.replace] throw. *)
Definition fetchBuoy_text (text : string) : outcome StationObservation :=
  let lines := filter (fun l => Str.truthy (Str.trim l)) (Str.split_lines text) in
  match Str.find_ (fun l => (Str.startsWith "#" l && Str.includes "WDIR" l)%bool)
                  lines with
  | None => Threw "TypeError: Cannot read properties of undefined"
  | Some headerLine =>
      let header := header_fields headerLine in
      let cells :=
        map (fun line => Str.split_ws (Str.trim line))
            (filter (fun l => negb (Str.startsWith "#" l)) lines) in
      Returned (observe header cells)
  end.

Definition fetchBuoy (resp : outcome string) : outcome StationObservation :=
  let* text := resp in fetchBuoy_text text.

(** [parseFloat(x.v).toFixed(1)]: the decimal string with one digit after the
    point, halves away from zero; ["NaN"] for [NaN]. *)
Definition fixed1_string (v : jsnum) : string :=
  match v with
  | Num q =>
      let tenths := Z.to_N (Qfloor (Qabs q * 10 + (1 # 2))) in
      let whole := DecimalString.NilZero.string_of_uint (N.to_uint (N.div tenths 10)) in
      let frac := DecimalString.NilZero.string_of_uint (N.to_uint (N.modulo tenths 10)) in
      ((if Qle_bool 0 q then EmptyString else "-") ++ whole ++ "." ++ frac)%string
  | _ => "NaN"
  end.

(** The tide block of the handler.  [toLocalHM] stands for
    [s => toHM(toLocal(new Date(s)))], the conversion of the upstream time
    stamp to the clock of America/Chicago, which rests on the time-zone
    tables of the runtime.  Nothing inside the [try] throws once the
    document has arrived. *)
Definition tide_event (toLocalHM : string -> string) (p : prediction) : json :=
  JObject [("t", JString (toLocalHM (p_t p)));
           ("v", JString (fixed1_string (parseFloat (p_v p))))].

Definition tides_block (toLocalHM : string -> string)
    (api : outcome tide_doc) : json :=
  match api with
  | Threw _ => JObject [("high", JNull); ("low", JNull)]
  | Returned t =>
      match predictions t with
      | None => JObject [("high", JNull); ("low", JNull)]
      | Some ps =>
          let H := find (fun p => String.eqb (p_type p) "H") ps in
          let L := find (fun p => String.eqb (p_type p) "L") ps in
          JObject [("high", or_null (option_map (tide_event toLocalHM) H));
                   ("low", or_null (option_map (tide_event toLocalHM) L))]
      end
  end.

End WeatherCjs.

(** ** src/unnamed/part_003: the ES-module revision of the function, whose
       [parseBuoy] reads the newest row only *)

Module Part003.

(** [cToF(c).toFixed(1)] parsed back, with [cToF = c => parseFloat(c) * 9/5 + 32]. *)
Definition cToF_fixed (c : option string) : jsnum :=
  match parseFloat_opt c with
  | Num q => Num (toFixed1 (Qred (q * 9 / 5 + 32)))
  | _ => NaN
  end.

(** [parseFloat((parseFloat(v) * 1.94384).toFixed(1))]. *)
Definition kts_fixed (v : option string) : jsnum :=
  match parseFloat_opt v with
  | Num q => Num (toFixed1 (Qred (q * (194384 # 100000))))
  | _ => NaN
  end.

(** [x !== "MM"] on a cell that may be undefined. *)
Definition not_MM (c : option string) : bool :=
  match c with
  | Some s => negb (String.eqb s "MM")
  | None => true
  end.

(** The object returned inside the loop for the row with cells [col]. *)
Definition row_observation (header col : list string) : StationObservation :=
  let wdir := Str.at_ col (Str.indexOf header "WDIR") in
  let wspdMS := Str.at_ col (Str.indexOf header "WSPD") in
  let gstMS := Str.at_ col (Str.indexOf header "GST") in
  let airC := Str.at_ col (Str.indexOf header "ATMP") in
  let wtrC := Str.at_ col (Str.indexOf header "WTMP") in
  {| airF := if not_MM airC then cToF_fixed airC else Null;
     waterF := if not_MM wtrC then cToF_fixed wtrC else Null;
     windKts := if not_MM wspdMS then kts_fixed wspdMS else Num 0;
     gustKts := if not_MM gstMS then kts_fixed gstMS else Num 0;
     windDirCardinal :=
       if not_MM wdir
       then match wdir with Some s => JString s | None => JUndefined end
       else JString "--" |}.

Definition failed : StationObservation :=
  {| airF := Null; waterF := Null; windKts := Num 0; gustKts := Num 0;
     windDirCardinal := JString "--" |}.

(** [parseBuoy(station)]: the loop returns at its first row; with no row the
    function falls off its end and the result is undefined ([None]). *)
Definition parseBuoy (resp : outcome string) : option StationObservation :=
  match resp with
  | Threw _ => Some failed
  | Returned raw =>
      let lines := Str.split_nl (Str.trim raw) in
      match Str.find_ (Str.startsWith "#") lines with
      | None => Some failed
      | Some headerLine =>
          let header := Str.split_ws (Str.strip_hash_prefix headerLine) in
          let rows := filter (fun l => negb (Str.startsWith "#" l)) lines in
          match rows with
          | [] => None
          | row :: _ =>
              Some (row_observation header (Str.split_ws (Str.trim row)))
          end
      end
  end.

End Part003.

(** ** functions/weather.js *)

Module WeatherJs.

(** Everything one invocation reads from outside: the clock at the three
    calls of [Date.now()], the blob store, and the answers of the upstreams.
    [solar] is the value of [computeSunriseSunset], binary64 trigonometry
    that never throws and is not embedded. *)
Record world : Type := mkWorld {
  now_check : Z;
  now_fetch : Z;
  now_write : Z;
  blob_get : outcome (option cache_entry);
  blob_set : outcome unit;
  stormglass : outcome (response (outcome forecast));
  buoy : string -> outcome (response string);
  tide_api : outcome (outcome tide_doc);
  solar : json
}.

Definition round (n : Q) : Q := round1 n.

(** [degToCardinal(d)]; a [NaN] argument gives [dirs[NaN]], undefined. *)
Definition degToCardinal (d : jsnum) : json :=
  match d with
  | Null => JString "--"
  | NaN => JUndefined
  | Num q => Compass.at_index (Compass.index q)
  end.

Definition CtoF (c : Q) : Q := Qred (c * 9 / 5 + 32).
Definition mpsToKts (m : Q) : Q := Qred (m * (194384 # 100000)).

(** [fetchBuoy(id)]: the rows are read as in js/buoys.js (the same lines). *)
Definition fetchBuoy (resp : outcome (response string))
  : outcome StationObservation :=
  let* r := resp in
  if negb (ok r) then Threw "Error: Buoy fetch failed"
  else
    let lines := Buoys.data_lines (payload r) in
    match lines with
    | [] => Threw "Error: No buoy rows"
    | _ =>
        let rows := map Buoys.parse_line lines in
        let airC := Buoys.fallback ATMP rows in
        let waterC := Buoys.fallback WTMP rows in
        let wspd := Buoys.fallback WSPD rows in
        let gust := Buoys.fallback GST rows in
        let wdir := Buoys.fallback WDIR rows in
        Returned
          {| airF := unless_null (fun c => round (CtoF c)) airC;
             waterF := unless_null (fun c => round (CtoF c)) waterC;
             windKts := unless_null (fun m => round (mpsToKts m)) wspd;
             gustKts := unless_null (fun m => round (mpsToKts m)) gust;
             windDirCardinal := degToCardinal wdir |}
    end.

Definition no_observation : StationObservation :=
  {| airF := Null; waterF := Null; windKts := Null; gustKts := Null;
     windDirCardinal := JString "--" |}.

Definition safeFetchBuoy (resp : outcome (response string))
  : StationObservation :=
  try_catch (fetchBuoy resp) no_observation.

(** [fetchTides()]: [data.predictions.find] throws when the document has no
    prediction list. *)
Definition fetchTides (api : outcome (outcome tide_doc)) : outcome json :=
  let* resp := api in
  let* data := resp in
  match predictions data with
  | None => Threw "TypeError: Cannot read properties of undefined"
  | Some ps =>
      Returned
        (JObject
           [("low", or_null (option_map prediction_json
                               (find (fun p => String.eqb (p_type p) "L") ps)));
            ("high", or_null (option_map prediction_json
                                (find (fun p => String.eqb (p_type p) "H") ps)))])
  end.

Definition no_tides : json := JObject [("low", JNull); ("high", JNull)].

Definition safeFetchTides (api : outcome (outcome tide_doc)) : json :=
  try_catch (fetchTides api) no_tides.

Definition no_wave : wave_reading := {| waveM := Null; waveFt := Null |}.

(** The loop of [fetchStormglass]: [(best, closest)] after the hours [hs]. *)
Fixpoint closest_hour (now : Z) (hs : list hour) (best : Z) (closest : hour)
  : hour :=
  match hs with
  | [] => closest
  | h :: hs' =>
      match h_time h with
      | Some t =>
          let diff := Z.abs (t - now) in
          if diff <? best then closest_hour now hs' diff h
          else closest_hour now hs' best closest
      | None => closest_hour now hs' best closest
      end
  end.

(** [fetchStormglass()]: every failure inside is caught and becomes the null
    reading. *)
Definition fetchStormglass (now : Z)
    (api : outcome (response (outcome forecast))) : wave_reading :=
  try_catch
    (let* resp := api in
     if negb (ok resp) then Returned no_wave
     else
       let* data := payload resp in
       match hours data with
       | None => Returned no_wave
       | Some [] => Returned no_wave
       | Some (h0 :: hs) =>
           let closest := closest_hour now (h0 :: hs) 999999999 h0 in
           let m := h_sg closest in
           Returned
             {| waveM := m;
                waveFt := unless_null (fun m => round (Qred (m * (328084 # 100000)))) m |}
       end)
    no_wave.

Definition four_hours : Z := 4 * 60 * 60 * 1000.

(** [getWavesCached()]: the value returned (or the error thrown) and the
    content of the blob afterwards. *)
Definition getWavesCached (w : world)
  : outcome wave_reading * option (option cache_entry) :=
  match blob_get w with
  | Threw e => (Threw e, None)
  | Returned cached =>
      let fresh :=
        match cached with
        | Some c => now_check w - timestamp c <? four_hours
        | None => false
        end in
      match cached, fresh with
      | Some c, true => (Returned (waves c), Some cached)
      | _, _ =>
          let waves := fetchStormglass (now_fetch w) (stormglass w) in
          match blob_set w with
          | Threw e => (Threw e, Some cached)
          | Returned _ =>
              (Returned waves,
               Some (Some {| timestamp := now_write w; waves := waves |}))
          end
      end
  end.

Definition ok_headers : list (string * string) :=
  [("Access-Control-Allow-Origin", "*"); ("Content-Type", "application/json")].

Definition handler (w : world) : http_result :=
  let attempt :=
    let* waves := fst (getWavesCached w) in
    let gulf := safeFetchBuoy (buoy w "BZST2") in
    let bay := safeFetchBuoy (buoy w "PCGT2") in
    let sun := solar w in
    let tides := safeFetchTides (tide_api w) in
    Returned
      {| statusCode := 200;
         headers := ok_headers;
         body := JObject [("gulf", obs_json gulf); ("bay", obs_json bay);
                          ("waves", wave_json waves); ("sun", sun);
                          ("tides", tides)] |} in
  match attempt with
  | Returned r => r
  | Threw err =>
      {| statusCode := 500;
         headers := [];
         body := JObject
                   [("error", JString err); ("gulf", JNull); ("bay", JNull);
                    ("waves", JObject [("waveFt", JNull); ("waveM", JNull)]);
                    ("sun", JObject [("sunrise", JNull); ("sunset", JNull)]);
                    ("tides", JObject [("low", JNull); ("high", JNull)])] |}
  end.

End WeatherJs.

(** ** src/unnamed/part_001: the revision headed FINAL VERSION *)

Module Part001.

(** [s.split(sep)] for a one-character separator. *)
Fixpoint split_on_go (sep : ascii) (l cur : list ascii) : list string :=
  match l with
  | [] => [Str.of_chars (rev cur)]
  | c :: l' =>
      if Ascii.eqb c sep
      then Str.of_chars (rev cur) :: split_on_go sep l' []
      else split_on_go sep l' (c :: cur)
  end.

Definition split_on (sep : ascii) (s : string) : list string :=
  split_on_go sep (Str.chars s) [].

(** [s.padStart(2, "0")]. *)
Definition padStart2 (s : string) : string :=
  match String.length s with
  | O => "00"
  | S O => "0" ++ s
  | _ => s
  end%string.

(** The object [formatted] of one prediction; [timeStr.split] and
    [mm.padStart] throw when the time stamp has no second word or no colon. *)
Definition formatted (p : prediction) : outcome json :=
  match nth_error (split_on " " (p_t p)) 1 with
  | None => Threw "TypeError: Cannot read properties of undefined"
  | Some timeStr =>
      match split_on ":" timeStr with
      | hh :: mm :: _ =>
          Returned
            (JObject [("time", JString (padStart2 hh ++ ":" ++ padStart2 mm));
                      ("v", of_jsnum (parseFloat (p_v p)))])
      | _ => Threw "TypeError: Cannot read properties of undefined"
      end
  end.

(** The loop over [json.predictions], from the current [(high, low)]. *)
Fixpoint scan (ps : list prediction) (high low : json) : outcome (json * json) :=
  match ps with
  | [] => Returned (high, low)
  | p :: ps' =>
      let* f := formatted p in
      let high' := if String.eqb (p_type p) "H" then f else high in
      let low' := if String.eqb (p_type p) "L" then f else low in
      scan ps' high' low'
  end.

Definition getNoaaTides (api : outcome (response (outcome tide_doc)))
  : outcome json :=
  let* res := api in
  if negb (ok res) then Returned (JObject [("high", JNull); ("low", JNull)])
  else
    let* doc := payload res in
    match predictions doc with
    | None => Returned (JObject [("high", JNull); ("low", JNull)])
    | Some ps =>
        let* hl := scan ps JNull JNull in
        Returned (JObject [("high", fst hl); ("low", snd hl)])
    end.

End Part001.

(** ** src/unnamed/part_004: the revision with the stored forecast *)

(** One point of the stored series: the parsed [time] and [waveFt]. *)
Record wave_point : Type := mkPoint {
  w_time : option Z;
  w_waveFt : jsnum
}.

(** The stored forecast [{ timestamp, waves }]; [s_waves] is [None] when the
    member is absent. *)
Record stored_forecast : Type := mkStored {
  s_timestamp : Z;
  s_waves : option (list wave_point)
}.

Module Part004.

(** [d < diff], where [diff] starts at [Infinity] ([None]). *)
Definition closer (d : Z) (diff : option Z) : bool :=
  match diff with
  | None => true
  | Some x => d <? x
  end.

(** The loop of [pickCurrentWave]: [(diff, best)] after the points [ws].  A
    time stamp that does not parse gives [NaN], which is not below [diff]. *)
Fixpoint scan (now : Z) (ws : list wave_point) (diff : option Z)
    (best : option wave_point) : option wave_point :=
  match ws with
  | [] => best
  | w :: ws' =>
      if is_null (w_waveFt w) then scan now ws' diff best
      else
        match w_time w with
        | None => scan now ws' diff best
        | Some t =>
            let d := Z.abs (t - now) in
            if closer d diff then scan now ws' (Some d) (Some w)
            else scan now ws' diff best
        end
  end.

(** [pickCurrentWave(f)], the member [waveFt] of the object it returns. *)
Definition pickCurrentWave (now : Z) (f : option stored_forecast) : jsnum :=
  match f with
  | None => Null
  | Some f' =>
      match s_waves f' with
      | None => Null
      | Some [] => Null
      | Some ws =>
          match scan now ws None None with
          | Some best => w_waveFt best
          | None => Null
          end
      end
  end.

End Part004.

(** ** Vocabulary of the wave selection property *)

Module WaveSpec.

(** The series a stored forecast carries, empty when there is none. *)
Definition series (f : option stored_forecast) : list wave_point :=
  match f with
  | Some f' =>
      match s_waves f' with
      | Some ws => ws
      | None => []
      end
  | None => []
  end.

(** The absolute time distance of a point to [now]; a point whose height is
    null, or whose time stamp does not parse, has none. *)
Definition distance (now : Z) (w : wave_point) : option Z :=
  if is_null (w_waveFt w) then None
  else option_map (fun t => Z.abs (t - now)) (w_time w).

(** Every point of [ws] that has a distance is strictly farther than [d]
    ([all_farther]) or at least as far ([none_closer]). *)
Definition all_farther (now d : Z) (ws : list wave_point) : Prop :=
  forall w d', In w ws -> distance now w = Some d' -> d < d'.

Definition none_closer (now d : Z) (ws : list wave_point) : Prop :=
  forall w d', In w ws -> distance now w = Some d' -> d <= d'.

End WaveSpec.

(** ** Vocabulary of the column-order property *)

Module Table.

(** A column of the feed: the name in the header line and the cells of the
    data rows, newest row first. *)
Definition column : Type := (string * list string)%type.

Definition header (cols : list column) : list string := map fst cols.

(** The cells of data row [i]. *)
Definition row (cols : list column) (i : nat) : list string :=
  map (fun c => nth i (snd c) EmptyString) cols.

Definition rows (n : nat) (cols : list column) : list (list string) :=
  map (row cols) (seq 0 n).

Definition named (x : string) (c : column) : bool := String.eqb (fst c) x.

(** The reading of row [i] in the column whose header bears the name [x],
    [null] when no column does. *)
Definition cell (cols : list column) (x : string) (i : nat) : jsnum :=
  match find (named x) cols with
  | Some c => parseFloat (nth i (snd c) EmptyString)
  | None => Null
  end.

Definition by_name (cols : list column) (i : nat) : reading :=
  {| WDIR := cell cols "WDIR" i;
     WSPD := cell cols "WSPD" i;
     GST := cell cols "GST" i;
     ATMP := cell cols "ATMP" i;
     WTMP := cell cols "WTMP" i |}.

Definition field_names : list string := ["WDIR"; "WSPD"; "GST"; "ATMP"; "WTMP"].

(** At most one column bears the name [x]. *)
Definition unique (x : string) (cols : list column) : Prop :=
  forall c c', In c cols -> In c' cols ->
               named x c = true -> named x c' = true -> c = c'.

End Table.

(** ** Sample payloads and invocations *)

Module Sample.

Definition nl : string := String "010" EmptyString.

Definition header1 : string :=
  "#YY  MM DD hh mm WDIR WSPD GST  WVHT   DPD   APD MWD   PRES  ATMP  WTMP  DEWP  VIS PTDY  TIDE".
Definition header2 : string :=
  "#yr  mo dy hr mn degT m/s  m/s     m   sec   sec degT   hPa  degC  degC  degC  nmi  hPa    ft".

(** The newest row lacks the air temperature; the row before it has one. *)
Definition row_2030 : string :=
  "2025 12 07 20 30 150  5.1  6.7    MM    MM    MM  MM 1015.2    MM  23.4  18.0   MM   MM    MM".
Definition row_2024 : string :=
  "2025 12 07 20 24 140  4.6  6.2    MM    MM    MM  MM 1015.1  22.1  23.3  18.0   MM   MM    MM".

Definition buoy_text : string :=
  (header1 ++ nl ++ header2 ++ nl ++ row_2030 ++ nl ++ row_2024 ++ nl)%string.

(** A report whose anemometer is out: wind direction, speed and gust carry
    the sentinel. *)
Definition row_no_wind : string :=
  "2025 12 07 20 30  MM   MM   MM    MM    MM    MM  MM 1015.2  22.1  23.4  18.0   MM   MM    MM".

Definition no_wind_text : string :=
  (header1 ++ nl ++ header2 ++ nl ++ row_no_wind ++ nl)%string.

(** The predictions of one day, in the order of the upstream. *)
Definition day_predictions : list prediction :=
  [ {| p_t := "2025-12-07 03:10"; p_v := "1.234"; p_type := "H" |};
    {| p_t := "2025-12-07 09:45"; p_v := "0.312"; p_type := "L" |};
    {| p_t := "2025-12-07 15:40"; p_v := "1.512"; p_type := "H" |};
    {| p_t := "2025-12-07 21:58"; p_v := "-0.187"; p_type := "L" |} ].

Definition tide_document : tide_doc := {| predictions := Some day_predictions |}.

Definition sun_times : json :=
  JObject [("sunrise", JString "07:03 AM"); ("sunset", JString "05:41 PM")].

Definition cached_waves : wave_reading :=
  {| waveM := Num (12 # 10); waveFt := Num (39 # 10) |}.

Definition hour_ms : Z := 60 * 60 * 1000.

(** An invocation in which every upstream answers and the cache is fresh. *)
Definition all_up : WeatherJs.world :=
  {| WeatherJs.now_check := 100 * hour_ms;
     WeatherJs.now_fetch := 100 * hour_ms;
     WeatherJs.now_write := 100 * hour_ms;
     WeatherJs.blob_get :=
       Returned (Some {| timestamp := 99 * hour_ms; waves := cached_waves |});
     WeatherJs.blob_set := Returned tt;
     WeatherJs.stormglass :=
       Returned {| ok := true;
                   payload := Returned
                     {| hours := Some [ {| h_time := Some (100 * hour_ms);
                                           h_sg := Num (1 # 1) |} ] |} |};
     WeatherJs.buoy := fun _ => Returned {| ok := true; payload := buoy_text |};
     WeatherJs.tide_api := Returned (Returned tide_document);
     WeatherJs.solar := sun_times |}.

(** The same invocation with the tide request rejected. *)
Definition tides_down : WeatherJs.world :=
  {| WeatherJs.now_check := WeatherJs.now_check all_up;
     WeatherJs.now_fetch := WeatherJs.now_fetch all_up;
     WeatherJs.now_write := WeatherJs.now_write all_up;
     WeatherJs.blob_get := WeatherJs.blob_get all_up;
     WeatherJs.blob_set := WeatherJs.blob_set all_up;
     WeatherJs.stormglass := WeatherJs.stormglass all_up;
     WeatherJs.buoy := WeatherJs.buoy all_up;
     WeatherJs.tide_api := Threw "FetchError: request failed";
     WeatherJs.solar := WeatherJs.solar all_up |}.

(** The same invocation with the blob store unreachable. *)
Definition store_down : WeatherJs.world :=
  {| WeatherJs.now_check := WeatherJs.now_check all_up;
     WeatherJs.now_fetch := WeatherJs.now_fetch all_up;
     WeatherJs.now_write := WeatherJs.now_write all_up;
     WeatherJs.blob_get := Threw "BlobsInternalError: fetch failed";
     WeatherJs.blob_set := WeatherJs.blob_set all_up;
     WeatherJs.stormglass := WeatherJs.stormglass all_up;
     WeatherJs.buoy := WeatherJs.buoy all_up;
     WeatherJs.tide_api := WeatherJs.tide_api all_up;
     WeatherJs.solar := WeatherJs.solar all_up |}.

(** The cache entry is five hours old and the forecast request is
    rejected. *)
Definition stale_and_down : WeatherJs.world :=
  {| WeatherJs.now_check := 104 * hour_ms;
     WeatherJs.now_fetch := 104 * hour_ms;
     WeatherJs.now_write := 104 * hour_ms + 350;
     WeatherJs.blob_get := WeatherJs.blob_get all_up;
     WeatherJs.blob_set := Returned tt;
     WeatherJs.stormglass := Threw "FetchError: request failed";
     WeatherJs.buoy := WeatherJs.buoy all_up;
     WeatherJs.tide_api := WeatherJs.tide_api all_up;
     WeatherJs.solar := WeatherJs.solar all_up |}.

End Sample.

(** ** src/unnamed/part_001: the handler *)

Module Part001Handler.

(** What the five promises of [Promise.all] settle to.  [safeBuoy] never
    rejects, so the two buoy results are values; the other three functions
    may reject.  [pickCurrentWave] is, line for line, the one of
    part_004. *)
Record sources : Type := mkSources {
  gulf : StationObservation;
  bay : StationObservation;
  sg : outcome (option stored_forecast);
  tides : outcome json;
  sun : outcome json
}.

Definition ok_headers : list (string * string) :=
  [("Access-Control-Allow-Origin", "*"); ("Content-Type", "application/json")].

Definition handler (now : Z) (s : sources) : http_result :=
  let attempt :=
    let* f := sg s in
    let* t := tides s in
    let* u := sun s in
    let wave := Part004.pickCurrentWave now f in
    Returned
      {| statusCode := 200;
         headers := ok_headers;
         body := JObject [("gulf", obs_json (gulf s)); ("bay", obs_json (bay s));
                          ("waves", JObject [("waveFt", of_jsnum wave)]);
                          ("tides", t); ("sun", u);
                          ("usharborsOutdated", JBool false)] |} in
  match attempt with
  | Returned r => r
  | Threw err =>
      {| statusCode := 200;
         headers := ok_headers;
         body := JObject
                   [("error", JString err); ("gulf", JNull); ("bay", JNull);
                    ("waves", JObject [("waveFt", JNull)]);
                    ("tides", JObject [("high", JNull); ("low", JNull)]);
                    ("sun", JObject [("sunrise", JNull); ("sunset", JNull)]);
                    ("usharborsOutdated", JBool true)] |}
  end.

End Part001Handler.

(** ** Vocabulary of the cache property *)

Module CacheSpec.

(** The forecast request fails: it is rejected, it is answered with a
    non-success status, or its body is not JSON. *)
Definition fetch_fails (api : outcome (response (outcome forecast))) : bool :=
  match api with
  | Threw _ => true
  | Returned r =>
      (negb (ok r) || match payload r with Threw _ => true | Returned _ => false end)%bool
  end.

(** The slot is stale: empty, or written four hours ago or more. *)
Definition is_stale (w : WeatherJs.world) (cached : option cache_entry) : bool :=
  match cached with
  | Some c => negb (WeatherJs.now_check w - timestamp c <? WeatherJs.four_hours)
  | None => true
  end.

End CacheSpec.

(** ** Vocabulary of the fallback property *)

Module FieldSpec.

(** The five fields of an observation. *)
Inductive fld : Type := F_ATMP | F_WTMP | F_WSPD | F_GST | F_WDIR.

(** The reading of a row that feeds the field. *)
Definition sel (f : fld) : reading -> jsnum :=
  match f with
  | F_ATMP => ATMP
  | F_WTMP => WTMP
  | F_WSPD => WSPD
  | F_GST => GST
  | F_WDIR => WDIR
  end.

(** The member of the observation that holds the field. *)
Definition result (f : fld) (o : StationObservation) : json :=
  match f with
  | F_ATMP => of_jsnum (airF o)
  | F_WTMP => of_jsnum (waterF o)
  | F_WSPD => of_jsnum (windKts o)
  | F_GST => of_jsnum (gustKts o)
  | F_WDIR => windDirCardinal o
  end.

(** The unit conversion js/buoys.js applies to the reading it selected. *)
Definition convert (f : fld) (v : jsnum) : json :=
  match f with
  | F_ATMP | F_WTMP => of_jsnum (unless_null (fun c => toFixed1 (Util.CtoF c)) v)
  | F_WSPD | F_GST => of_jsnum (unless_null (fun m => toFixed1 (Util.mpsToKts m)) v)
  | F_WDIR => Util.degToCardinal v
  end.

(** First non-missing wins, in the words of the specification: scanning the
    rows newest first, the value is the first reading that is a number, every
    row before it lacking one; it is null when no row has a number. *)
Inductive first_numeric (g : reading -> jsnum) : list reading -> jsnum -> Prop :=
| first_none (rows : list reading) :
    Forall (fun r => g r = NaN) rows ->
    first_numeric g rows Null
| first_hit (pre : list reading) (r : reading) (post : list reading) (q : Q) :
    Forall (fun r' => g r' = NaN) pre ->
    g r = Num q ->
    first_numeric g (pre ++ r :: post)%list (Num q).

End FieldSpec.

(** A table of five named columns and two rows, and the same table with the
    columns in the opposite order. *)
Module SampleTable.

Definition cols : list Table.column :=
  [("WDIR", ["150"; "140"]); ("WSPD", ["5.1"; "4.6"]); ("GST", ["6.7"; "6.2"]);
   ("ATMP", ["MM"; "22.1"]); ("WTMP", ["23.4"; "23.3"])].

Definition cols_reversed : list Table.column := rev cols.

End SampleTable.

(** ** The text of a table *)

Module Render.

(** A field of the feed: not empty and free of white space. *)
Definition is_word (s : string) : bool :=
  (Str.truthy s && forallb (fun c => negb (Str.is_space c)) (Str.chars s))%bool.

(** The fields of a line, one space apart. *)
Fixpoint join (ws : list string) : string :=
  match ws with
  | [] => EmptyString
  | [w] => w
  | w :: ws' => w ++ " " ++ join ws'
  end%string.

Definition header_line (cols : list Table.column) : string :=
  ("#" ++ join (Table.header cols))%string.

Definition row_line (cols : list Table.column) (i : nat) : string :=
  join (Table.row cols i).

Fixpoint unlines (ls : list string) : string :=
  match ls with
  | [] => EmptyString
  | l :: ls' => l ++ Sample.nl ++ unlines ls'
  end%string.

(** The payload: the header line, then the [n] data rows, newest first,
    every line ended by a line feed. *)
Definition payload_text (n : nat) (cols : list Table.column) : string :=
  unlines (header_line cols :: map (row_line cols) (seq 0 n)).

(** The table can be written as a payload: it has a column, every name and
    every cell is a field, no cell starts with the comment marker, every
    column has [n] cells, and a column is named WDIR. *)
Definition well_formed (n : nat) (cols : list Table.column) : bool :=
  (match cols with [] => false | _ => true end &&
   forallb (fun c =>
              is_word (fst c) && Nat.eqb (List.length (snd c)) n &&
              forallb (fun x => is_word x && negb (Str.startsWith "#" x)) (snd c))
           cols &&
   existsb (fun x => String.eqb x "WDIR") (Table.header cols))%bool.

(** A line is tight when its first and its last character are not white
    space; [hd_ok] says so of the first character. *)
Definition hd_ok (l : list ascii) : Prop :=
  match l with
  | c :: _ => Str.is_space c = false
  | [] => False
  end.

Definition words (ws : list string) : Prop :=
  Forall (fun w => is_word w = true) ws.

(** A line without a line feed that does not end with a carriage return. *)
Definition no_nl (l : list ascii) : Prop :=
  Forall (fun c => Ascii.eqb c "010"%char = false) l.

Definition last_not_cr (l : list ascii) : Prop :=
  match rev l with
  | r :: _ => Ascii.eqb r "013"%char = false
  | [] => True
  end.

Definition plain_line (s : string) : Prop :=
  no_nl (Str.chars s) /\ last_not_cr (Str.chars s).

End Render.

(** ** src/unnamed/part_001 and part_004: [fetchBuoy] with the header
       lookup and the running selection *)

Module Part001Buoy.

(** [parseNum(n)]: [null] for what does not parse. *)
Definition parseNum (n : option string) : jsnum :=
  match parseFloat_opt n with
  | Num q => Num q
  | _ => Null
  end.

Definition cToF (c : Q) : Q := Qred (c * 9 / 5 + 32).
Definition mpsToKts (m : Q) : Q := Qred (m * (194384 # 100000)).

Definition degToCard (d : jsnum) : json :=
  match d with
  | Null => JString "--"
  | NaN => JUndefined
  | Num q => Compass.at_index (Compass.index q)
  end.

(** One turn of the loop over the data rows: [a] holds [air], [water],
    [wspd], [gust] and [wdir] (in the members ATMP, WTMP, WSPD, GST and
    WDIR), [r] is the row. *)
Definition step (header : list string) (a : reading) (r : list string) : reading :=
  let iWDIR := Str.indexOf header "WDIR" in
  let iWSPD := Str.indexOf header "WSPD" in
  let iGST := Str.indexOf header "GST" in
  let iATMP := Str.indexOf header "ATMP" in
  let iWTMP := Str.indexOf header "WTMP" in
  {| ATMP := if (is_null (ATMP a) && negb (iATMP =? -1))%bool
             then parseNum (Str.at_ r iATMP) else ATMP a;
     WTMP := if (is_null (WTMP a) && negb (iWTMP =? -1))%bool
             then parseNum (Str.at_ r iWTMP) else WTMP a;
     WSPD := if (is_null (WSPD a) && negb (iWSPD =? -1))%bool
             then parseNum (Str.at_ r iWSPD) else WSPD a;
     GST := if (is_null (GST a) && negb (iGST =? -1))%bool
            then parseNum (Str.at_ r iGST) else GST a;
     WDIR := if (is_null (WDIR a) && negb (iWDIR =? -1))%bool
             then let dd := parseNum (Str.at_ r iWDIR) in
                  if negb (is_null dd) then dd else WDIR a
             else WDIR a |}.

Definition nothing : reading :=
  {| WDIR := Null; WSPD := Null; GST := Null; ATMP := Null; WTMP := Null |}.

(** The loop of part_001, which visits every row. *)
Definition loop (header : list string) (rows : list (list string)) : reading :=
  fold_left (step header) rows nothing.

Definition report (a : reading) : StationObservation :=
  {| airF := unless_null (fun c => round1 (cToF c)) (ATMP a);
     waterF := unless_null (fun c => round1 (cToF c)) (WTMP a);
     windKts := unless_null (fun m => round1 (mpsToKts m)) (WSPD a);
     gustKts := unless_null (fun m => round1 (mpsToKts m)) (GST a);
     windDirCardinal :=
       if negb (is_null (WDIR a)) then degToCard (WDIR a) else JString "--" |}.

(** [fetchBuoy(id)] of part_001. *)
Definition fetchBuoy (resp : outcome (response string))
  : outcome StationObservation :=
  let* res := resp in
  if negb (ok res) then Threw "Error: Buoy fetch failed"
  else
    let lines := filter Str.truthy (Str.split_lines (payload res)) in
    match Str.find_ (Str.startsWith "#") lines with
    | None => Threw "Error: Missing header"
    | Some headerLine =>
        let header :=
          Str.split_ws (Str.trim (Str.remove_first_hash headerLine)) in
        let dataLines :=
          map (fun l => Str.split_ws (Str.trim l))
              (filter (fun l => negb (Str.startsWith "#" l)) lines) in
        Returned (report (loop header dataLines))
    end.

Definition safeBuoy (resp : outcome (response string)) : StationObservation :=
  try_catch (fetchBuoy resp)
    {| airF := Null; waterF := Null; windKts := Null; gustKts := Null;
       windDirCardinal := JString "--" |}.

End Part001Buoy.

Module Part004Buoy.

(** A value is truthy: a number other than zero. *)
Definition truthy (v : jsnum) : bool :=
  match v with
  | Num q => negb (Qeq_bool q 0)
  | _ => false
  end.

(** The loop of part_004: the turn is the one of part_001, and the loop is
    left as soon as the five values are truthy. *)
Fixpoint loop_from (header : list string) (rows : list (list string))
    (a : reading) : reading :=
  match rows with
  | [] => a
  | r :: rows' =>
      let a' := Part001Buoy.step header a r in
      if (truthy (ATMP a') && truthy (WTMP a') && truthy (WSPD a') &&
          truthy (GST a') && truthy (WDIR a'))%bool
      then a'
      else loop_from header rows' a'
  end.

Definition loop (header : list string) (rows : list (list string)) : reading :=
  loop_from header rows Part001Buoy.nothing.

(** [fetchBuoy(id)] of part_004: the header is not trimmed and the rows are
    split as they are. *)
Definition fetchBuoy (resp : outcome (response string))
  : outcome StationObservation :=
  let* res := resp in
  if negb (ok res) then Threw "Error: Buoy fetch failed"
  else
    let lines := filter Str.truthy (Str.split_lines (payload res)) in
    match Str.find_ (Str.startsWith "#") lines with
    | None => Threw "Error: Missing header"
    | Some headerLine =>
        let header := Str.split_ws (Str.strip_hash_prefix headerLine) in
        let data :=
          map Str.split_ws
              (filter (fun l => negb (Str.startsWith "#" l)) lines) in
        Returned (Part001Buoy.report (loop header data))
    end.

End Part004Buoy.

(** ** Vocabulary of the running selection *)

Module Selection.

(** A value once found stays: [keep old new] is [new] only while [old] is
    null. *)
Definition keep (old new : jsnum) : jsnum :=
  if is_null old then new else old.

(** What a cell offers: its number, or nothing. *)
Definition offer (v : jsnum) : jsnum :=
  match v with
  | Num q => Num q
  | _ => Null
  end.

End Selection.

(** ** Vocabulary of the hour selection of [fetchStormglass] *)

Module HourSpec.

(** The absolute time distance of an hour to [now], none when its time stamp
    does not parse. *)
Definition distance (now : Z) (h : hour) : option Z :=
  option_map (fun t => Z.abs (t - now)) (h_time h).

Definition all_farther (now d : Z) (hs : list hour) : Prop :=
  forall h d', In h hs -> distance now h = Some d' -> d < d'.

Definition none_closer (now d : Z) (hs : list hour) : Prop :=
  forall h d', In h hs -> distance now h = Some d' -> d <= d'.

(** The conversion of the selected height to feet. *)
Definition feet (m : Q) : Q := round1 (Qred (m * (328084 # 100000))).

End HourSpec.

(** ** A second invocation *)

Module SampleNext.

(** One hour after [Sample.stale_and_down]: the slot holds what that call
    wrote and the forecast upstream answers again. *)
Definition upstream_back : WeatherJs.world :=
  {| WeatherJs.now_check := 105 * Sample.hour_ms;
     WeatherJs.now_fetch := 105 * Sample.hour_ms;
     WeatherJs.now_write := 105 * Sample.hour_ms;
     WeatherJs.blob_get :=
       Returned (Some {| timestamp := 104 * Sample.hour_ms + 350;
                         waves := {| waveM := Null; waveFt := Null |} |});
     WeatherJs.blob_set := Returned tt;
     WeatherJs.stormglass := WeatherJs.stormglass Sample.all_up;
     WeatherJs.buoy := WeatherJs.buoy Sample.all_up;
     WeatherJs.tide_api := WeatherJs.tide_api Sample.all_up;
     WeatherJs.solar := WeatherJs.solar Sample.all_up |}.

End SampleNext.

(** ** functions/weather/weather.js and src/unnamed/part_003: the blocks of
       the handler and the handlers *)

(** The document of the sunrise API: [s.results], with its two time
    stamps. *)
Record sun_doc : Type := mkSunDoc {
  results : option (string * string)
}.

(** The file [stormglass.json]: [sg.waves], [None] when the member is
    absent. *)
Record wave_file : Type := mkWaveFile {
  f_waves : option (list wave_point)
}.

Module Blocks.

Section WithClock.

(** [toLocalHM] is [s => toHM(toLocal(new Date(s)))] on a time stamp;
    [toLocal] is the wall clock of America/Chicago on epoch milliseconds,
    as the comparison of two converted dates sees it.  Both rest on the
    time-zone tables of the runtime. *)
Variable toLocalHM : string -> string.
Variable toLocal : Z -> Z.

(** The sun block: [s.results.sunrise] throws when the document has no
    [results], before either member of [sun] is assigned. *)
Definition sun_block (api : outcome sun_doc) : json :=
  match api with
  | Returned {| results := Some (sunrise, sunset) |} =>
      JObject [("sunrise", JString (toLocalHM sunrise));
               ("sunset", JString (toLocalHM sunset))]
  | _ => JObject [("sunrise", JNull); ("sunset", JNull)]
  end.

(** The loop of the waves block: [best] after the points [ws].  A time stamp
    that does not parse compares false and ends the loop like a point in the
    future. *)
Fixpoint last_past (nowLocal : Z) (ws : list wave_point)
    (best : option wave_point) : option wave_point :=
  match ws with
  | [] => best
  | w :: ws' =>
      match w_time w with
      | Some t =>
          if toLocal t <=? nowLocal then last_past nowLocal ws' (Some w)
          else best
      | None => best
      end
  end.

(** The waves block: [parseFloat(best.waveFt).toFixed(1)], a string. *)
Definition waves_block (now : Z) (api : outcome wave_file) : json :=
  match api with
  | Returned {| f_waves := Some arr |} =>
      match last_past (toLocal now) arr None with
      | Some best =>
          JObject [("waveFt",
                    JString (WeatherCjs.fixed1_string
                               (match w_waveFt best with
                                | Num q => Num q
                                | _ => NaN
                                end)))]
      | None => JObject [("waveFt", JNull)]
      end
  | _ => JObject [("waveFt", JNull)]
  end.

(** The tide block of part_003: no guard on [t.predictions], whose absence
    throws inside the [try] before [tides] is touched. *)
Definition tides_block_003 (api : outcome tide_doc) : json :=
  match api with
  | Returned {| predictions := Some ps |} =>
      let H := find (fun x => String.eqb (p_type x) "H") ps in
      let L := find (fun x => String.eqb (p_type x) "L") ps in
      JObject [("high", or_null (option_map (WeatherCjs.tide_event toLocalHM) H));
               ("low", or_null (option_map (WeatherCjs.tide_event toLocalHM) L))]
  | _ => JObject [("high", JNull); ("low", JNull)]
  end.

(** What one invocation reads from outside. *)
Record world : Type := mkWorld {
  now : Z;
  gulf_feed : outcome string;
  bay_feed : outcome string;
  tide_api : outcome tide_doc;
  sun_api : outcome sun_doc;
  wave_api : outcome wave_file
}.

(** The handler of functions/weather/weather.js: the two buoy reads are not
    guarded. *)
Definition handler_cjs (w : world) : http_result :=
  let attempt :=
    let* gulfBuoy := WeatherCjs.fetchBuoy (gulf_feed w) in
    let* bayBuoy := WeatherCjs.fetchBuoy (bay_feed w) in
    let tides := WeatherCjs.tides_block toLocalHM (tide_api w) in
    let sun := sun_block (sun_api w) in
    let waves := waves_block (now w) (wave_api w) in
    Returned
      {| statusCode := 200;
         headers := [("Content-Type", "application/json")];
         body := JObject [("gulf", obs_json gulfBuoy); ("bay", obs_json bayBuoy);
                          ("waves", waves); ("tides", tides); ("sun", sun);
                          ("usharborsOutdated", JBool false)] |} in
  match attempt with
  | Returned r => r
  | Threw err =>
      {| statusCode := 500; headers := [];
         body := JObject [("error", JString err)] |}
  end.

(** A member whose value is undefined is left out by [JSON.stringify]. *)
Definition member (k : string) (v : option json) : list (string * json) :=
  match v with
  | Some j => [(k, j)]
  | None => []
  end.

(** The handler of part_003: [parseBuoy] catches its own failures and every
    block is guarded, so the outer [catch] is never entered. *)
Definition handler_003 (w : world) : http_result :=
  let gulf := Part003.parseBuoy (gulf_feed w) in
  let bay := Part003.parseBuoy (bay_feed w) in
  let tides := tides_block_003 (tide_api w) in
  let sun := sun_block (sun_api w) in
  let waves := waves_block (now w) (wave_api w) in
  {| statusCode := 200;
     headers := [("Content-Type", "application/json")];
     body := JObject (member "gulf" (option_map obs_json gulf) ++
                      member "bay" (option_map obs_json bay) ++
                      [("waves", waves); ("tides", tides); ("sun", sun);
                       ("usharborsOutdated", JBool false)])%list |}.

End WithClock.

End Blocks.

(** ** Vocabulary of the waves block *)

Module PastSpec.

(** The point is not after now on the converted clock. *)
Definition past (toLocal : Z -> Z) (nowLocal : Z) (w : wave_point) : bool :=
  match w_time w with
  | Some t => toLocal t <=? nowLocal
  | None => false
  end.

(** The height as the block prints it. *)
Definition printed (w : wave_point) : string :=
  WeatherCjs.fixed1_string
    (match w_waveFt w with
     | Num q => Num q
     | _ => NaN
     end).

End PastSpec.

(** ** src/unnamed/part_001: the handler with its sources *)

Module Part001Full.

(** What one invocation reads from outside.  [sun_file] is the result of
    [githubGet("sun.json")] with its content parsed: the request may reject,
    the file may be missing ([None]), and its content may not be JSON
    ([Some None]). *)
Record world : Type := mkWorld {
  now_pick : Z;
  now_stamp : Z;
  gulf_feed : outcome (response string);
  bay_feed : outcome (response string);
  forecast_api : outcome (response (outcome forecast));
  tide_api : outcome (response (outcome tide_doc));
  sun_file : outcome (option (option json))
}.

(** [fetchStormglassFresh()]: [json.hours.map] throws when the document has
    no hours. *)
Definition fetchStormglassFresh (stamp : Z)
    (api : outcome (response (outcome forecast))) : outcome stored_forecast :=
  let* res := api in
  if negb (ok res) then Threw "Error: StormGlass fetch failed"
  else
    let* json := payload res in
    match hours json with
    | None => Threw "TypeError: Cannot read properties of undefined"
    | Some hs =>
        Returned
          {| s_timestamp := stamp;
             s_waves :=
               Some (map (fun h =>
                            {| w_time := h_time h;
                               w_waveFt :=
                                 match h_sg h with
                                 | Num m => Num (HourSpec.feet m)
                                 | _ => Null
                                 end |}) hs) |}
    end.

Definition getSunData (file : outcome (option (option json))) : outcome json :=
  let* f := file in
  match f with
  | Some (Some j) => Returned j
  | _ => Returned (JObject [("sunrise", JNull); ("sunset", JNull)])
  end.

Definition sources_of (w : world) : Part001Handler.sources :=
  {| Part001Handler.gulf := Part001Buoy.safeBuoy (gulf_feed w);
     Part001Handler.bay := Part001Buoy.safeBuoy (bay_feed w);
     Part001Handler.sg :=
       let* f := fetchStormglassFresh (now_stamp w) (forecast_api w) in
       Returned (Some f);
     Part001Handler.tides := Part001.getNoaaTides (tide_api w);
     Part001Handler.sun := getSunData (sun_file w) |}.

Definition handler (w : world) : http_result :=
  Part001Handler.handler (now_pick w) (sources_of w).

End Part001Full.

Module SamplePart001.

(** Every upstream answers; the second prediction carries an ISO time stamp,
    without the blank between date and time. *)
Definition iso_stamp : Part001Full.world :=
  {| Part001Full.now_pick := 100 * Sample.hour_ms;
     Part001Full.now_stamp := 100 * Sample.hour_ms;
     Part001Full.gulf_feed := Returned {| ok := true; payload := Sample.buoy_text |};
     Part001Full.bay_feed := Returned {| ok := true; payload := Sample.buoy_text |};
     Part001Full.forecast_api :=
       Returned {| ok := true;
                   payload := Returned
                     {| hours := Some [ {| h_time := Some (100 * Sample.hour_ms);
                                           h_sg := Num (1 # 1) |} ] |} |};
     Part001Full.tide_api :=
       Returned {| ok := true;
                   payload := Returned
                     {| predictions :=
                          Some [ {| p_t := "2025-12-07 03:10"; p_v := "1.234";
                                    p_type := "H" |};
                                 {| p_t := "2025-12-07T09:45"; p_v := "0.312";
                                    p_type := "L" |} ] |} |};
     Part001Full.sun_file := Returned (Some (Some Sample.sun_times)) |}.

End SamplePart001.

Module Part001Spec.

(** The body the handler of part_001 gives from its [catch]. *)
Definition empty_report (e : string) : json :=
  JObject [("error", JString e); ("gulf", JNull); ("bay", JNull);
           ("waves", JObject [("waveFt", JNull)]);
           ("tides", JObject [("high", JNull); ("low", JNull)]);
           ("sun", JObject [("sunrise", JNull); ("sunset", JNull)]);
           ("usharborsOutdated", JBool true)].

End Part001Spec.

Module FreshSpec.

(** The hour has a numeric height and a time stamp that parses: its distance
    to [now]. *)
Definition distance (now : Z) (h : hour) : option Z :=
  match h_sg h with
  | Num _ => HourSpec.distance now h
  | _ => None
  end.

Definition all_farther (now d : Z) (hs : list hour) : Prop :=
  forall h d', In h hs -> distance now h = Some d' -> d < d'.

Definition none_closer (now d : Z) (hs : list hour) : Prop :=
  forall h d', In h hs -> distance now h = Some d' -> d <= d'.

End FreshSpec.

(** ** alerts.js *)

Module Alerts.

(** The part of the page the module touches: the elements in document
    order, each with its id and its class list. *)
Definition element : Type := (string * list string)%type.
Definition page : Type := list element.

Definition has_class (c : string) (cl : list string) : bool :=
  existsb (String.eqb c) cl.

(** [classList.add(c)] and [classList.remove(c)]. *)
Definition add_class (c : string) (cl : list string) : list string :=
  if has_class c cl then cl else (cl ++ [c])%list.

Definition remove_class (c : string) (cl : list string) : list string :=
  filter (fun x => negb (String.eqb c x)) cl.

(** [clearAlerts()]: the two alert classes leave every element that has one
    of them. *)
Definition clearAlerts (p : page) : page :=
  map (fun e => (fst e, remove_class "alert-yellow" (remove_class "alert-red" (snd e)))) p.

(** [mark(id, cls)]: the class is added to the first element with the id;
    without such an element [getElementById] gives null and the access to
    its class list throws, the page staying as it is. *)
Fixpoint mark (id cls : string) (p : page) : option page :=
  match p with
  | [] => None
  | e :: p' =>
      if String.eqb (fst e) id then Some ((fst e, add_class cls (snd e)) :: p')
      else option_map (cons e) (mark id cls p')
  end.

(** A sequence of calls of [mark]: the page after the calls, and the error
    when one of them threw (the calls after it are not made). *)
Fixpoint run (calls : list (string * string)) (p : page) : page * option string :=
  match calls with
  | [] => (p, None)
  | (id, cls) :: calls' =>
      match mark id cls p with
      | Some p' => run calls' p'
      | None => (p, Some "TypeError: Cannot read properties of null")
      end
  end.

(** [x < 60] and [x >= 25] on a reading: [null] counts as 0, [NaN] compares
    false. *)
Definition below60 (v : jsnum) : bool :=
  match v with
  | Null => true
  | NaN => false
  | Num q => negb (Qle_bool 60 q)
  end.

Definition atleast25 (v : jsnum) : bool :=
  match v with
  | Null => false
  | NaN => false
  | Num q => Qle_bool 25 q
  end.

Definition waterLow (gulf bay : StationObservation) : bool :=
  (below60 (waterF gulf) || below60 (waterF bay))%bool.

Definition airLow (gulf bay : StationObservation) : bool :=
  (below60 (airF gulf) || below60 (airF bay))%bool.

Definition windHigh (gulf bay : StationObservation) : bool :=
  (atleast25 (gustKts gulf) || atleast25 (gustKts bay) ||
   atleast25 (windKts gulf) || atleast25 (windKts bay))%bool.

Definition when (b : bool) (calls : list (string * string)) : list (string * string) :=
  if b then calls else [].

(** The calls of [mark] that [applyAlertLogic(data)] makes, in order. *)
Definition calls (gulf bay : StationObservation) : list (string * string) :=
  (when (waterLow gulf bay)
     [("waterLabel", "alert-red"); ("gulfWater", "alert-red");
      ("bayWater", "alert-red")] ++
   when (airLow gulf bay && negb (waterLow gulf bay))
     [("airLabel", "alert-yellow"); ("gulfAir", "alert-yellow");
      ("bayAir", "alert-yellow")] ++
   when (airLow gulf bay && waterLow gulf bay)
     [("airLabel", "alert-red"); ("gulfAir", "alert-red");
      ("bayAir", "alert-red")] ++
   when (windHigh gulf bay)
     [("windLabel", "alert-red"); ("gulfWind", "alert-red");
      ("bayWind", "alert-red")])%list.

(** [applyAlertLogic(data)] with [data = { gulf, bay }]. *)
Definition applyAlertLogic (gulf bay : StationObservation) (p : page)
  : page * option string :=
  run (calls gulf bay) (clearAlerts p).

(** The classes of the element [getElementById(id)] finds. *)
Fixpoint classes (id : string) (p : page) : option (list string) :=
  match p with
  | [] => None
  | e :: p' => if String.eqb (fst e) id then Some (snd e) else classes id p'
  end.

(** The ids the module marks. *)
Definition ids : list string :=
  ["waterLabel"; "gulfWater"; "bayWater"; "airLabel"; "gulfAir"; "bayAir";
   "windLabel"; "gulfWind"; "bayWind"].

Definition is_alert (c : string) : bool :=
  (String.eqb c "alert-red" || String.eqb c "alert-yellow")%bool.

End Alerts.

Module SamplePage.

(** A board that still shows the alerts of the previous report. *)
Definition board : Alerts.page :=
  [("waterLabel", ["label"]); ("gulfWater", ["value"; "alert-red"]);
   ("bayWater", ["value"]); ("airLabel", ["label"; "alert-yellow"]);
   ("gulfAir", ["value"; "alert-yellow"]); ("bayAir", ["value"]);
   ("windLabel", ["label"; "alert-red"]); ("gulfWind", ["value"]);
   ("bayWind", ["value"])].

(** A warm calm day on which the gulf buoy reports no water temperature. *)
Definition gulf : StationObservation :=
  {| airF := Num (718 # 10); waterF := Null; windKts := Num (99 # 10);
     gustKts := Num 13; windDirCardinal := JString "SSE" |}.

Definition bay : StationObservation :=
  {| airF := Num (72 # 1); waterF := Num (741 # 10); windKts := Num (8 # 1);
     gustKts := Num 11; windDirCardinal := JString "SE" |}.

End SamplePage.

(** ** src/unnamed/part_004: the USHarbors table *)

Module Tsv.

(** One tide event [{ time, ft }] and the record of a day. *)
Record event : Type := mkEvent {
  ev_time : string;
  ev_ft : jsnum
}.

Record day_record : Type := mkDay {
  high : list event;
  low : list event;
  sunrise : option string;
  sunset : option string
}.

(** [/^\d{1,2}:\d{2}$/.test(t)] on the characters of [t]. *)
Definition validTime_chars (l : list ascii) : bool :=
  let (h, r) := span_digits l in
  match r with
  | c :: r' =>
      let (m, r'') := span_digits r' in
      (Ascii.eqb c ":"%char &&
       (Nat.eqb (List.length h) 1 || Nat.eqb (List.length h) 2) &&
       Nat.eqb (List.length m) 2 &&
       match r'' with [] => true | _ => false end)%bool
  | [] => false
  end.

(** [/^-?\d+(\.\d+)?$/.test(v)] on the characters of [v]. *)
Definition validNum_chars (l : list ascii) : bool :=
  let l1 := match l with
            | c :: l' => if Ascii.eqb c "-"%char then l' else l
            | [] => []
            end in
  let (ip, r) := span_digits l1 in
  (match ip with [] => false | _ => true end &&
   match r with
   | [] => true
   | c :: r' =>
       let (fp, r'') := span_digits r' in
       (Ascii.eqb c "."%char &&
        match fp with [] => false | _ => true end &&
        match r'' with [] => true | _ => false end)
   end)%bool.

(** The two tests on a column that may be undefined: the text of
    [undefined] passes neither. *)
Definition validTime (t : option string) : bool :=
  match t with
  | Some s => validTime_chars (Str.chars s)
  | None => false
  end.

Definition validNum (v : option string) : bool :=
  match v with
  | Some s => validNum_chars (Str.chars s)
  | None => false
  end.

(** [parseInt(s, 10)]: white space, a sign, digits; [None] (NaN) without a
    digit. *)
Definition parseInt (s : string) : option Z :=
  let (neg, l1) := sign_of (Str.drop_space (Str.chars s)) in
  let (d, _) := span_digits l1 in
  match d with
  | [] => None
  | _ => Some (if neg then - digits_value d else digits_value d)
  end.

(** [rec.high.push(...)] when both columns pass. *)
Definition push_event (t v : option string) (events : list event) : list event :=
  if (validTime t && validNum v)%bool
  then match t with
       | Some time => (events ++ [{| ev_time := time; ev_ft := parseFloat_opt v |}])%list
       | None => events
       end
  else events.

(** The record built from the columns of one line. *)
Definition record_of (cols : list string) : day_record :=
  let col i := nth_error cols i in
  {| high := push_event (col 4%nat) (col 5%nat)
               (push_event (col 2%nat) (col 3%nat) []);
     low := push_event (col 8%nat) (col 9%nat)
              (push_event (col 6%nat) (col 7%nat) []);
     sunrise := if validTime (col 10%nat) then col 10%nat else None;
     sunset := if validTime (col 11%nat) then col 11%nat else None |}.

(** The object [days]: the bindings, the latest first, so that the binding
    found for a day is the one assigned last. *)
Definition days : Type := list (Z * day_record).

Fixpoint lookup (day : Z) (d : days) : option day_record :=
  match d with
  | [] => None
  | (k, r) :: d' => if k =? day then Some r else lookup day d'
  end.

(** One turn of the loop over the trimmed lines. *)
Definition turn (d : days) (line : string) : days :=
  if negb (Str.truthy line) then d
  else
    let cols := Part001.split_on "009"%char line in
    match parseInt (nth 0 cols EmptyString) with
    | None => d
    | Some day => (day, record_of cols) :: d
    end.

Definition parseUsharborsTSV (tsv : string) : days :=
  fold_left turn (map Str.trim (Str.split_lines tsv)) [].



End Tsv.

Module SampleTsv.

Definition tab : string := String "009" EmptyString.

(** Two lines for the 7th (the second replaces the first) and a title
    line. *)
Definition table : string :=
  ("Day" ++ tab ++ "DOW" ++ tab ++ "High" ++ Sample.nl ++
   "7" ++ tab ++ "Sun" ++ tab ++ "1:44" ++ tab ++ "2.1" ++ tab ++ "--" ++ tab ++
     "--" ++ tab ++ "11:02" ++ tab ++ "0.3" ++ tab ++ "9:58" ++ tab ++ "-0.2" ++
     tab ++ "7:03" ++ tab ++ "5:47" ++ Sample.nl ++
   "7" ++ tab ++ "Sun" ++ tab ++ "--" ++ tab ++ "2.1" ++ tab ++ "3:40" ++ tab ++
     "1.5" ++ tab ++ "11:02" ++ tab ++ "0.3" ++ tab ++ "9:58" ++ tab ++ "-0.2" ++
     tab ++ "7:03" ++ tab ++ "5:47pm" ++ Sample.nl)%string.

End SampleTsv.

Module TsvSpec.

(** An event as the table should give it: a time of the form h:mm or hh:mm
    and a height that is a number. *)
Definition good_event (e : Tsv.event) : Prop :=
  Tsv.validTime_chars (Str.chars (Tsv.ev_time e)) = true /\
  exists q, Tsv.ev_ft e = Num q.

Definition good_time (t : option string) : Prop :=
  match t with
  | Some s => Tsv.validTime_chars (Str.chars s) = true
  | None => True
  end.

Definition good_record (r : Tsv.day_record) : Prop :=
  Forall good_event (Tsv.high r) /\ Forall good_event (Tsv.low r) /\
  (List.length (Tsv.high r) <= 2)%nat /\ (List.length (Tsv.low r) <= 2)%nat /\
  good_time (Tsv.sunrise r) /\ good_time (Tsv.sunset r).

End TsvSpec.

Module SampleOutage.

(** A feed that is up but has no observation: the two header lines only. *)
Definition headers_only : string :=
  (Sample.header1 ++ Sample.nl ++ Sample.header2 ++ Sample.nl)%string.

End SampleOutage.

(** ** Further sample payloads *)

Module SampleSwapped.

(** One observation with the columns in the order of [Sample.header1]. *)
Definition text : string :=
  (Sample.header1 ++ Sample.nl ++ Sample.header2 ++ Sample.nl
     ++ Sample.row_2024 ++ Sample.nl)%string.

(** The same observation with the two temperature columns exchanged, in the
    header and in the row: air 22.1 and water 23.3 as before. *)
Definition swapped_header1 : string :=
  "#YY  MM DD hh mm WDIR WSPD GST  WVHT   DPD   APD MWD   PRES  WTMP  ATMP  DEWP  VIS PTDY  TIDE".
Definition swapped_row : string :=
  "2025 12 07 20 24 140  4.6  6.2    MM    MM    MM  MM 1015.1  23.3  22.1  18.0   MM   MM    MM".

Definition swapped_text : string :=
  (swapped_header1 ++ Sample.nl ++ Sample.header2 ++ Sample.nl
     ++ swapped_row ++ Sample.nl)%string.

End SampleSwapped.

Module SampleHours.

Definition now : Z := 100 * Sample.hour_ms.

Definition answer (f : forecast) : outcome (response (outcome forecast)) :=
  Returned {| ok := true; payload := Returned f |}.

(** The hour at now has no height; the hour thirty minutes later has
    1.0 m. *)
Definition nearest_without_height : forecast :=
  {| hours := Some [ {| h_time := Some now; h_sg := Null |};
                     {| h_time := Some (now + 30 * 60 * 1000);
                        h_sg := Num 1 |} ] |}.

(** Both hours are more than 999999999 ms from now: twenty days ahead with
    2.0 m, then twelve days ahead with 1.0 m. *)
Definition far_hours : forecast :=
  {| hours := Some [ {| h_time := Some (now + 20 * 24 * Sample.hour_ms);
                        h_sg := Num 2 |};
                     {| h_time := Some (now + 12 * 24 * Sample.hour_ms);
                        h_sg := Num 1 |} ] |}.

End SampleHours.

(** * Properties *)

Local Open Scope list_scope.

(** ** The model on small inputs *)

(** [split], [trim], [parseFloat] and [indexOf] as the runtime computes
    them. *)
Example string_model_examples :
  Str.split_ws " a  b " = [EmptyString; "a"; "b"; EmptyString]%string /\
  Str.split_ws EmptyString = [EmptyString] /\
  Str.split_lines ("a" ++ String "013" (String "010" "b"))%string
    = ["a"; "b"]%string /\
  Str.trim "  x y  " = "x y"%string /\
  parseFloat "MM" = NaN /\ parseFloat "22.1" = Num (221 # 10) /\
  parseFloat "-1.5e2x" = Num (-150) /\ parseFloat ".5" = Num (1 # 2) /\
  parseFloat "1e-2" = Num (1 # 100) /\ parseFloat "-" = NaN /\
  Str.indexOf ["a"; "b"]%string "b" = 1 /\
  Str.indexOf ["a"; "b"]%string "c" = -1.
Proof. vm_compute. repeat split. Qed.

(** [toFixed(1)] and [padStart(2, "0")]. *)
Example fixed1_examples :
  WeatherCjs.fixed1_string (Num (1234 # 1000)) = "1.2"%string /\
  WeatherCjs.fixed1_string (Num (-4 # 100)) = "-0.0"%string /\
  WeatherCjs.fixed1_string (Num (125 # 10)) = "12.5"%string /\
  WeatherCjs.fixed1_string (Num 0) = "0.0"%string /\
  Part001.padStart2 "5" = "05"%string.
Proof. vm_compute. repeat split. Qed.

(** Points two hours back (3.0 ft) and one hour ahead (4.0 ft): the
    selection returns 4.0 ft. *)
Example nearest_point_example :
  Part004.pickCurrentWave (10 * Sample.hour_ms)
    (Some {| s_timestamp := 0;
             s_waves := Some [ {| w_time := Some (8 * Sample.hour_ms);
                                  w_waveFt := Num 3 |};
                               {| w_time := Some (11 * Sample.hour_ms);
                                  w_waveFt := Num 4 |} ] |})
  = Num 4.
Proof. reflexivity. Qed.

(** ** Arithmetic of the number model *)

Section NumberFacts.

Local Open Scope Q_scope.

Lemma trunc_nonneg (x : Q) : 0 <= x -> trunc x = Qfloor x.
Proof.
  destruct x as [n d]. unfold Qle, trunc, Qfloor. simpl. intro H.
  apply Z.quot_div_nonneg; lia.
Qed.

Lemma floor_spec (x : Q) : inject_Z (Qfloor x) <= x /\ x < inject_Z (Qfloor x) + 1.
Proof.
  split; [apply Qfloor_le |].
  generalize (Qlt_floor x). rewrite inject_Z_plus. trivial.
Qed.

Lemma rem_360_bounds (a : Q) : 0 <= a -> 0 <= JsNum.rem a 360 /\ JsNum.rem a 360 < 360.
Proof.
  intro Ha. unfold JsNum.rem. rewrite Qred_correct.
  assert (Hq : 0 <= a / 360).
  { apply Qle_shift_div_l; [reflexivity | lra]. }
  rewrite (trunc_nonneg _ Hq).
  destruct (floor_spec (a / 360)) as [Hlo Hhi].
  assert (Ha' : a == 360 * (a / 360)) by (field).
  set (f := inject_Z (Qfloor (a / 360))) in *.
  set (q := a / 360) in *.
  split; lra.
Qed.

Lemma floor_between (x : Q) (lo hi : Z) :
  inject_Z lo <= x -> x < inject_Z hi -> (lo <= Qfloor x < hi)%Z.
Proof.
  intros Hlo Hhi. split.
  - apply Qfloor_resp_le in Hlo. rewrite Qfloor_Z in Hlo. exact Hlo.
  - destruct (floor_spec x) as [Hf _].
    assert (H : inject_Z (Qfloor x) < inject_Z hi) by lra.
    rewrite <- Zlt_Qlt in H. exact H.
Qed.

End NumberFacts.

(** ** The compass index *)

Section CompassFacts.

Lemma index_range (d : Q) : (0 <= d)%Q -> 0 <= Compass.index d <= 15.
Proof.
  intro Hd. unfold Compass.index, floor.
  destruct (rem_360_bounds d Hd) as [Hlo Hhi].
  set (r := JsNum.rem d 360) in *.
  assert (Hf : 0 <= Qfloor (r / (45 # 2) + (1 # 2)) < 17).
  { apply floor_between.
    - assert (0 <= r / (45 # 2))%Q
        by (apply Qle_shift_div_l; [reflexivity | lra]).
      change (inject_Z 0) with 0%Q. lra.
    - assert (r / (45 # 2) < 16)%Q
        by (apply Qlt_shift_div_r; [reflexivity | lra]).
      change (inject_Z 17) with 17%Q. lra. }
  rewrite Z.rem_mod_nonneg by lia.
  pose proof (Z.mod_pos_bound (Qfloor (r / (45 # 2) + (1 # 2))) 16). lia.
Qed.

Lemma at_index_in_dirs (i : Z) :
  0 <= i <= 15 -> exists s, In s Compass.dirs /\ Compass.at_index i = JString s.
Proof.
  intro Hi. unfold Compass.at_index.
  destruct (i <? 0) eqn:Hneg; [apply Z.ltb_lt in Hneg; lia |].
  destruct (nth_error Compass.dirs (Z.to_nat i)) as [s |] eqn:Hn.
  - exists s. split; [eapply nth_error_In; eassumption | reflexivity].
  - apply nth_error_None in Hn. simpl in Hn. lia.
Qed.

End CompassFacts.

(** ** Compass rounding *)

(** C5 (as amended).  [degToCardinal] indexes the 16-point list that starts
    at N with [floor((deg mod 360) / 22.5 + 0.5) mod 16]; it gives N at 0 and at
    348.75 and S at 180, and at the boundary 11.25 the half rounds up, to NNE. *)
Theorem degToCardinal_compass_rounding :
  (forall d : Q,
      WeatherJs.degToCardinal (Num d) =
      Compass.at_index
        (Z.rem (Qfloor (JsNum.rem d 360 / (45 # 2) + (1 # 2))) 16)) /\
  nth_error Compass.dirs 0 = Some "N" /\
  List.length Compass.dirs = 16%nat /\
  WeatherJs.degToCardinal (Num 0) = JString "N" /\
  WeatherJs.degToCardinal (Num (45 # 4)) = JString "NNE" /\
  WeatherJs.degToCardinal (Num (1395 # 4)) = JString "N" /\
  WeatherJs.degToCardinal (Num 180) = JString "S".
Proof.
  split; [intro d; reflexivity |].
  vm_compute. repeat split.
Qed.

(** C5, the claim as written fails: at 11.25 the conversion does not give N. *)
Lemma degToCardinal_boundary_not_N :
  WeatherJs.degToCardinal (Num (45 # 4)) <> JString "N".
Proof. vm_compute. discriminate. Qed.

(** C10.  For a degree value [d >= 0] the index of the compass conversion lies
    in [0, 15] and [degToCardinal d] is one of the 16 compass strings; the
    hypothesis is needed: at -90 the index is -4 and the array access gives
    undefined. *)
Theorem degToCardinal_index_in_bounds (d : Q) (Hd : (0 <= d)%Q) :
  (0 <= Compass.index d <= 15 /\
   exists s, In s Compass.dirs /\ WeatherJs.degToCardinal (Num d) = JString s) /\
  (Compass.index (-90) = -4 /\
   WeatherJs.degToCardinal (Num (-90)) = JUndefined).
Proof.
  split.
  - pose proof (index_range d Hd) as Hi. split; [exact Hi |].
    simpl. apply at_index_in_dirs. exact Hi.
  - vm_compute. split; reflexivity.
Qed.

Lemma degToCardinal_index_in_bounds_witness :
  (0 <= 225 # 1)%Q /\
  (0 <= Compass.index (225 # 1) <= 15 /\
   exists s, In s Compass.dirs /\
             WeatherJs.degToCardinal (Num (225 # 1)) = JString s) /\
  (Compass.index (-90) = -4 /\
   WeatherJs.degToCardinal (Num (-90)) = JUndefined).
Proof.
  assert (H : (0 <= 225 # 1)%Q) by (unfold Qle; simpl; lia).
  split; [exact H | exact (degToCardinal_index_in_bounds (225 # 1) H)].
Defined.
(** ** The nearest-point scan *)

Section WaveScan.

Variable now : Z.

Let dist := WaveSpec.distance now.

Let all_farther := WaveSpec.all_farther now.
Let none_closer := WaveSpec.none_closer now.

Lemma scan_step_skip (w : wave_point) (ws : list wave_point) diff best :
  dist w = None ->
  Part004.scan now (w :: ws) diff best = Part004.scan now ws diff best.
Proof.
  unfold dist, WaveSpec.distance. simpl.
  destruct (is_null (w_waveFt w)); [reflexivity |].
  destruct (w_time w); [discriminate | reflexivity].
Qed.

Lemma scan_step_take (w : wave_point) (ws : list wave_point) diff best d :
  dist w = Some d ->
  Part004.scan now (w :: ws) diff best =
  if Part004.closer d diff then Part004.scan now ws (Some d) (Some w)
  else Part004.scan now ws diff best.
Proof.
  unfold dist, WaveSpec.distance. simpl.
  destruct (is_null (w_waveFt w)); [discriminate |].
  destruct (w_time w) as [t |]; simpl; [| discriminate].
  intro H. injection H as <-. reflexivity.
Qed.

(** The loop either keeps [best], no point being closer than [diff], or ends
    on a point closer than [diff], strictly closer than the points before it
    and at least as close as the points after it. *)
Lemma scan_invariant (ws : list wave_point) :
  forall diff best,
    (Part004.scan now ws diff best = best /\
     forall w d, In w ws -> dist w = Some d -> Part004.closer d diff = false) \/
    (exists pre w post d,
        ws = pre ++ w :: post /\ dist w = Some d /\
        Part004.closer d diff = true /\
        Part004.scan now ws diff best = Some w /\
        all_farther d pre /\ none_closer d post).
Proof.
  induction ws as [| w0 ws IH]; intros diff best.
  - left. split; [reflexivity | intros w d []].
  - destruct (dist w0) as [d0 |] eqn:Hd0.
    + rewrite (scan_step_take _ _ _ _ _ Hd0).
      destruct (Part004.closer d0 diff) eqn:Hc.
      * destruct (IH (Some d0) (Some w0))
          as [[Hs Hall] | (pre & w & post & d & -> & Hd & Hcd & Hs & Hpre & Hpost)].
        -- right. exists [], w0, ws, d0. simpl.
           repeat split; try assumption.
           ++ intros w d' [].
           ++ intros w d' Hin Hw. specialize (Hall w d' Hin Hw).
              simpl in Hall. apply Z.ltb_ge in Hall. exact Hall.
        -- right. exists (w0 :: pre), w, post, d. simpl in Hcd.
           apply Z.ltb_lt in Hcd.
           repeat split; try assumption.
           ++ destruct diff as [x |]; simpl in *; [| reflexivity].
              apply Z.ltb_lt in Hc. apply Z.ltb_lt. lia.
           ++ intros w' d' [<- | Hin] Hw'.
              ** unfold dist in Hd0. rewrite Hd0 in Hw'.
                 injection Hw' as <-. exact Hcd.
              ** eapply Hpre; eassumption.
      * destruct diff as [x |]; simpl in Hc; [| discriminate].
        apply Z.ltb_ge in Hc.
        destruct (IH (Some x) best)
          as [[Hs Hall] | (pre & w & post & d & -> & Hd & Hcd & Hs & Hpre & Hpost)].
        -- left. split; [exact Hs |].
           intros w d [<- | Hin] Hw.
           ++ rewrite Hd0 in Hw. injection Hw as <-.
              simpl. apply Z.ltb_ge. exact Hc.
           ++ eapply Hall; eassumption.
        -- right. exists (w0 :: pre), w, post, d.
           repeat split; try assumption.
           intros w' d' [<- | Hin] Hw'.
           ++ unfold dist in Hd0. rewrite Hd0 in Hw'. injection Hw' as <-.
              simpl in Hcd. apply Z.ltb_lt in Hcd. lia.
           ++ eapply Hpre; eassumption.
    + rewrite (scan_step_skip _ _ _ _ Hd0).
      destruct (IH diff best)
        as [[Hs Hall] | (pre & w & post & d & -> & Hd & Hcd & Hs & Hpre & Hpost)].
      * left. split; [exact Hs |].
        intros w d [<- | Hin] Hw; [congruence | eapply Hall; eassumption].
      * right. exists (w0 :: pre), w, post, d.
        repeat split; try assumption.
        intros w' d' [<- | Hin] Hw'.
        -- unfold dist in Hd0. congruence.
        -- eapply Hpre; eassumption.
Qed.

End WaveScan.

(** [pickCurrentWave] of part_004 and part_001 returns the height of the
    point at minimum absolute time distance to now among the points with a
    height, the first such point in scan order on a tie; with no such point
    (an empty series, or every height null) it returns null. *)
Theorem pickCurrentWave_nearest_point (now : Z) (f : option stored_forecast) :
  (Forall (fun w => WaveSpec.distance now w = None) (WaveSpec.series f) /\
   Part004.pickCurrentWave now f = Null) \/
  (exists pre w post d,
      WaveSpec.series f = pre ++ w :: post /\
      WaveSpec.distance now w = Some d /\
      is_null (w_waveFt w) = false /\
      Part004.pickCurrentWave now f = w_waveFt w /\
      WaveSpec.all_farther now d pre /\
      WaveSpec.none_closer now d post).
Proof.
  destruct f as [[ts [ws |]] |]; simpl;
    try (left; split; [constructor | reflexivity]).
  destruct (scan_invariant now ws None None)
    as [[Hs Hall] | (pre & w & post & d & Hws & Hd & _ & Hs & Hpre & Hpost)].
  - left. split.
    + apply Forall_forall. intros w Hin.
      destruct (WaveSpec.distance now w) as [d |] eqn:Hd; [| reflexivity].
      specialize (Hall w d Hin Hd). discriminate.
    + unfold Part004.pickCurrentWave. simpl. rewrite Hs.
      destruct ws; reflexivity.
  - right. exists pre, w, post, d.
    assert (Hnn : is_null (w_waveFt w) = false).
    { unfold WaveSpec.distance in Hd.
      destruct (is_null (w_waveFt w)); [discriminate | reflexivity]. }
    repeat split; try assumption.
    unfold Part004.pickCurrentWave. simpl. rewrite Hs.
    destruct ws; [destruct pre; discriminate | reflexivity].
Qed.

(** C7 (code defect).  [fetchStormglass] of functions/weather.js does not
    pass over an hour without a height: when the hour nearest to now has
    none and the hour thirty minutes later has 1.0 m, it reports null, while
    [pickCurrentWave] of part_001 and part_004 on the same hours reports
    3.3 ft.  Its search also starts from 999999999 ms and the first hour:
    when every hour is farther than that it reports the first hour, twenty
    days ahead, where [pickCurrentWave] reports the nearer one. *)
Theorem fetchStormglass_keeps_hour_without_height :
  WeatherJs.fetchStormglass SampleHours.now
    (SampleHours.answer SampleHours.nearest_without_height) =
    {| waveM := Null; waveFt := Null |} /\
  (exists f,
      Part001Full.fetchStormglassFresh SampleHours.now
        (SampleHours.answer SampleHours.nearest_without_height) = Returned f /\
      Part004.pickCurrentWave SampleHours.now (Some f) = Num (33 # 10)) /\
  WeatherJs.fetchStormglass SampleHours.now
    (SampleHours.answer SampleHours.far_hours) =
    {| waveM := Num 2; waveFt := Num (33 # 5) |} /\
  (exists f,
      Part001Full.fetchStormglassFresh SampleHours.now
        (SampleHours.answer SampleHours.far_hours) = Returned f /\
      Part004.pickCurrentWave SampleHours.now (Some f) = Num (33 # 10)).
Proof.
  split; [reflexivity |].
  split; [eexists; split; [reflexivity | vm_compute; reflexivity] |].
  split; [vm_compute; reflexivity |].
  eexists; split; [reflexivity | vm_compute; reflexivity].
Qed.

(** ** Header lookup *)

Section HeaderLookup.

Import Table.

Lemma at_app_length (pre post : list string) (x : string) :
  Str.at_ (pre ++ x :: post) (Z.of_nat (List.length pre)) = Some x.
Proof.
  unfold Str.at_.
  destruct (Z.of_nat (List.length pre) <? 0) eqn:H;
    [apply Z.ltb_lt in H; lia |].
  rewrite Nat2Z.id. rewrite nth_error_app2 by lia.
  rewrite Nat.sub_diag. reflexivity.
Qed.

(** [indexOf] finds the first column named [x], and the cell of the row at
    that index is the cell of that column. *)
Lemma index_of_named (x : string) (i : nat) (cols : list column) :
  forall pre : list string,
    let idx := Str.indexOf_from x (header cols) (Z.of_nat (List.length pre)) in
    match find (named x) cols with
    | None => idx = -1
    | Some c =>
        0 <= idx < Z.of_nat (List.length (pre ++ row cols i)) /\
        Str.at_ (pre ++ row cols i) idx = Some (nth i (snd c) EmptyString)
    end.
Proof.
  induction cols as [| c0 cols IH]; intros pre; simpl.
  - reflexivity.
  - unfold named at 1. destruct (String.eqb (fst c0) x) eqn:He.
    + split; [rewrite length_app; simpl; lia | apply at_app_length].
    + specialize (IH (pre ++ [nth i (snd c0) EmptyString])).
      rewrite length_app in IH. simpl in IH.
      replace (Z.of_nat (List.length pre + 1)) with (Z.of_nat (List.length pre) + 1)
        in IH by lia.
      rewrite <- app_assoc in IH. simpl in IH. exact IH.
Qed.

Lemma get_by_name (x : string) (i : nat) (cols : list column) :
  WeatherCjs.get (row cols i) (Str.indexOf (header cols) x) = cell cols x i.
Proof.
  pose proof (index_of_named x i cols []) as H. simpl in H.
  unfold Str.indexOf, cell, WeatherCjs.get.
  destruct (find (named x) cols) as [c |].
  - destruct H as [[Hlo Hhi] Hat].
    apply Z.leb_le in Hlo. apply Z.ltb_lt in Hhi.
    rewrite Hlo, Hhi, Hat. reflexivity.
  - rewrite H. reflexivity.
Qed.

Lemma parse_cells_by_name (cols : list column) (i : nat) :
  WeatherCjs.parse_cells (header cols) (row cols i) = by_name cols i.
Proof.
  unfold WeatherCjs.parse_cells, by_name.
  rewrite !get_by_name. reflexivity.
Qed.

Lemma find_named_perm (x : string) (cols cols' : list column) :
  Permutation cols cols' -> unique x cols ->
  find (named x) cols = find (named x) cols'.
Proof.
  intros Hp Hu.
  destruct (find (named x) cols) as [c |] eqn:H1;
    destruct (find (named x) cols') as [c' |] eqn:H2; try reflexivity.
  - apply find_some in H1. apply find_some in H2.
    destruct H1 as [Hin1 Hn1]. destruct H2 as [Hin2 Hn2].
    f_equal. apply Hu; try assumption.
    apply Permutation_sym in Hp. eapply Permutation_in; eassumption.
  - apply find_some in H1. destruct H1 as [Hin1 Hn1].
    pose proof (find_none _ _ H2 c (Permutation_in _ Hp Hin1)). congruence.
  - apply find_some in H2. destruct H2 as [Hin2 Hn2].
    apply Permutation_sym in Hp.
    pose proof (find_none _ _ H1 c' (Permutation_in _ Hp Hin2)). congruence.
Qed.

Lemma by_name_perm (cols cols' : list column) (i : nat) :
  Permutation cols cols' ->
  (forall x, In x field_names -> unique x cols) ->
  by_name cols i = by_name cols' i.
Proof.
  intros Hp Hu. unfold by_name, cell.
  rewrite !(find_named_perm _ cols cols' Hp) by (apply Hu; simpl; tauto).
  reflexivity.
Qed.

Lemma nodup_header_unique (cols : list column) (x : string) :
  NoDup (header cols) -> unique x cols.
Proof.
  unfold unique, named. induction cols as [| a cols IH]; intros Hnd c c' Hc Hc' Hn Hn'.
  - destruct Hc.
  - simpl in Hnd. inversion Hnd as [| ? ? Hnotin Hnd']; subst.
    apply String.eqb_eq in Hn, Hn'.
    destruct Hc as [<- | Hc], Hc' as [<- | Hc'].
    + reflexivity.
    + exfalso. apply Hnotin. unfold header. apply in_map_iff.
      exists c'. split; [congruence | assumption].
    + exfalso. apply Hnotin. unfold header. apply in_map_iff.
      exists c. split; [congruence | assumption].
    + apply IH; try assumption; apply String.eqb_eq; assumption.
Qed.

End HeaderLookup.

(** ** The text of a well-formed table *)

Section PayloadText.

Import Str Render.

Lemma chars_app (s t : string) : chars (s ++ t)%string = chars s ++ chars t.
Proof. induction s as [| c s IH]; simpl; [reflexivity | now rewrite <- IH]. Qed.

Lemma of_chars_chars (s : string) : of_chars (chars s) = s.
Proof. apply string_of_list_ascii_of_string. Qed.

Lemma chars_of_chars (l : list ascii) : chars (of_chars l) = l.
Proof. apply list_ascii_of_string_of_list_ascii. Qed.

Lemma is_word_inv (s : string) :
  is_word s = true ->
  chars s <> [] /\ Forall (fun c => is_space c = false) (chars s).
Proof.
  unfold is_word. intro H. apply andb_prop in H. destruct H as [Ht Hf]. split.
  - destruct s; [discriminate | simpl; discriminate].
  - apply Forall_forall. intros c Hin.
    rewrite forallb_forall in Hf. specialize (Hf c Hin).
    now apply negb_true_iff in Hf.
Qed.

Lemma drop_space_hd_ok (l : list ascii) : hd_ok l -> drop_space l = l.
Proof. destruct l as [| c l]; simpl; [tauto | intros ->; reflexivity]. Qed.

Lemma hd_ok_app (l r : list ascii) : hd_ok l -> hd_ok (l ++ r).
Proof. destruct l; simpl; tauto. Qed.

Lemma hd_ok_nonspace (l : list ascii) :
  l <> [] -> Forall (fun c => is_space c = false) l -> hd_ok l.
Proof.
  destruct l as [| c l]; [congruence |].
  intros _ H. inversion H. assumption.
Qed.

Lemma hd_ok_rev_nonspace (l : list ascii) :
  l <> [] -> Forall (fun c => is_space c = false) l -> hd_ok (rev l).
Proof.
  intros Hne H. apply hd_ok_nonspace.
  - intro E. apply Hne. rewrite <- (rev_involutive l), E. reflexivity.
  - apply Forall_rev. exact H.
Qed.

(** The characters of [join (w :: ws)]. *)
Lemma chars_join (w : string) (ws : list string) :
  chars (join (w :: ws)) =
  chars w ++ flat_map (fun x => " "%char :: chars x) ws.
Proof.
  revert w. induction ws as [| x ws IH]; intro w.
  - simpl. now rewrite app_nil_r.
  - change (join (w :: x :: ws)) with (w ++ " " ++ join (x :: ws))%string.
    rewrite chars_app.
    change (chars (" " ++ join (x :: ws))%string)
      with (" "%char :: chars (join (x :: ws))).
    rewrite IH. reflexivity.
Qed.

Lemma join_hd_ok (w : string) (ws : list string) :
  words (w :: ws) -> hd_ok (chars (join (w :: ws))).
Proof.
  intro H. inversion H as [| ? ? Hw _]; subst.
  rewrite chars_join. apply hd_ok_app.
  destruct (is_word_inv _ Hw). now apply hd_ok_nonspace.
Qed.

Lemma join_rev_hd_ok (w : string) (ws : list string) :
  words (w :: ws) -> hd_ok (rev (chars (join (w :: ws)))).
Proof.
  revert w. induction ws as [| x ws IH]; intros w H.
  - inversion H as [| ? ? Hw _]; subst. simpl.
    destruct (is_word_inv _ Hw). now apply hd_ok_rev_nonspace.
  - inversion H as [| ? ? Hw Hws]; subst.
    change (join (w :: x :: ws)) with (w ++ " " ++ join (x :: ws))%string.
    rewrite chars_app.
    change (chars (" " ++ join (x :: ws))%string)
      with (" "%char :: chars (join (x :: ws))).
    rewrite rev_app_distr. simpl rev.
    rewrite <- app_assoc. apply hd_ok_app. apply IH. exact Hws.
Qed.

(** [trim] leaves a joined line as it is. *)
Lemma trim_join (w : string) (ws : list string) :
  words (w :: ws) -> trim (join (w :: ws)) = join (w :: ws).
Proof.
  intro H. unfold trim.
  rewrite (drop_space_hd_ok _ (join_hd_ok _ _ H)).
  rewrite (drop_space_hd_ok _ (join_rev_hd_ok _ _ H)).
  rewrite rev_involutive. apply of_chars_chars.
Qed.

(** [split(/\s+/)] gives back the fields of a joined line. *)
Lemma split_ws_go_word (l rest cur : list ascii) (b : bool) :
  l <> [] -> Forall (fun c => is_space c = false) l ->
  split_ws_go (l ++ rest) cur b = split_ws_go rest (rev l ++ cur) false.
Proof.
  revert cur b. induction l as [| c l IH]; intros cur b Hne H; [congruence |].
  inversion H as [| ? ? Hc Hl]; subst. simpl. rewrite Hc.
  destruct l as [| c' l'].
  - reflexivity.
  - rewrite IH by (assumption || discriminate).
    simpl. now rewrite <- !app_assoc.
Qed.

Lemma split_ws_go_join (ws : list string) :
  words ws ->
  forall (w : list ascii) (b : bool),
    w <> [] -> Forall (fun c => is_space c = false) w ->
    split_ws_go (w ++ flat_map (fun x => " "%char :: chars x) ws) [] b =
    of_chars w :: ws.
Proof.
  induction ws as [| x ws IH]; intros Hws w b Hne Hw.
  - simpl. rewrite app_nil_r.
    rewrite <- (app_nil_r w) at 1. rewrite split_ws_go_word by assumption.
    simpl. rewrite app_nil_r, rev_involutive. reflexivity.
  - inversion Hws as [| ? ? Hx Hws']; subst.
    destruct (is_word_inv _ Hx) as [Hxne Hxs].
    simpl flat_map. rewrite split_ws_go_word by assumption.
    simpl. rewrite app_nil_r, rev_involutive. f_equal.
    rewrite (IH Hws' (chars x) true Hxne Hxs).
    now rewrite of_chars_chars.
Qed.

Lemma split_ws_join (w : string) (ws : list string) :
  words (w :: ws) -> split_ws (join (w :: ws)) = w :: ws.
Proof.
  intro H. inversion H as [| ? ? Hw Hws]; subst.
  destruct (is_word_inv _ Hw) as [Hne Hs].
  unfold split_ws. rewrite chars_join.
  rewrite (split_ws_go_join ws Hws (chars w) false Hne Hs).
  now rewrite of_chars_chars.
Qed.

End PayloadText.

Section PayloadLines.

Import Str Render.

Lemma nonspace_not_nl (c : ascii) :
  is_space c = false -> Ascii.eqb c "010"%char = false.
Proof.
  intro H. destruct (Ascii.eqb_spec c "010"%char) as [-> |]; [discriminate | reflexivity].
Qed.

Lemma nonspace_not_cr (c : ascii) :
  is_space c = false -> Ascii.eqb c "013"%char = false.
Proof.
  intro H. destruct (Ascii.eqb_spec c "013"%char) as [-> |]; [discriminate | reflexivity].
Qed.

Lemma hd_ok_last_not_cr (l : list ascii) : hd_ok (rev l) -> last_not_cr l.
Proof.
  unfold last_not_cr. destruct (rev l); simpl; [tauto | apply nonspace_not_cr].
Qed.

Lemma join_no_nl (w : string) (ws : list string) :
  words (w :: ws) -> no_nl (chars (join (w :: ws))).
Proof.
  intro H. rewrite chars_join. unfold no_nl.
  inversion H as [| ? ? Hw Hws]; subst.
  apply Forall_app. split.
  - destruct (is_word_inv _ Hw) as [_ Hs].
    eapply Forall_impl; [| exact Hs]. apply nonspace_not_nl.
  - apply Forall_flat_map. eapply Forall_impl; [| exact Hws].
    intros x Hx. constructor; [reflexivity |].
    destruct (is_word_inv _ Hx) as [_ Hs].
    eapply Forall_impl; [| exact Hs]. apply nonspace_not_nl.
Qed.

Lemma split_lines_go_plain (l rest cur : list ascii) :
  no_nl l -> split_lines_go (l ++ rest) cur = split_lines_go rest (rev l ++ cur).
Proof.
  revert cur. induction l as [| c l IH]; intros cur H; [reflexivity |].
  inversion H as [| ? ? Hc Hl]; subst. simpl. rewrite Hc.
  rewrite IH by assumption. now rewrite <- app_assoc.
Qed.

Lemma split_lines_go_line (l rest : list ascii) :
  no_nl l -> last_not_cr l ->
  split_lines_go (l ++ "010"%char :: rest) [] =
  of_chars l :: split_lines_go rest [].
Proof.
  intros Hnl Hcr. rewrite split_lines_go_plain by assumption.
  rewrite app_nil_r. simpl. unfold last_not_cr in Hcr.
  destruct (rev l) as [| r cur'] eqn:Hr.
  - assert (l = []) by (rewrite <- (rev_involutive l), Hr; reflexivity).
    subst. reflexivity.
  - rewrite Hcr. rewrite <- Hr, rev_involutive. reflexivity.
Qed.

Lemma chars_unlines (l : string) (ls : list string) :
  chars (unlines (l :: ls)) = chars l ++ "010"%char :: chars (unlines ls).
Proof.
  change (unlines (l :: ls)) with (l ++ Sample.nl ++ unlines ls)%string.
  rewrite chars_app. reflexivity.
Qed.

Lemma split_lines_unlines (ls : list string) :
  Forall plain_line ls -> split_lines (unlines ls) = ls ++ [EmptyString].
Proof.
  unfold split_lines. induction ls as [| l ls IH]; intro H; [reflexivity |].
  inversion H as [| ? ? [Hnl Hcr] Hls]; subst.
  rewrite chars_unlines, split_lines_go_line by assumption.
  rewrite of_chars_chars, IH by assumption. reflexivity.
Qed.

Lemma join_plain (w : string) (ws : list string) :
  words (w :: ws) -> plain_line (join (w :: ws)).
Proof.
  intro H. split; [apply join_no_nl; exact H |].
  apply hd_ok_last_not_cr. apply join_rev_hd_ok. exact H.
Qed.

Lemma last_not_cr_cons (c : ascii) (l : list ascii) :
  hd_ok (rev l) -> last_not_cr (c :: l).
Proof.
  intro H. unfold last_not_cr. simpl.
  destruct (rev l) as [| r l']; [destruct H |].
  simpl. apply nonspace_not_cr. exact H.
Qed.

Lemma hash_join_plain (w : string) (ws : list string) :
  words (w :: ws) -> plain_line ("#" ++ join (w :: ws))%string.
Proof.
  intro H. destruct (join_plain w ws H) as [Hnl Hcr].
  pose proof (join_rev_hd_ok w ws H) as Hh.
  change (chars ("#" ++ join (w :: ws))%string)
    with ("#"%char :: chars (join (w :: ws))).
  split.
  - constructor; [reflexivity | exact Hnl].
  - apply last_not_cr_cons. exact Hh.
Qed.

Lemma trim_cons (c : ascii) (l : list ascii) :
  is_space c = false -> hd_ok (rev l) ->
  rev (drop_space (rev (drop_space (c :: l)))) = c :: l.
Proof.
  intros Hc Hl. simpl. rewrite Hc. simpl.
  rewrite drop_space_hd_ok by (apply hd_ok_app; exact Hl).
  rewrite rev_app_distr, rev_involutive. reflexivity.
Qed.

Lemma trim_hash_join (w : string) (ws : list string) :
  words (w :: ws) ->
  trim ("#" ++ join (w :: ws))%string = ("#" ++ join (w :: ws))%string.
Proof.
  intro H. unfold trim.
  change (chars ("#" ++ join (w :: ws))%string)
    with ("#"%char :: chars (join (w :: ws))).
  rewrite trim_cons; [| reflexivity | apply join_rev_hd_ok; exact H].
  change ("#"%char :: chars (join (w :: ws)))
    with (chars ("#" ++ join (w :: ws))%string).
  apply of_chars_chars.
Qed.

Lemma truthy_join (w : string) (ws : list string) :
  words (w :: ws) -> truthy (join (w :: ws)) = true.
Proof.
  intro H. pose proof (join_hd_ok w ws H) as Hh.
  destruct (join (w :: ws)); [destruct Hh | reflexivity].
Qed.

Lemma startsWith_cons (c : ascii) (s : string) :
  startsWith "#" (String c s) = if ascii_dec "#"%char c then true else false.
Proof.
  unfold startsWith. cbn -[ascii_dec].
  destruct (ascii_dec "#"%char c); [destruct s |]; reflexivity.
Qed.

Lemma startsWith_join (w : string) (ws : list string) :
  words (w :: ws) ->
  startsWith "#" (join (w :: ws)) = startsWith "#" w.
Proof.
  intro H. inversion H as [| ? ? Hw _]; subst.
  destruct (is_word_inv _ Hw) as [Hne _].
  destruct ws as [| x ws]; [reflexivity |].
  change (join (w :: x :: ws)) with (w ++ " " ++ join (x :: ws))%string.
  set (rest := (" " ++ join (x :: ws))%string).
  destruct w as [| c w]; [now elim Hne |].
  change (String c w ++ rest)%string with (String c (w ++ rest)).
  now rewrite !startsWith_cons.
Qed.

Lemma prefix_app (p t : string) : String.prefix p (p ++ t) = true.
Proof.
  induction p as [| c p IH]; [destruct t; reflexivity |].
  cbn -[ascii_dec]. destruct (ascii_dec c c); [exact IH | congruence].
Qed.

Lemma prefix_refl (p : string) : String.prefix p p = true.
Proof.
  induction p as [| c p IH]; [reflexivity |].
  cbn -[ascii_dec]. destruct (ascii_dec c c); [exact IH | congruence].
Qed.

Lemma includes_app_r (p s t : string) :
  includes p t = true -> includes p (s ++ t) = true.
Proof.
  intro H. induction s as [| c s IH]; simpl; [exact H |].
  rewrite IH. apply orb_true_r.
Qed.

Lemma includes_unfold (p s : string) :
  includes p s =
  (String.prefix p s ||
   match s with
   | EmptyString => false
   | String _ s' => includes p s'
   end)%bool.
Proof. destruct s; reflexivity. Qed.

Lemma includes_here (p t : string) : includes p (p ++ t) = true.
Proof.
  rewrite includes_unfold, prefix_app. reflexivity.
Qed.

Lemma includes_join (x : string) (ws : list string) :
  In x ws -> includes x (join ws) = true.
Proof.
  induction ws as [| w ws IH]; intro H; [destruct H |].
  destruct ws as [| y ws].
  - destruct H as [-> | []]. simpl.
    rewrite includes_unfold, prefix_refl. reflexivity.
  - change (join (w :: y :: ws)) with (w ++ " " ++ join (y :: ws))%string.
    destruct H as [-> | H].
    + apply includes_here.
    + apply includes_app_r. apply (includes_app_r x " "). apply IH. exact H.
Qed.

End PayloadLines.

Section PayloadParse.

Import Str Render.

Lemma well_formed_inv (n : nat) (cols : list Table.column) :
  well_formed n cols = true ->
  cols <> [] /\
  (forall c, In c cols ->
             is_word (fst c) = true /\ List.length (snd c) = n /\
             forall x, In x (snd c) ->
                       is_word x = true /\ startsWith "#" x = false) /\
  In "WDIR"%string (Table.header cols).
Proof.
  unfold well_formed. intro H.
  apply andb_prop in H. destruct H as [H Hwdir].
  apply andb_prop in H. destruct H as [Hne Hall].
  split; [destruct cols; [discriminate | discriminate] |]. split.
  - intros c Hin. rewrite forallb_forall in Hall. specialize (Hall c Hin).
    apply andb_prop in Hall. destruct Hall as [Hall Hcells].
    apply andb_prop in Hall. destruct Hall as [Hname Hlen].
    split; [exact Hname |]. split; [apply Nat.eqb_eq; exact Hlen |].
    intros x Hx. rewrite forallb_forall in Hcells. specialize (Hcells x Hx).
    apply andb_prop in Hcells. destruct Hcells as [Hw Hh].
    split; [exact Hw | now apply negb_true_iff in Hh].
  - apply existsb_exists in Hwdir. destruct Hwdir as (x & Hin & Hx).
    apply String.eqb_eq in Hx. now subst.
Qed.

Lemma filter_true {A : Type} (p : A -> bool) (l : list A) :
  Forall (fun x => p x = true) l -> filter p l = l.
Proof.
  induction 1 as [| x l Hx _ IH]; simpl; [reflexivity |].
  now rewrite Hx, IH.
Qed.

Lemma find_head {A : Type} (p : A -> bool) (x : A) (l : list A) :
  p x = true -> find p (x :: l) = Some x.
Proof. intro H. simpl. now rewrite H. Qed.

Lemma filter_head_false {A : Type} (p : A -> bool) (x : A) (l : list A) :
  p x = true -> filter (fun y => negb (p y)) (x :: l) = filter (fun y => negb (p y)) l.
Proof. intro H. simpl. now rewrite H. Qed.

(** [fetchBuoy] on the text of a well-formed table sees the header and the
    rows of the table. *)
Lemma fetchBuoy_text_payload (n : nat) (cols : list Table.column) :
  well_formed n cols = true ->
  WeatherCjs.fetchBuoy_text (payload_text n cols) =
  Returned (WeatherCjs.observe (Table.header cols) (Table.rows n cols)).
Proof.
  intro Hwf. destruct (well_formed_inv n cols Hwf) as (Hne & Hcols & Hwdir).
  destruct cols as [| c0 cols0]; [congruence |].
  assert (Hhw : words (Table.header (c0 :: cols0))).
  { apply Forall_forall. intros x Hx. apply in_map_iff in Hx.
    destruct Hx as (c & <- & Hc). destruct (Hcols c Hc) as [Hn _]. exact Hn. }
  assert (Hcell : forall i c, (i < n)%nat -> In c (c0 :: cols0) ->
                              is_word (nth i (snd c) EmptyString) = true /\
                              startsWith "#" (nth i (snd c) EmptyString) = false).
  { intros i c Hi Hc. destruct (Hcols c Hc) as (_ & Hlen & Hx).
    apply Hx. apply nth_In. lia. }
  assert (Hrw : forall i, In i (seq 0 n) -> words (Table.row (c0 :: cols0) i)).
  { intros i Hi. apply in_seq in Hi. apply Forall_forall. intros x Hx.
    apply in_map_iff in Hx. destruct Hx as (c & <- & Hc).
    apply (Hcell i c); [lia | exact Hc]. }
  assert (Hrh : forall i, In i (seq 0 n) ->
                          startsWith "#" (row_line (c0 :: cols0) i) = false).
  { intros i Hi. unfold row_line. simpl Table.row.
    rewrite startsWith_join by (apply (Hrw i Hi)).
    apply in_seq in Hi. apply (Hcell i c0); [lia | now left]. }
  unfold WeatherCjs.fetchBuoy_text, payload_text.
  set (hl := header_line (c0 :: cols0)).
  set (rls := map (row_line (c0 :: cols0)) (seq 0 n)).
  assert (Hhl_trim : trim hl = hl) by (apply trim_hash_join; exact Hhw).
  assert (Hhl_hash : startsWith "#" hl = true).
  { unfold hl, header_line.
    change ("#" ++ join (Table.header (c0 :: cols0)))%string
      with (String "#" (join (Table.header (c0 :: cols0)))).
    rewrite startsWith_cons.
    destruct (ascii_dec "#"%char "#"%char); congruence. }
  assert (Hrls_trim : Forall (fun l => truthy (trim l) = true) rls).
  { apply Forall_forall. intros l Hl. apply in_map_iff in Hl.
    destruct Hl as (i & <- & Hi). unfold row_line. simpl Table.row.
    rewrite trim_join by (apply (Hrw i Hi)).
    apply truthy_join. apply (Hrw i Hi). }
  rewrite split_lines_unlines.
  2:{ constructor.
      - apply hash_join_plain. exact Hhw.
      - apply Forall_forall. intros l Hl. apply in_map_iff in Hl.
        destruct Hl as (i & <- & Hi). apply join_plain. apply (Hrw i Hi). }
  assert (Hinc : includes "WDIR" hl = true).
  { unfold hl, header_line. apply (includes_app_r "WDIR" "#").
    apply includes_join. exact Hwdir. }
  rewrite filter_app.
  replace (filter (fun l => truthy (trim l)) [EmptyString]) with (@nil string)
    by reflexivity.
  rewrite app_nil_r.
  rewrite (filter_true _ (hl :: rls))
    by (constructor; [rewrite Hhl_trim; reflexivity | exact Hrls_trim]).
  unfold find_. rewrite (find_head _ hl rls) by (now rewrite Hhl_hash, Hinc).
  rewrite (filter_head_false _ hl rls) by (now rewrite Hhl_hash).
  rewrite filter_true.
  2:{ apply Forall_forall. intros l Hl. apply in_map_iff in Hl.
      destruct Hl as (i & <- & Hi). now rewrite (Hrh i Hi). }
  f_equal. f_equal.
  - unfold WeatherCjs.header_fields, hl, header_line.
    change (remove_first_hash ("#" ++ join (Table.header (c0 :: cols0))))
      with (join (Table.header (c0 :: cols0))).
    simpl Table.header. rewrite trim_join by exact Hhw.
    apply split_ws_join. exact Hhw.
  - unfold rls, Table.rows. rewrite map_map. apply map_ext_in.
    intros i Hi. unfold row_line. simpl Table.row.
    rewrite trim_join by (apply (Hrw i Hi)).
    apply split_ws_join. apply (Hrw i Hi).
Qed.

End PayloadParse.

Section ColumnOrder.

Import Table Render.

Lemma well_formed_perm (n : nat) (cols cols' : list column) :
  Permutation cols cols' ->
  well_formed n cols = true -> well_formed n cols' = true.
Proof.
  intros Hp H. unfold well_formed in *.
  apply andb_prop in H. destruct H as [H Hwdir].
  apply andb_prop in H. destruct H as [Hne Hall].
  apply andb_true_intro. split; [apply andb_true_intro; split |].
  - destruct cols' as [| c' cols'']; [| reflexivity].
    apply Permutation_sym, Permutation_nil in Hp. subst. discriminate.
  - apply forallb_forall. intros c Hc. rewrite forallb_forall in Hall.
    apply Hall. apply Permutation_sym in Hp. eapply Permutation_in; eassumption.
  - apply existsb_exists. apply existsb_exists in Hwdir.
    destruct Hwdir as (x & Hin & Hx). exists x. split; [| exact Hx].
    eapply Permutation_in; [| exact Hin]. apply Permutation_map. exact Hp.
Qed.

Lemma observe_by_name (n : nat) (cols : list column) :
  WeatherCjs.observe (header cols) (rows n cols) =
  WeatherCjs.observation (map (by_name cols) (seq 0 n)).
Proof.
  unfold WeatherCjs.observe, rows. rewrite map_map. f_equal.
  apply map_ext. intro i. apply parse_cells_by_name.
Qed.

End ColumnOrder.

(** The parser of functions/weather/weather.js looks every field up by
    the name in the header line.  On the text of a table whose header names
    WDIR, WSPD, GST, ATMP and WTMP (each on one column at most, possibly
    among other columns) every row is read field by field from the column
    that bears the name of the field, and the observation is the same for
    every order of the columns. *)
Theorem fetchBuoy_column_order (cols cols' : list Table.column) (n : nat)
    (Hperm : Permutation cols cols')
    (Hwf : Render.well_formed n cols = true)
    (Huniq : forall x, In x Table.field_names -> Table.unique x cols) :
  WeatherCjs.fetchBuoy (Returned (Render.payload_text n cols)) =
    Returned (WeatherCjs.observation (map (Table.by_name cols) (seq 0 n))) /\
  WeatherCjs.fetchBuoy (Returned (Render.payload_text n cols')) =
    WeatherCjs.fetchBuoy (Returned (Render.payload_text n cols)).
Proof.
  pose proof (well_formed_perm n cols cols' Hperm Hwf) as Hwf'.
  simpl. rewrite (fetchBuoy_text_payload n cols Hwf).
  rewrite (fetchBuoy_text_payload n cols' Hwf').
  rewrite !observe_by_name. split; [reflexivity |].
  f_equal. f_equal. apply map_ext. intro i.
  symmetry. apply by_name_perm; assumption.
Qed.

Lemma fetchBuoy_column_order_witness :
  Permutation SampleTable.cols SampleTable.cols_reversed /\
  Render.well_formed 2 SampleTable.cols = true /\
  WeatherCjs.fetchBuoy (Returned (Render.payload_text 2 SampleTable.cols_reversed)) =
  WeatherCjs.fetchBuoy (Returned (Render.payload_text 2 SampleTable.cols)).
Proof.
  assert (Hp : Permutation SampleTable.cols SampleTable.cols_reversed)
    by apply Permutation_rev.
  assert (Hwf : Render.well_formed 2 SampleTable.cols = true) by reflexivity.
  split; [exact Hp |]. split; [exact Hwf |].
  apply (fetchBuoy_column_order SampleTable.cols SampleTable.cols_reversed 2 Hp Hwf).
  intros x _. apply nodup_header_unique.
  repeat constructor; simpl; intuition discriminate.
Defined.

(** C4 (code defect).  js/buoys.js reads the cells 5, 6, 7, 13 and 14 of a
    row and never looks at the header: on a report whose two temperature
    columns are exchanged, in the header and in the row, it reports the water
    temperature as the air temperature and the reverse, and so a different
    observation for the two orders of the columns.  The parser of
    functions/weather/weather.js, which looks the columns up by name, reports
    the same observation for both orders, air 71.8 and water 73.9. *)
Theorem fetchBuoy_fixed_positions_ignore_header :
  Buoys.fetchBuoy
    (Returned {| ok := true; payload := SampleSwapped.swapped_text |}) =
    Returned {| airF := Num (739 # 10); waterF := Num (359 # 5);
                windKts := Num (89 # 10); gustKts := Num (121 # 10);
                windDirCardinal := JString "SE" |} /\
  Buoys.fetchBuoy (Returned {| ok := true; payload := SampleSwapped.text |}) =
    Returned {| airF := Num (359 # 5); waterF := Num (739 # 10);
                windKts := Num (89 # 10); gustKts := Num (121 # 10);
                windDirCardinal := JString "SE" |} /\
  WeatherCjs.fetchBuoy (Returned SampleSwapped.swapped_text) =
    Returned {| airF := Num (359 # 5); waterF := Num (739 # 10);
                windKts := Num (89 # 10); gustKts := Num (121 # 10);
                windDirCardinal := JString "SE" |} /\
  WeatherCjs.fetchBuoy (Returned SampleSwapped.text) =
    WeatherCjs.fetchBuoy (Returned SampleSwapped.swapped_text).
Proof. vm_compute. repeat split. Qed.

(** ** The handlers *)

Section Handlers.

(** The handler of functions/weather.js answers 500 exactly when the blob
    store rejects the read, or the write after a refresh. *)
Lemma handler_status (w : WeatherJs.world) :
  statusCode (WeatherJs.handler w) =
  match fst (WeatherJs.getWavesCached w) with
  | Returned _ => 200
  | Threw _ => 500
  end.
Proof.
  unfold WeatherJs.handler.
  destruct (fst (WeatherJs.getWavesCached w)); reflexivity.
Qed.

Lemma handler_store_read_rejected (w : WeatherJs.world) (e : string) :
  WeatherJs.blob_get w = Threw e -> statusCode (WeatherJs.handler w) = 500.
Proof.
  intro H. rewrite handler_status. unfold WeatherJs.getWavesCached.
  rewrite H. reflexivity.
Qed.

(** The sibling handler of part_001 answers 200 on both paths. *)
Lemma part001_handler_always_200 (now : Z) (s : Part001Handler.sources) :
  statusCode (Part001Handler.handler now s) = 200 /\
  headers (Part001Handler.handler now s) = Part001Handler.ok_headers.
Proof.
  unfold Part001Handler.handler.
  destruct (Part001Handler.sg s), (Part001Handler.tides s),
    (Part001Handler.sun s); simpl; split; reflexivity.
Qed.

End Handlers.

(** C1 (code defect).  In functions/weather.js the read of the wave cache is
    a top-level await outside the safe wrappers: when the blob store rejects
    it, the handler answers with status 500, not 200. *)
Theorem handler_store_down_status_500 :
  statusCode (WeatherJs.handler Sample.store_down) = 500 /\
  headers (WeatherJs.handler Sample.store_down) = [] /\
  get_field "gulf" (body (WeatherJs.handler Sample.store_down)) = Some JNull.
Proof. vm_compute. repeat split. Qed.

(** C2 (as amended).  When the tide source throws and the wave cache and the
    two buoys answer, the report of functions/weather.js has status 200,
    carries the buoy, wave and sun values unchanged and null tides.  Its
    members are gulf, bay, waves, sun and tides and no other: it has no
    member [degraded] and no member [error], so the null tides are the only
    sign of the failure. *)
Theorem handler_isolates_tide_failure (w : WeatherJs.world)
    (waves : wave_reading) (g b : StationObservation) (e : string)
    (Hwaves : fst (WeatherJs.getWavesCached w) = Returned waves)
    (Hgulf : WeatherJs.fetchBuoy (WeatherJs.buoy w "BZST2") = Returned g)
    (Hbay : WeatherJs.fetchBuoy (WeatherJs.buoy w "PCGT2") = Returned b)
    (Htide : WeatherJs.fetchTides (WeatherJs.tide_api w) = Threw e) :
  let r := WeatherJs.handler w in
  statusCode r = 200 /\
  get_field "gulf" (body r) = Some (obs_json g) /\
  get_field "bay" (body r) = Some (obs_json b) /\
  get_field "waves" (body r) = Some (wave_json waves) /\
  get_field "sun" (body r) = Some (WeatherJs.solar w) /\
  get_field "tides" (body r) = Some (JObject [("low", JNull); ("high", JNull)]) /\
  get_field "degraded" (body r) = None /\
  get_field "error" (body r) = None /\
  body r =
    JObject [("gulf", obs_json g); ("bay", obs_json b);
             ("waves", wave_json waves); ("sun", WeatherJs.solar w);
             ("tides", JObject [("low", JNull); ("high", JNull)])].
Proof.
  unfold WeatherJs.handler, WeatherJs.safeFetchBuoy, WeatherJs.safeFetchTides.
  rewrite Hwaves, Hgulf, Hbay, Htide. simpl. repeat split; reflexivity.
Qed.

Lemma handler_isolates_tide_failure_witness :
  let r := WeatherJs.handler Sample.tides_down in
  statusCode r = 200 /\
  get_field "gulf" (body r) =
    Some (obs_json
            {| airF := Num (359 # 5); waterF := Num (741 # 10);
               windKts := Num (99 # 10); gustKts := Num 13;
               windDirCardinal := JString "SSE" |}) /\
  get_field "bay" (body r) =
    Some (obs_json
            {| airF := Num (359 # 5); waterF := Num (741 # 10);
               windKts := Num (99 # 10); gustKts := Num 13;
               windDirCardinal := JString "SSE" |}) /\
  get_field "waves" (body r) = Some (wave_json Sample.cached_waves) /\
  get_field "sun" (body r) = Some Sample.sun_times /\
  get_field "tides" (body r) = Some (JObject [("low", JNull); ("high", JNull)]) /\
  get_field "degraded" (body r) = None /\
  get_field "error" (body r) = None /\
  body r =
    JObject
      [("gulf",
        obs_json {| airF := Num (359 # 5); waterF := Num (741 # 10);
                    windKts := Num (99 # 10); gustKts := Num 13;
                    windDirCardinal := JString "SSE" |});
       ("bay",
        obs_json {| airF := Num (359 # 5); waterF := Num (741 # 10);
                    windKts := Num (99 # 10); gustKts := Num 13;
                    windDirCardinal := JString "SSE" |});
       ("waves", wave_json Sample.cached_waves); ("sun", Sample.sun_times);
       ("tides", JObject [("low", JNull); ("high", JNull)])].
Proof.
  apply (handler_isolates_tide_failure Sample.tides_down Sample.cached_waves
           _ _ "FetchError: request failed");
    vm_compute; reflexivity.
Defined.

(** C2, the claim as written fails: with the tide source down and every other
    source up, the report has no [degraded] flag equal to true. *)
Lemma handler_has_no_degraded_flag :
  WeatherJs.fetchTides (WeatherJs.tide_api Sample.tides_down)
    = Threw "FetchError: request failed" /\
  fst (WeatherJs.getWavesCached Sample.tides_down)
    = Returned Sample.cached_waves /\
  (exists g, WeatherJs.fetchBuoy (WeatherJs.buoy Sample.tides_down "BZST2")
             = Returned g) /\
  (exists b, WeatherJs.fetchBuoy (WeatherJs.buoy Sample.tides_down "PCGT2")
             = Returned b) /\
  get_field "degraded" (body (WeatherJs.handler Sample.tides_down))
    <> Some (JBool true).
Proof.
  split; [reflexivity |]. split; [reflexivity |].
  split; [eexists; vm_compute; reflexivity |].
  split; [eexists; vm_compute; reflexivity |].
  vm_compute. discriminate.
Qed.

(** ** The wave cache *)

Section WaveCache.

Lemma fetchStormglass_failure (now : Z)
    (api : outcome (response (outcome forecast))) :
  CacheSpec.fetch_fails api = true ->
  WeatherJs.fetchStormglass now api = WeatherJs.no_wave.
Proof.
  unfold CacheSpec.fetch_fails, WeatherJs.fetchStormglass.
  destruct api as [[o p] | e]; simpl; [| reflexivity].
  destruct o; simpl; [| reflexivity].
  destruct p; simpl; [discriminate | reflexivity].
Qed.

End WaveCache.

(** C8 (as amended).  When the cache slot is stale (or empty), the forecast
    request fails and the blob store accepts the write, [getWavesCached]
    returns the null reading, whatever the slot held, and writes that null
    reading into the slot under a new time stamp. *)
Theorem getWavesCached_failed_refresh (w : WeatherJs.world)
    (cached : option cache_entry)
    (Hget : WeatherJs.blob_get w = Returned cached)
    (Hstale : CacheSpec.is_stale w cached = true)
    (Hfail : CacheSpec.fetch_fails (WeatherJs.stormglass w) = true)
    (Hset : WeatherJs.blob_set w = Returned tt) :
  WeatherJs.getWavesCached w =
  (Returned {| waveM := Null; waveFt := Null |},
   Some (Some {| timestamp := WeatherJs.now_write w;
                 waves := {| waveM := Null; waveFt := Null |} |})).
Proof.
  unfold WeatherJs.getWavesCached. rewrite Hget, Hset.
  rewrite (fetchStormglass_failure _ _ Hfail).
  destruct cached as [c |]; simpl in *; [| reflexivity].
  destruct (WeatherJs.now_check w - timestamp c <? WeatherJs.four_hours);
    [discriminate | reflexivity].
Qed.

Lemma getWavesCached_failed_refresh_witness :
  WeatherJs.getWavesCached Sample.stale_and_down =
  (Returned {| waveM := Null; waveFt := Null |},
   Some (Some {| timestamp := 104 * Sample.hour_ms + 350;
                 waves := {| waveM := Null; waveFt := Null |} |})).
Proof.
  apply (getWavesCached_failed_refresh Sample.stale_and_down
           (Some {| timestamp := 99 * Sample.hour_ms;
                    waves := Sample.cached_waves |}));
    reflexivity.
Defined.

(** C8, the claim as written fails: the slot holds a reading, it is five
    hours old and the request is rejected; the cached reading is not served,
    and the slot is overwritten with the null reading. *)
Lemma getWavesCached_drops_cached_series :
  WeatherJs.blob_get Sample.stale_and_down =
    Returned (Some {| timestamp := 99 * Sample.hour_ms;
                      waves := Sample.cached_waves |}) /\
  CacheSpec.is_stale Sample.stale_and_down
    (Some {| timestamp := 99 * Sample.hour_ms;
             waves := Sample.cached_waves |}) = true /\
  CacheSpec.fetch_fails (WeatherJs.stormglass Sample.stale_and_down) = true /\
  fst (WeatherJs.getWavesCached Sample.stale_and_down)
    <> Returned Sample.cached_waves /\
  snd (WeatherJs.getWavesCached Sample.stale_and_down) =
    Some (Some {| timestamp := 104 * Sample.hour_ms + 350;
                  waves := {| waveM := Null; waveFt := Null |} |}).
Proof.
  vm_compute. repeat split; discriminate.
Qed.

(** ** Missing wind readings *)

Section MissingWind.

(** In part_003 a wind speed or gust cell that holds the sentinel is
    reported as the number 0. *)
Lemma row_observation_missing_wind (header col : list string) :
  Str.at_ col (Str.indexOf header "WSPD") = Some "MM" ->
  Str.at_ col (Str.indexOf header "GST") = Some "MM" ->
  windKts (Part003.row_observation header col) = Num 0 /\
  gustKts (Part003.row_observation header col) = Num 0.
Proof.
  intros Hw Hg. unfold Part003.row_observation. simpl.
  rewrite Hw, Hg. split; reflexivity.
Qed.

End MissingWind.

(** C9 (code defect).  On a report whose wind speed and gust carry the
    sentinel, [parseBuoy] of part_003 reports both as 0, while the parser of
    functions/weather.js reports both as null on the same text. *)
Theorem parseBuoy_missing_wind_is_zero :
  option_map windKts (Part003.parseBuoy (Returned Sample.no_wind_text))
    = Some (Num 0) /\
  option_map gustKts (Part003.parseBuoy (Returned Sample.no_wind_text))
    = Some (Num 0) /\
  WeatherJs.fetchBuoy (Returned {| ok := true; payload := Sample.no_wind_text |})
    = Returned {| airF := Num (359 # 5); waterF := Num (741 # 10);
                  windKts := Null; gustKts := Null;
                  windDirCardinal := JString "--" |}.
Proof. vm_compute. repeat split. Qed.

(** ** Tide predictions *)

Section Tides.

(** [find] returns the first element that satisfies the test. *)
Lemma find_first {A : Type} (p : A -> bool) (l : list A) :
  match find p l with
  | Some x => exists pre post,
      l = pre ++ x :: post /\ p x = true /\ Forall (fun y => p y = false) pre
  | None => Forall (fun y => p y = false) l
  end.
Proof.
  induction l as [| a l IH]; simpl; [constructor |].
  destruct (p a) eqn:Ha.
  - exists [], l. repeat split; [exact Ha | constructor].
  - destruct (find p l) as [x |].
    + destruct IH as (pre & post & -> & Hx & Hpre).
      exists (a :: pre), post. repeat split; [exact Hx |].
      constructor; assumption.
    + constructor; assumption.
Qed.

(** The tide block of functions/weather/weather.js: with a prediction list,
    high and low are the first H and the first L event, each with its time
    in the local clock and its height with one decimal, each null on its
    own when there is no such event; without a list both are null. *)
Lemma tides_block_first_events (toLocalHM : string -> string)
    (api : outcome tide_doc) :
  match api with
  | Returned {| predictions := Some ps |} =>
      exists high low,
        WeatherCjs.tides_block toLocalHM api =
          JObject [("high", high); ("low", low)] /\
        match find (fun p => String.eqb (p_type p) "H") ps with
        | Some p =>
            high = JObject [("t", JString (toLocalHM (p_t p)));
                            ("v", JString (WeatherCjs.fixed1_string
                                             (parseFloat (p_v p))))]
        | None => high = JNull
        end /\
        match find (fun p => String.eqb (p_type p) "L") ps with
        | Some p =>
            low = JObject [("t", JString (toLocalHM (p_t p)));
                           ("v", JString (WeatherCjs.fixed1_string
                                            (parseFloat (p_v p))))]
        | None => low = JNull
        end
  | _ =>
      WeatherCjs.tides_block toLocalHM api =
        JObject [("high", JNull); ("low", JNull)]
  end.
Proof.
  destruct api as [[[ps |]] | e]; try reflexivity.
  unfold WeatherCjs.tides_block. simpl.
  eexists. eexists. split; [reflexivity |].
  split.
  - destruct (find (fun p => String.eqb (p_type p) "H") ps); reflexivity.
  - destruct (find (fun p => String.eqb (p_type p) "L") ps); reflexivity.
Qed.

End Tides.

Section TidesLastWins.

(** In part_001 the event read last decides: every H event overwrites
    [high], every L event overwrites [low]. *)
Lemma scan_last_event (ps : list prediction) (p : prediction) :
  forall high low,
    Part001.scan (ps ++ [p]) high low =
    let* hl := Part001.scan ps high low in
    let* f := Part001.formatted p in
    Returned (if String.eqb (p_type p) "H" then f else fst hl,
              if String.eqb (p_type p) "L" then f else snd hl).
Proof.
  induction ps as [| q ps IH]; intros high low; simpl.
  - destruct (Part001.formatted p); reflexivity.
  - destruct (Part001.formatted q); simpl; [apply IH | reflexivity].
Qed.

End TidesLastWins.

(** C6 (code defect).  On the predictions of a day with two highs and two
    lows, [getNoaaTides] of part_001 returns the last High and the last Low
    of the list, with the height as parsed (three decimals); the tide block
    of functions/weather/weather.js returns the first High and the first Low
    with one decimal. *)
Theorem getNoaaTides_keeps_last_event :
  Part001.getNoaaTides
    (Returned {| ok := true; payload := Returned Sample.tide_document |}) =
  Returned
    (JObject
       [("high", JObject [("time", JString "15:40");
                          ("v", JNumber (Qred (1512 # 1000)))]);
        ("low", JObject [("time", JString "21:58");
                         ("v", JNumber (-187 # 1000))])]) /\
  WeatherCjs.tides_block (fun s => s) (Returned Sample.tide_document) =
  JObject
    [("high", JObject [("t", JString "2025-12-07 03:10"); ("v", JString "1.2")]);
     ("low", JObject [("t", JString "2025-12-07 09:45"); ("v", JString "0.3")])].
Proof. vm_compute. split; reflexivity. Qed.

(** ** The per-field fallback *)

Section Fallback.

Import FieldSpec.

Lemma parseFloat_chars_not_null (l : list ascii) : parseFloat_chars l <> Null.
Proof.
  unfold parseFloat_chars.
  destruct (sign_of (Str.drop_space l)) as [neg l1].
  destruct (span_digits l1) as [ip l2].
  destruct (match l2 with
            | [] => ([], [])
            | c :: l2' =>
                if Ascii.eqb c "."%char then span_digits l2' else ([], l2)
            end) as [fp l3].
  destruct ip, fp; discriminate.
Qed.

Lemma column_not_null (c : list string) (i : Z) : Buoys.column c i <> Null.
Proof.
  unfold Buoys.column, parseFloat_opt, parseFloat.
  destruct (Str.at_ c i); [apply parseFloat_chars_not_null | discriminate].
Qed.

Lemma sel_parse_line_not_null (f : fld) (line : string) :
  sel f (Buoys.parse_line line) <> Null.
Proof. destruct f; simpl; apply column_not_null. Qed.

(** The sentinel of the feed is not a number. *)
Lemma parseFloat_MM : parseFloat "MM" = NaN.
Proof. reflexivity. Qed.

Lemma fallback_first_numeric (g : reading -> jsnum) (rows : list reading) :
  Forall (fun r => g r <> Null) rows ->
  first_numeric g rows (Buoys.fallback g rows).
Proof.
  induction rows as [| r rows IH]; intro H; simpl.
  - constructor. constructor.
  - inversion H as [| ? ? Hr Hrows]; subst.
    destruct (g r) as [| | q] eqn:Hg; simpl.
    + congruence.
    + specialize (IH Hrows).
      inversion IH as [rows' Hall Heq | pre r' post q Hpre Hr' Heq Hq].
      * constructor. constructor; assumption.
      * apply (first_hit g (r :: pre) r' post q); [| assumption].
        constructor; assumption.
    + apply (first_hit g [] r rows q); [constructor | assumption].
Qed.

Lemma observation_result (f : fld) (rows : list reading) :
  result f (Buoys.observation rows) = convert f (Buoys.fallback (sel f) rows).
Proof. destruct f; reflexivity. Qed.

Lemma fallback_newest_has (g : reading -> jsnum) (r : reading)
    (rows : list reading) (v : Q) :
  g r = Num v -> Buoys.fallback g (r :: rows) = Num v.
Proof. intro H. simpl. rewrite H. reflexivity. Qed.

Lemma fallback_second (g : reading -> jsnum) (r0 r1 : reading)
    (rows : list reading) (v : Q) :
  g r0 = NaN -> g r1 = Num v -> Buoys.fallback g (r0 :: r1 :: rows) = Num v.
Proof. intros H0 H1. simpl. rewrite H0, H1. reflexivity. Qed.

End Fallback.

(** For a payload with at least two data rows the parser of js/buoys.js
    selects each of the five fields on its own, from the newest row in which
    that field is a number; when the newest row lacks the air temperature and
    the row before it has one, the air temperature comes from that older row
    while every field the newest row has still comes from the newest row. *)
Theorem fetchBuoy_fallback_per_field (text l0 l1 : string) (rest : list string)
    (Hrows : Buoys.data_lines text = l0 :: l1 :: rest) :
  let rows := map Buoys.parse_line (Buoys.data_lines text) in
  exists obs,
    Buoys.fetchBuoy (Returned {| ok := true; payload := text |}) = Returned obs /\
    (forall f,
        FieldSpec.first_numeric (FieldSpec.sel f) rows
          (Buoys.fallback (FieldSpec.sel f) rows) /\
        FieldSpec.result f obs =
        FieldSpec.convert f (Buoys.fallback (FieldSpec.sel f) rows)) /\
    (forall a,
        ATMP (Buoys.parse_line l0) = NaN ->
        ATMP (Buoys.parse_line l1) = Num a ->
        airF obs = Num (toFixed1 (Util.CtoF a)) /\
        forall f v,
          f <> FieldSpec.F_ATMP ->
          FieldSpec.sel f (Buoys.parse_line l0) = Num v ->
          FieldSpec.result f obs = FieldSpec.convert f (Num v)).
Proof.
  intro rows. exists (Buoys.observation rows).
  split; [reflexivity |]. split.
  - intro f. split; [| apply observation_result].
    apply fallback_first_numeric. apply Forall_forall.
    intros r Hin. unfold rows in Hin. apply in_map_iff in Hin.
    destruct Hin as (line & <- & _). apply sel_parse_line_not_null.
  - intros a H0 H1. unfold rows. rewrite Hrows. simpl map. split.
    + unfold Buoys.observation.
      rewrite (fallback_second ATMP _ _ _ a H0 H1). reflexivity.
    + intros f v _ Hv. rewrite observation_result.
      rewrite (fallback_newest_has _ _ _ v Hv). reflexivity.
Qed.

Lemma fetchBuoy_fallback_per_field_witness :
  Buoys.data_lines Sample.buoy_text = [Sample.row_2030; Sample.row_2024] /\
  ATMP (Buoys.parse_line Sample.row_2030) = NaN /\
  ATMP (Buoys.parse_line Sample.row_2024) = Num (221 # 10) /\
  exists obs,
    Buoys.fetchBuoy (Returned {| ok := true; payload := Sample.buoy_text |})
      = Returned obs /\
    airF obs = Num (toFixed1 (Util.CtoF (221 # 10))) /\
    FieldSpec.result FieldSpec.F_WSPD obs =
      FieldSpec.convert FieldSpec.F_WSPD (Num (51 # 10)).
Proof.
  assert (Hrows : Buoys.data_lines Sample.buoy_text =
                  [Sample.row_2030; Sample.row_2024]) by (vm_compute; reflexivity).
  assert (H0 : ATMP (Buoys.parse_line Sample.row_2030) = NaN)
    by (vm_compute; reflexivity).
  assert (H1 : ATMP (Buoys.parse_line Sample.row_2024) = Num (221 # 10))
    by (vm_compute; reflexivity).
  repeat split; try assumption.
  destruct (fetchBuoy_fallback_per_field Sample.buoy_text _ _ _ Hrows)
    as (obs & Hobs & _ & Hnew).
  exists obs. split; [exact Hobs |].
  destruct (Hnew _ H0 H1) as [Hair Hother]. split; [exact Hair |].
  apply Hother; [discriminate | vm_compute; reflexivity].
Defined.

(** C3 (code defect).  [parseBuoy] of part_003 returns from its loop at the
    first row and has no fallback: on a report whose newest row lacks the air
    temperature while the row before it has 22.1, it reports the air
    temperature as null, while js/buoys.js, functions/weather/weather.js and
    part_001 report 71.8 from the older row, and every other field from the
    newest row. *)
Theorem parseBuoy_reads_newest_row_only :
  Part003.parseBuoy (Returned Sample.buoy_text) =
    Some {| airF := Null; waterF := Num (741 # 10);
            windKts := Num (99 # 10); gustKts := Num 13;
            windDirCardinal := JString "150" |} /\
  Buoys.fetchBuoy (Returned {| ok := true; payload := Sample.buoy_text |}) =
    Returned {| airF := Num (359 # 5); waterF := Num (741 # 10);
                windKts := Num (99 # 10); gustKts := Num 13;
                windDirCardinal := JString "SSE" |} /\
  WeatherCjs.fetchBuoy (Returned Sample.buoy_text) =
    Returned {| airF := Num (359 # 5); waterF := Num (741 # 10);
                windKts := Num (99 # 10); gustKts := Num 13;
                windDirCardinal := JString "SSE" |} /\
  Part001Buoy.fetchBuoy
    (Returned {| ok := true; payload := Sample.buoy_text |}) =
    Returned {| airF := Num (359 # 5); waterF := Num (741 # 10);
                windKts := Num (99 # 10); gustKts := Num 13;
                windDirCardinal := JString "SSE" |}.
Proof. vm_compute. repeat split. Qed.

(** * Further properties of the code *)

(** ** The running selection of part_001 and part_004 *)

Section RunningSelection.

Import Selection.

Variable header : list string.

(** What a row offers for the column at index [i]. *)
Lemma parseNum_get (r : list string) (i : Z) :
  (if i =? -1 then Null else Part001Buoy.parseNum (Str.at_ r i)) =
  offer (WeatherCjs.get r i).
Proof.
  unfold WeatherCjs.get, Part001Buoy.parseNum, offer.
  destruct (i =? -1) eqn:Hm.
  - apply Z.eqb_eq in Hm. subst. reflexivity.
  - destruct (0 <=? i) eqn:Hlo; simpl.
    + destruct (i <? Z.of_nat (List.length r)) eqn:Hhi; simpl; [reflexivity |].
      apply Z.ltb_ge in Hhi. apply Z.leb_le in Hlo.
      unfold Str.at_. destruct (i <? 0); [reflexivity |].
      assert (Hn : nth_error r (Z.to_nat i) = None)
        by (apply nth_error_None; lia).
      rewrite Hn. reflexivity.
    + apply Z.leb_gt in Hlo. unfold Str.at_.
      assert (Hneg : (i <? 0) = true) by (apply Z.ltb_lt; lia).
      rewrite Hneg. reflexivity.
Qed.

Lemma field_turn (old : jsnum) (r : list string) (i : Z) :
  (if (is_null old && negb (i =? -1))%bool
   then Part001Buoy.parseNum (Str.at_ r i) else old) =
  keep old (offer (WeatherCjs.get r i)).
Proof.
  rewrite <- parseNum_get. unfold keep.
  destruct old; simpl; try reflexivity.
  destruct (i =? -1); reflexivity.
Qed.

Lemma wdir_turn (old : jsnum) (r : list string) (i : Z) :
  (if (is_null old && negb (i =? -1))%bool
   then let dd := Part001Buoy.parseNum (Str.at_ r i) in
        if negb (is_null dd) then dd else old
   else old) =
  keep old (offer (WeatherCjs.get r i)).
Proof.
  rewrite <- parseNum_get. unfold keep.
  destruct old; simpl; try reflexivity.
  destruct (i =? -1); simpl; [reflexivity |].
  destruct (Part001Buoy.parseNum (Str.at_ r i)); reflexivity.
Qed.

Lemma step_fields (a : reading) (r : list string) :
  Part001Buoy.step header a r =
  let c := WeatherCjs.parse_cells header r in
  {| WDIR := keep (WDIR a) (offer (WDIR c));
     WSPD := keep (WSPD a) (offer (WSPD c));
     GST := keep (GST a) (offer (GST c));
     ATMP := keep (ATMP a) (offer (ATMP c));
     WTMP := keep (WTMP a) (offer (WTMP c)) |}.
Proof.
  unfold Part001Buoy.step. cbv zeta.
  rewrite !field_turn, wdir_turn. reflexivity.
Qed.

(** The selection after the rows: every value still null is the first
    number the rows offer for it. *)
Lemma keep_newest (g : reading -> jsnum) (old : jsnum) (rows : list reading) :
  fold_left (fun v r => keep v (offer (g r))) rows old =
  keep old (WeatherCjs.newest g rows).
Proof.
  revert old. induction rows as [| r rows IH]; intro old; simpl.
  - unfold keep. destruct old; reflexivity.
  - rewrite IH. unfold keep, offer.
    destruct old; simpl; try reflexivity.
    destruct (g r); reflexivity.
Qed.

Lemma keep_turn (g : reading -> jsnum) (r : reading) (rows : list reading)
    (old : jsnum) :
  keep (keep old (offer (g r))) (WeatherCjs.newest g rows) =
  keep old (WeatherCjs.newest g (r :: rows)).
Proof.
  unfold keep, offer. simpl. destruct old; simpl; try reflexivity.
  destruct (g r); reflexivity.
Qed.

Lemma fold_step (rows : list (list string)) (a : reading) :
  fold_left (Part001Buoy.step header) rows a =
  let rs := map (WeatherCjs.parse_cells header) rows in
  {| WDIR := keep (WDIR a) (WeatherCjs.newest WDIR rs);
     WSPD := keep (WSPD a) (WeatherCjs.newest WSPD rs);
     GST := keep (GST a) (WeatherCjs.newest GST rs);
     ATMP := keep (ATMP a) (WeatherCjs.newest ATMP rs);
     WTMP := keep (WTMP a) (WeatherCjs.newest WTMP rs) |}.
Proof.
  revert a. induction rows as [| r rows IH]; intro a.
  - simpl. unfold keep. destruct a as [[] [] [] [] []]; reflexivity.
  - simpl fold_left. rewrite IH, step_fields. cbv zeta.
    cbn [WDIR WSPD GST ATMP WTMP map].
    rewrite !keep_turn. reflexivity.
Qed.

End RunningSelection.

Section EarlyExit.

Import Selection.

Variable header : list string.

Lemma truthy_keep (v new : jsnum) :
  Part004Buoy.truthy v = true -> keep v new = v.
Proof. destruct v; simpl; try discriminate. reflexivity. Qed.

(** Once the five values are truthy no later row changes them. *)
Lemma settled (rows : list (list string)) (a : reading) :
  (Part004Buoy.truthy (ATMP a) && Part004Buoy.truthy (WTMP a) &&
   Part004Buoy.truthy (WSPD a) && Part004Buoy.truthy (GST a) &&
   Part004Buoy.truthy (WDIR a))%bool = true ->
  fold_left (Part001Buoy.step header) rows a = a.
Proof.
  intro H. repeat (apply andb_prop in H; destruct H as [H ?]).
  rewrite fold_step. cbv zeta.
  rewrite !truthy_keep by assumption. destruct a; reflexivity.
Qed.

Lemma loop_from_cons (r : list string) (rows : list (list string))
    (a a' : reading) :
  a' = Part001Buoy.step header a r ->
  Part004Buoy.loop_from header (r :: rows) a =
  if (Part004Buoy.truthy (ATMP a') && Part004Buoy.truthy (WTMP a') &&
      Part004Buoy.truthy (WSPD a') && Part004Buoy.truthy (GST a') &&
      Part004Buoy.truthy (WDIR a'))%bool
  then a' else Part004Buoy.loop_from header rows a'.
Proof. intros ->. reflexivity. Qed.

Lemma loop_from_fold (rows : list (list string)) (a : reading) :
  Part004Buoy.loop_from header rows a =
  fold_left (Part001Buoy.step header) rows a.
Proof.
  revert a. induction rows as [| r rows IH]; intro a; [reflexivity |].
  rewrite (loop_from_cons r rows a _ eq_refl).
  change (fold_left (Part001Buoy.step header) (r :: rows) a)
    with (fold_left (Part001Buoy.step header) rows (Part001Buoy.step header a r)).
  set (a' := Part001Buoy.step header a r).
  destruct (Part004Buoy.truthy (ATMP a') && Part004Buoy.truthy (WTMP a') &&
            Part004Buoy.truthy (WSPD a') && Part004Buoy.truthy (GST a') &&
            Part004Buoy.truthy (WDIR a'))%bool eqn:Hall.
  - symmetry. apply settled. exact Hall.
  - apply IH.
Qed.

End EarlyExit.

(** X1.  The loop of [fetchBuoy] in part_001 selects, for each of the five
    fields, the value that [newest] of functions/weather/weather.js selects
    on the same header and rows: the first cell, newest row first, that is a
    number, and null when the header lacks the name or no row has a number. *)
Theorem part001_loop_selects_newest (header : list string)
    (rows : list (list string)) :
  Part001Buoy.loop header rows =
  let rs := map (WeatherCjs.parse_cells header) rows in
  {| WDIR := WeatherCjs.newest WDIR rs;
     WSPD := WeatherCjs.newest WSPD rs;
     GST := WeatherCjs.newest GST rs;
     ATMP := WeatherCjs.newest ATMP rs;
     WTMP := WeatherCjs.newest WTMP rs |}.
Proof. unfold Part001Buoy.loop. rewrite fold_step. reflexivity. Qed.

(** X2.  The early exit of the loop in part_004 (leave as soon as the five
    values are truthy) never changes the selection: on every header and rows
    the loop ends with the values of the loop of part_001, which visits every
    row; in particular a reading of 0, which is falsy and keeps the loop
    going, is kept. *)
Theorem part004_early_exit_is_harmless (header : list string)
    (rows : list (list string)) :
  Part004Buoy.loop header rows = Part001Buoy.loop header rows.
Proof. apply loop_from_fold. Qed.

(** ** The hour selection of [fetchStormglass] *)

Section HourSelection.

Variable now : Z.

Let dist := HourSpec.distance now.

Lemma closest_hour_cons (h : hour) (hs : list hour) (best : Z) (closest : hour) :
  WeatherJs.closest_hour now (h :: hs) best closest =
  match dist h with
  | Some d =>
      if d <? best then WeatherJs.closest_hour now hs d h
      else WeatherJs.closest_hour now hs best closest
  | None => WeatherJs.closest_hour now hs best closest
  end.
Proof.
  unfold dist, HourSpec.distance. simpl. destruct (h_time h); reflexivity.
Qed.

(** The loop either keeps [closest], no hour being closer than [best], or
    ends on an hour closer than [best], strictly closer than the hours before
    it and at least as close as the hours after it. *)
Lemma closest_hour_invariant (hs : list hour) :
  forall best closest,
    (WeatherJs.closest_hour now hs best closest = closest /\
     HourSpec.none_closer now best hs) \/
    (exists pre h post d,
        hs = pre ++ h :: post /\ dist h = Some d /\ d < best /\
        WeatherJs.closest_hour now hs best closest = h /\
        HourSpec.all_farther now d pre /\ HourSpec.none_closer now d post).
Proof.
  induction hs as [| h0 hs IH]; intros best closest.
  - left. split; [reflexivity | intros h d []].
  - rewrite closest_hour_cons. destruct (dist h0) as [d0 |] eqn:Hd0.
    + destruct (d0 <? best) eqn:Hc.
      * apply Z.ltb_lt in Hc.
        destruct (IH d0 h0)
          as [[Hs Hall] | (pre & h & post & d & -> & Hd & Hlt & Hs & Hpre & Hpost)].
        -- right. exists [], h0, hs, d0.
           repeat split; try assumption. intros h d' [].
        -- right. exists (h0 :: pre), h, post, d.
           repeat split; try assumption; [lia |].
           intros h' d' [<- | Hin] Hh'.
           ++ unfold dist in Hd0. rewrite Hd0 in Hh'. injection Hh' as <-. exact Hlt.
           ++ eapply Hpre; eassumption.
      * apply Z.ltb_ge in Hc.
        destruct (IH best closest)
          as [[Hs Hall] | (pre & h & post & d & -> & Hd & Hlt & Hs & Hpre & Hpost)].
        -- left. split; [exact Hs |].
           intros h d' [<- | Hin] Hh.
           ++ unfold dist in Hd0. rewrite Hd0 in Hh. injection Hh as <-. exact Hc.
           ++ eapply Hall; eassumption.
        -- right. exists (h0 :: pre), h, post, d.
           repeat split; try assumption.
           intros h' d' [<- | Hin] Hh'.
           ++ unfold dist in Hd0. rewrite Hd0 in Hh'. injection Hh' as <-. lia.
           ++ eapply Hpre; eassumption.
    + destruct (IH best closest)
        as [[Hs Hall] | (pre & h & post & d & -> & Hd & Hlt & Hs & Hpre & Hpost)].
      * left. split; [exact Hs |].
        intros h d' [<- | Hin] Hh.
        -- unfold dist in Hd0. congruence.
        -- eapply Hall; eassumption.
      * right. exists (h0 :: pre), h, post, d.
        repeat split; try assumption.
        intros h' d' [<- | Hin] Hh'.
        -- unfold dist in Hd0. congruence.
        -- eapply Hpre; eassumption.
Qed.

End HourSelection.

(** X3.  On a successful forecast response with at least one hour,
    [fetchStormglass] reports the height of the hour nearest to now among the
    hours less than 999999999 ms away, the first of them on a tie, whether or
    not that hour has a height; when no hour is that near it reports the
    first hour of the list.  [waveFt] is the height in feet rounded to one
    decimal, null when the height is null. *)
Theorem fetchStormglass_reports_nearest_hour (now : Z) (h0 : hour)
    (hs : list hour) :
  exists h,
    WeatherJs.fetchStormglass now
      (Returned {| ok := true;
                   payload := Returned {| hours := Some (h0 :: hs) |} |}) =
    {| waveM := h_sg h; waveFt := unless_null HourSpec.feet (h_sg h) |} /\
    ((h = h0 /\ HourSpec.none_closer now 999999999 (h0 :: hs)) \/
     (exists pre post d,
         h0 :: hs = pre ++ h :: post /\
         HourSpec.distance now h = Some d /\ d < 999999999 /\
         HourSpec.all_farther now d pre /\ HourSpec.none_closer now d post)).
Proof.
  unfold WeatherJs.fetchStormglass. simpl bind. cbv iota beta.
  destruct (closest_hour_invariant now (h0 :: hs) 999999999 h0)
    as [[Hs Hall] | (pre & h & post & d & Heq & Hd & Hlt & Hs & Hpre & Hpost)].
  - exists h0. split.
    + simpl. simpl in Hs. rewrite Hs. reflexivity.
    + left. split; [reflexivity | exact Hall].
  - exists h. split.
    + simpl. simpl in Hs. rewrite Hs. reflexivity.
    + right. exists pre, post, d. repeat split; assumption.
Qed.

(** ** The wave cache over two invocations *)

Section CacheReuse.

Lemma getWavesCached_fresh (w : WeatherJs.world) (c : cache_entry) :
  WeatherJs.blob_get w = Returned (Some c) ->
  WeatherJs.now_check w - timestamp c < 14400000 ->
  WeatherJs.getWavesCached w = (Returned (waves c), Some (Some c)).
Proof.
  intros Hget Hage. unfold WeatherJs.getWavesCached. rewrite Hget.
  assert (H : (WeatherJs.now_check w - timestamp c <? WeatherJs.four_hours) = true)
    by (apply Z.ltb_lt; exact Hage).
  rewrite H. reflexivity.
Qed.

Lemma getWavesCached_refresh (w : WeatherJs.world) (cached : option cache_entry) :
  WeatherJs.blob_get w = Returned cached ->
  CacheSpec.is_stale w cached = true ->
  WeatherJs.blob_set w = Returned tt ->
  WeatherJs.getWavesCached w =
  (Returned (WeatherJs.fetchStormglass (WeatherJs.now_fetch w) (WeatherJs.stormglass w)),
   Some (Some {| timestamp := WeatherJs.now_write w;
                 waves := WeatherJs.fetchStormglass (WeatherJs.now_fetch w)
                            (WeatherJs.stormglass w) |})).
Proof.
  intros Hget Hstale Hset. unfold WeatherJs.getWavesCached.
  rewrite Hget, Hset. destruct cached as [c |]; simpl in *; [| reflexivity].
  destruct (WeatherJs.now_check w - timestamp c <? WeatherJs.four_hours);
    [discriminate | reflexivity].
Qed.

(** What a call returns is what the slot holds after it. *)
Lemma getWavesCached_slot (w : WeatherJs.world) (r : wave_reading) :
  fst (WeatherJs.getWavesCached w) = Returned r ->
  exists e, snd (WeatherJs.getWavesCached w) = Some (Some e) /\ waves e = r.
Proof.
  unfold WeatherJs.getWavesCached.
  destruct (WeatherJs.blob_get w) as [[c |] | e]; simpl; try discriminate.
  - destruct (WeatherJs.now_check w - timestamp c <? WeatherJs.four_hours); simpl.
    + intro H. injection H as <-. exists c. split; reflexivity.
    + destruct (WeatherJs.blob_set w); simpl; [| discriminate].
      intro H. injection H as <-. eexists. split; reflexivity.
  - destruct (WeatherJs.blob_set w); simpl; [| discriminate].
    intro H. injection H as <-. eexists. split; reflexivity.
Qed.

End CacheReuse.

(** X4.  The entry of the wave cache lives four hours to the millisecond: a
    call less than 14400000 ms after the time stamp of the entry returns the
    cached reading and leaves the slot as it is, whatever the upstream would
    answer; a call 14400000 ms after it or later asks the upstream, returns
    what [fetchStormglass] gives and overwrites the slot with it under the
    time of the write. *)
Theorem getWavesCached_ttl_boundary (w : WeatherJs.world) (c : cache_entry)
    (Hget : WeatherJs.blob_get w = Returned (Some c)) :
  (WeatherJs.now_check w - timestamp c < 14400000 ->
   WeatherJs.getWavesCached w = (Returned (waves c), Some (Some c))) /\
  (14400000 <= WeatherJs.now_check w - timestamp c ->
   WeatherJs.blob_set w = Returned tt ->
   WeatherJs.getWavesCached w =
   (Returned (WeatherJs.fetchStormglass (WeatherJs.now_fetch w)
                (WeatherJs.stormglass w)),
    Some (Some {| timestamp := WeatherJs.now_write w;
                  waves := WeatherJs.fetchStormglass (WeatherJs.now_fetch w)
                             (WeatherJs.stormglass w) |}))).
Proof.
  split.
  - apply getWavesCached_fresh. exact Hget.
  - intros Hage Hset. apply (getWavesCached_refresh w (Some c) Hget); [| exact Hset].
    simpl. apply negb_true_iff. apply Z.ltb_ge. exact Hage.
Qed.

Lemma getWavesCached_ttl_boundary_witness :
  WeatherJs.getWavesCached Sample.all_up =
    (Returned Sample.cached_waves,
     Some (Some {| timestamp := 99 * Sample.hour_ms;
                   waves := Sample.cached_waves |})) /\
  WeatherJs.getWavesCached Sample.stale_and_down =
    (Returned {| waveM := Null; waveFt := Null |},
     Some (Some {| timestamp := 104 * Sample.hour_ms + 350;
                   waves := {| waveM := Null; waveFt := Null |} |})).
Proof.
  split.
  - apply (proj1 (getWavesCached_ttl_boundary Sample.all_up _ eq_refl)).
    reflexivity.
  - apply (proj2 (getWavesCached_ttl_boundary Sample.stale_and_down _ eq_refl)).
    + vm_compute. discriminate.
    + reflexivity.
Defined.

(** X5.  Whatever a call of [getWavesCached] returned is served again by the
    next call, without a request to the upstream, as long as that call comes
    less than four hours after the time stamp of the slot; this holds for
    the null reading of a failed refresh as well, which is therefore served
    for four hours even if the upstream is back. *)
Theorem getWavesCached_serves_last_result (w1 w2 : WeatherJs.world)
    (r : wave_reading) (e : cache_entry)
    (Hfirst : fst (WeatherJs.getWavesCached w1) = Returned r)
    (Hslot : snd (WeatherJs.getWavesCached w1) = Some (Some e))
    (Hnext : WeatherJs.blob_get w2 = Returned (Some e))
    (Hage : WeatherJs.now_check w2 - timestamp e < 14400000) :
  WeatherJs.getWavesCached w2 = (Returned r, Some (Some e)).
Proof.
  destruct (getWavesCached_slot w1 r Hfirst) as (e' & Hs & Hr).
  rewrite Hslot in Hs. injection Hs as <-.
  rewrite (getWavesCached_fresh w2 e Hnext Hage). rewrite Hr. reflexivity.
Qed.

Lemma getWavesCached_serves_last_result_witness :
  CacheSpec.fetch_fails (WeatherJs.stormglass SampleNext.upstream_back) = false /\
  WeatherJs.getWavesCached SampleNext.upstream_back =
  (Returned {| waveM := Null; waveFt := Null |},
   Some (Some {| timestamp := 104 * Sample.hour_ms + 350;
                 waves := {| waveM := Null; waveFt := Null |} |})).
Proof.
  split; [reflexivity |].
  apply (getWavesCached_serves_last_result Sample.stale_and_down
           SampleNext.upstream_back);
    [reflexivity | reflexivity | reflexivity | vm_compute; reflexivity].
Defined.

(** ** The status of the handler of functions/weather.js *)

(** X6.  The handler of functions/weather.js answers 200 with the JSON
    headers exactly when the blob store works: the read succeeds and, if the
    entry is stale, the write succeeds.  No failure of the buoy, tide or
    forecast upstreams changes the status; every failure of the store gives
    500 without headers. *)
Theorem handler_status_depends_on_store_only (w : WeatherJs.world) :
  (statusCode (WeatherJs.handler w) = 200 /\
   headers (WeatherJs.handler w) = WeatherJs.ok_headers /\
   exists cached,
     WeatherJs.blob_get w = Returned cached /\
     (CacheSpec.is_stale w cached = false \/ WeatherJs.blob_set w = Returned tt)) \/
  (statusCode (WeatherJs.handler w) = 500 /\
   headers (WeatherJs.handler w) = [] /\
   ((exists e, WeatherJs.blob_get w = Threw e) \/
    (exists cached e,
        WeatherJs.blob_get w = Returned cached /\
        CacheSpec.is_stale w cached = true /\
        WeatherJs.blob_set w = Threw e))).
Proof.
  unfold WeatherJs.handler, WeatherJs.getWavesCached, CacheSpec.is_stale.
  destruct (WeatherJs.blob_get w) as [[c |] | e]; simpl.
  - destruct (WeatherJs.now_check w - timestamp c <? WeatherJs.four_hours) eqn:Hf;
      simpl.
    + left. repeat split. exists (Some c). split; [reflexivity |].
      left. rewrite Hf. reflexivity.
    + destruct (WeatherJs.blob_set w) as [[] | e] eqn:Hs; simpl.
      * left. repeat split. exists (Some c). split; [reflexivity | now right].
      * right. repeat split. right. exists (Some c), e.
        rewrite Hf. repeat split.
  - destruct (WeatherJs.blob_set w) as [[] | e] eqn:Hs; simpl.
    + left. repeat split. exists None. split; [reflexivity | now right].
    + right. repeat split. right. exists None, e. repeat split.
  - right. repeat split. left. exists e. reflexivity.
Qed.

(** ** Compass sectors *)

Section CompassSectors.

(** In the number model the index of a direction [d >= 0] is the index of
    the sector that holds [d mod 360]. *)
Lemma index_sector (d : Q) (Hd : (0 <= d)%Q) :
  let r := JsNum.rem d 360 in
  let i := Compass.index d in
  (i = 0 /\ (r < 45 # 4 \/ 1395 # 4 <= r)%Q) \/
  (1 <= i <= 15 /\
   (inject_Z i * (45 # 2) - (45 # 4) <= r)%Q /\
   (r < inject_Z i * (45 # 2) + (45 # 4))%Q).
Proof.
  intros r i.
  unfold i, Compass.index, floor. fold r.
  destruct (rem_360_bounds d Hd) as [Hlo Hhi]. fold r in Hlo, Hhi.
  set (q := (r / (45 # 2))%Q).
  assert (Hq : (r == (45 # 2) * q)%Q) by (unfold q; field).
  destruct (floor_spec (q + (1 # 2))) as [Hf1 Hf2].
  set (f := Qfloor (q + (1 # 2))) in *.
  assert (Hf : 0 <= f < 17).
  { unfold f. apply floor_between.
    - change (inject_Z 0) with 0%Q. lra.
    - change (inject_Z 17) with 17%Q. lra. }
  assert (Hcases : f = 16 \/ f < 16) by lia.
  destruct Hcases as [H16 | Hlt].
  - left. rewrite H16. split; [reflexivity |].
    right. rewrite H16 in Hf1. change (inject_Z 16) with 16%Q in Hf1. lra.
  - rewrite Z.rem_small by lia.
    assert (Hz : f = 0 \/ 1 <= f) by lia.
    destruct Hz as [H0 | H1].
    + left. split; [exact H0 |]. left.
      rewrite H0 in Hf2. change (inject_Z 0) with 0%Q in Hf2. lra.
    + right. split; [lia |]. split; lra.
Qed.

(** [d % 360] of a whole number of degrees is the whole number [k mod 360]. *)
Lemma rem_360_whole (k : Z) :
  0 <= k -> (JsNum.rem (inject_Z k) 360 == inject_Z (k mod 360))%Q.
Proof.
  intro Hk. unfold JsNum.rem. rewrite Qred_correct.
  assert (Ht : trunc (inject_Z k / 360) = k / 360).
  { unfold trunc. cbn [Qnum Qden inject_Z Qdiv Qmult Qinv].
    rewrite Z.mul_1_r. apply Z.quot_div_nonneg; lia. }
  rewrite Ht.
  pose proof (Z.div_mod k 360 ltac:(lia)) as Hdm.
  assert (HQ : (inject_Z k == 360 * inject_Z (k / 360) + inject_Z (k mod 360))%Q).
  { rewrite Hdm at 1. rewrite inject_Z_plus, inject_Z_mult. reflexivity. }
  lra.
Qed.

(** For a whole number [m] of degrees the value [m / 22.5 + 0.5] stays at
    least one ninetieth away from every integer, so a small error in it does
    not move its floor. *)
Lemma whole_degrees_floor (m : Z) (e : Q) :
  (- (1 # 100) <= e)%Q -> (e <= 1 # 100)%Q ->
  Qfloor (inject_Z m / (45 # 2) + (1 # 2) + e) = (4 * m + 45) / 90.
Proof.
  intros He1 He2.
  pose proof (Z.div_mod (4 * m + 45) 90 ltac:(lia)) as Hdm.
  pose proof (Z.mod_pos_bound (4 * m + 45) 90 ltac:(lia)) as Hb.
  assert (Hodd : (4 * m + 45) mod 90 <> 0 /\ (4 * m + 45) mod 90 <> 90 - 0)
    by (split; Z.div_mod_to_equations; lia).
  set (f := (4 * m + 45) / 90) in *.
  set (p := (4 * m + 45) mod 90) in *.
  assert (Hp : 1 <= p <= 89) by lia.
  assert (HQ : (4 * inject_Z m + 45 == 90 * inject_Z f + inject_Z p)%Q).
  { change 4%Q with (inject_Z 4). change 45%Q with (inject_Z 45).
    change 90%Q with (inject_Z 90).
    rewrite <- !inject_Z_mult, <- !inject_Z_plus. rewrite Hdm. reflexivity. }
  assert (Hp1 : (1 <= inject_Z p)%Q)
    by (change 1%Q with (inject_Z 1); rewrite <- Zle_Qle; lia).
  assert (Hp2 : (inject_Z p <= 89)%Q)
    by (change 89%Q with (inject_Z 89); rewrite <- Zle_Qle; lia).
  set (q := (inject_Z m / (45 # 2))%Q).
  assert (Hq : (inject_Z m == (45 # 2) * q)%Q) by (unfold q; field).
  assert (Hfl : f <= Qfloor (q + (1 # 2) + e) < f + 1).
  { apply floor_between; [| rewrite inject_Z_plus; change (inject_Z 1) with 1%Q];
      lra. }
  lia.
Qed.

End CompassSectors.

(** X7.  For a whole number [k >= 0] of degrees, as the feed reports the wind
    direction, the compass point returned is the one whose bearing, [22.5]
    degrees times its index, is nearest to [k mod 360]: the direction lies in
    the half-open sector of 11.25 degrees on either side of it, and the last
    11.25 degrees before 360 belong to N.  The quotient [(k mod 360) / 22.5 +
    0.5] is never within one hundredth of an integer, so an error of that
    size in computing it, far above the roundoff of the runtime, leaves the
    index as it is. *)
Theorem degToCardinal_sector (k : Z) (Hk : 0 <= k) :
  let r := JsNum.rem (inject_Z k) 360 in
  let i := Compass.index (inject_Z k) in
  WeatherJs.degToCardinal (Num (inject_Z k)) = Compass.at_index i /\
  ((i = 0 /\ (r < 45 # 4 \/ 1395 # 4 <= r)%Q) \/
   (1 <= i <= 15 /\
    (inject_Z i * (45 # 2) - (45 # 4) <= r)%Q /\
    (r < inject_Z i * (45 # 2) + (45 # 4))%Q)) /\
  (forall e : Q,
      (- (1 # 100) <= e)%Q -> (e <= 1 # 100)%Q ->
      Z.rem (Qfloor (r / (45 # 2) + (1 # 2) + e)) 16 = i).
Proof.
  intros r i. split; [reflexivity |].
  assert (Hd : (0 <= inject_Z k)%Q)
    by (change 0%Q with (inject_Z 0); rewrite <- Zle_Qle; exact Hk).
  split; [exact (index_sector (inject_Z k) Hd) |].
  pose proof (rem_360_whole k Hk) as Hr. fold r in Hr.
  assert (Hx : forall e : Q,
             (r / (45 # 2) + (1 # 2) + e ==
              inject_Z (k mod 360) / (45 # 2) + (1 # 2) + e)%Q)
    by (intro e; rewrite Hr; reflexivity).
  intros e He1 He2.
  unfold i, Compass.index, floor. fold r.
  assert (H0 : (r / (45 # 2) + (1 # 2) ==
                inject_Z (k mod 360) / (45 # 2) + (1 # 2) + 0)%Q)
    by (rewrite Hr; ring).
  rewrite (Qfloor_comp _ _ (Hx e)), (Qfloor_comp _ _ H0).
  rewrite (whole_degrees_floor (k mod 360) e He1 He2).
  rewrite (whole_degrees_floor (k mod 360) 0) by lra.
  reflexivity.
Qed.

Lemma degToCardinal_sector_witness :
  0 <= 200 /\
  WeatherJs.degToCardinal (Num (inject_Z 200)) = JString "SSW" /\
  Z.rem (Qfloor (JsNum.rem (inject_Z 200) 360 / (45 # 2) + (1 # 2)
                 + (1 # 1000))) 16 = 9.
Proof.
  assert (H : 0 <= 200) by lia.
  destruct (degToCardinal_sector 200 H) as (H1 & _ & H3).
  split; [exact H |]. split; [exact H1 |].
  apply (H3 (1 # 1000)); unfold Qle; simpl; lia.
Defined.

(** ** Rounding to one decimal *)

Section OneDecimal.

Local Open Scope Q_scope.

(** Ten times the Fahrenheit value of a reading with one decimal, plus one
    half, is an odd number of tenths. *)
Lemma fahrenheit_tenths (k : Z) :
  Util.CtoF (k # 10) * 10 + (1 # 2) == (18 * k + 3205 # 10).
Proof.
  unfold Util.CtoF. rewrite Qred_correct.
  rewrite (Qmake_Qdiv k 10), (Qmake_Qdiv (18 * k + 3205) 10).
  rewrite inject_Z_plus, inject_Z_mult.
  change (inject_Z (Z.pos 10)) with 10. change (inject_Z 18) with 18.
  change (inject_Z 3205) with 3205. field.
Qed.

Lemma fahrenheit_tenths_neg (k : Z) :
  - Util.CtoF (k # 10) * 10 + (1 # 2) == (- (18 * k) - 3195 # 10).
Proof.
  unfold Util.CtoF. rewrite Qred_correct.
  rewrite (Qmake_Qdiv k 10), (Qmake_Qdiv (- (18 * k) - 3195) 10).
  unfold Z.sub. rewrite !inject_Z_plus, !inject_Z_opp, inject_Z_mult.
  change (inject_Z (Z.pos 10)) with 10. change (inject_Z 18) with 18.
  change (inject_Z 3195) with 3195. field.
Qed.

Lemma odd_tenths_floor (k : Z) :
  ((18 * k + 3205) / 10 = - ((- (18 * k) - 3195) / 10))%Z.
Proof. Z.div_mod_to_equations. lia. Qed.

End OneDecimal.

(** X9.  On a Celsius reading with one decimal, as the feed reports them, the
    two revisions of the conversion agree: [round(CtoF(c))] of
    functions/weather.js and [oneDec(CtoF(c))] of js/buoys.js are the same
    number, below zero Fahrenheit too, because the Fahrenheit value of such a
    reading never lies halfway between two tenths. *)
Theorem fahrenheit_roundings_agree (k : Z) :
  Num (WeatherJs.round (WeatherJs.CtoF (k # 10))) =
  Util.oneDec (Num (Util.CtoF (k # 10))).
Proof.
  unfold Util.oneDec, WeatherJs.round, round1, JsNum.round, toFixed1.
  change (WeatherJs.CtoF (k # 10)) with (Util.CtoF (k # 10)).
  destruct (Qle_bool 0 (Util.CtoF (k # 10))); [reflexivity |].
  f_equal. apply Qred_complete.
  rewrite (Qfloor_comp _ _ (fahrenheit_tenths k)).
  rewrite (Qfloor_comp _ _ (fahrenheit_tenths_neg k)).
  unfold Qfloor. rewrite odd_tenths_floor.
  rewrite inject_Z_opp. field.
Qed.

(** ** The blocks of functions/weather/weather.js *)

Section BlocksFacts.

Variable toLocalHM : string -> string.
Variable toLocal : Z -> Z.

(** The loop of the waves block stops at the first point that is not past
    and keeps the last point before it. *)
Lemma last_past_run (nowLocal : Z) (ws : list wave_point) :
  forall best,
  exists pre post,
    ws = pre ++ post /\
    forallb (PastSpec.past toLocal nowLocal) pre = true /\
    match post with
    | w :: _ => PastSpec.past toLocal nowLocal w = false
    | [] => True
    end /\
    Blocks.last_past toLocal nowLocal ws best =
    match rev pre with
    | w :: _ => Some w
    | [] => best
    end.
Proof.
  induction ws as [| w ws IH]; intro best.
  - exists [], []. repeat split.
  - simpl Blocks.last_past.
    destruct (w_time w) as [t |] eqn:Ht.
    + destruct (toLocal t <=? nowLocal) eqn:Hle.
      * destruct (IH (Some w)) as (pre & post & -> & Hpre & Hpost & Hres).
        exists (w :: pre), post. repeat split.
        -- simpl. unfold PastSpec.past at 1. rewrite Ht, Hle. exact Hpre.
        -- exact Hpost.
        -- rewrite Hres. simpl.
           destruct (rev pre) as [| x l] eqn:Hr; reflexivity.
      * exists [], (w :: ws). repeat split.
        unfold PastSpec.past. rewrite Ht. exact Hle.
    + exists [], (w :: ws). repeat split.
      unfold PastSpec.past. rewrite Ht. reflexivity.
Qed.

End BlocksFacts.

(** X11.  The handler of functions/weather/weather.js loses the whole report
    when a buoy read fails: if the request for either station is rejected,
    or its payload has no header line naming WDIR, the answer is status 500
    with only the error.  When both buoy reads succeed the answer is status
    200 whatever the tide, sun and wave upstreams do, and carries both
    observations. *)
Theorem handler_cjs_fails_on_buoy_only (toLocalHM : string -> string)
    (toLocal : Z -> Z) (w : Blocks.world) :
  let r := Blocks.handler_cjs toLocalHM toLocal w in
  (exists g b,
      WeatherCjs.fetchBuoy (Blocks.gulf_feed w) = Returned g /\
      WeatherCjs.fetchBuoy (Blocks.bay_feed w) = Returned b /\
      statusCode r = 200 /\
      get_field "gulf" (body r) = Some (obs_json g) /\
      get_field "bay" (body r) = Some (obs_json b) /\
      get_field "tides" (body r) =
        Some (WeatherCjs.tides_block toLocalHM (Blocks.tide_api w)) /\
      get_field "sun" (body r) =
        Some (Blocks.sun_block toLocalHM (Blocks.sun_api w)) /\
      get_field "waves" (body r) =
        Some (Blocks.waves_block toLocal (Blocks.now w) (Blocks.wave_api w))) \/
  (exists e,
      (WeatherCjs.fetchBuoy (Blocks.gulf_feed w) = Threw e \/
       (exists g, WeatherCjs.fetchBuoy (Blocks.gulf_feed w) = Returned g /\
                  WeatherCjs.fetchBuoy (Blocks.bay_feed w) = Threw e)) /\
      statusCode r = 500 /\
      body r = JObject [("error", JString e)]).
Proof.
  unfold Blocks.handler_cjs. cbv zeta.
  destruct (WeatherCjs.fetchBuoy (Blocks.gulf_feed w)) as [g | e] eqn:Hg.
  - destruct (WeatherCjs.fetchBuoy (Blocks.bay_feed w)) as [b | e] eqn:Hb.
    + left. exists g, b. simpl. repeat split.
    + right. exists e. simpl. repeat split. right. exists g. split; reflexivity.
  - right. exists e. simpl. repeat split. left. reflexivity.
Qed.

(** X12.  The waves block reads the series up to the first point that is
    after now (or whose time stamp does not parse) and reports the last point
    before it: nothing when the first point is already after now, and the
    text NaN, not null, when the reported point has no height. *)
Theorem waves_block_last_past_point (toLocal : Z -> Z) (now : Z)
    (arr : list wave_point) :
  exists pre post,
    arr = pre ++ post /\
    forallb (PastSpec.past toLocal (toLocal now)) pre = true /\
    match post with
    | w :: _ => PastSpec.past toLocal (toLocal now) w = false
    | [] => True
    end /\
    Blocks.waves_block toLocal now (Returned {| f_waves := Some arr |}) =
    match rev pre with
    | best :: _ => JObject [("waveFt", JString (PastSpec.printed best))]
    | [] => JObject [("waveFt", JNull)]
    end /\
    forall t, PastSpec.printed {| w_time := t; w_waveFt := Null |} = "NaN"%string.
Proof.
  destruct (last_past_run toLocal (toLocal now) arr None)
    as (pre & post & Heq & Hpre & Hpost & Hres).
  exists pre, post. repeat split; try assumption.
  unfold Blocks.waves_block. rewrite Hres.
  destruct (rev pre); reflexivity.
Qed.

(** ** The handler of part_001 *)

Section Part001HandlerFacts.

Lemma scan_bad_event (ps : list prediction) (p : prediction) :
  In p ps ->
  (exists e, Part001.formatted p = Threw e) ->
  forall high low, exists e, Part001.scan ps high low = Threw e.
Proof.
  induction ps as [| q ps IH]; intros Hin Hbad high low; [destruct Hin |].
  simpl. destruct (Part001.formatted q) as [f | e] eqn:Hq.
  - simpl. destruct Hin as [-> | Hin].
    + destruct Hbad as [e He]. congruence.
    + apply IH; assumption.
  - exists e. reflexivity.
Qed.

Lemma formatted_no_blank (p : prediction) :
  nth_error (Part001.split_on " " (p_t p)) 1 = None ->
  exists e, Part001.formatted p = Threw e.
Proof.
  intro H. unfold Part001.formatted. rewrite H. eexists. reflexivity.
Qed.

End Part001HandlerFacts.

(** X13.  The handler of part_001 always answers 200 with the JSON headers.
    When the forecast, the tide request and the sun file all come back, the
    body carries the two buoy observations (their own fallback when a buoy
    read failed), the wave picked from the fresh forecast, the tides and the
    sun times.  When any one of the three rejects, the body is the empty
    report: the buoy observations that were fetched are dropped with the
    rest. *)
Theorem part001_handler_all_or_nothing (w : Part001Full.world) :
  let r := Part001Full.handler w in
  statusCode r = 200 /\
  headers r = Part001Handler.ok_headers /\
  ((exists f t u,
       Part001Full.fetchStormglassFresh (Part001Full.now_stamp w)
         (Part001Full.forecast_api w) = Returned f /\
       Part001.getNoaaTides (Part001Full.tide_api w) = Returned t /\
       Part001Full.getSunData (Part001Full.sun_file w) = Returned u /\
       body r =
       JObject
         [("gulf", obs_json (Part001Buoy.safeBuoy (Part001Full.gulf_feed w)));
          ("bay", obs_json (Part001Buoy.safeBuoy (Part001Full.bay_feed w)));
          ("waves",
           JObject [("waveFt",
                     of_jsnum (Part004.pickCurrentWave (Part001Full.now_pick w)
                                 (Some f)))]);
          ("tides", t); ("sun", u); ("usharborsOutdated", JBool false)]) \/
   (exists e,
       ((exists e1, Part001Full.fetchStormglassFresh (Part001Full.now_stamp w)
                      (Part001Full.forecast_api w) = Threw e1) \/
        (exists e2, Part001.getNoaaTides (Part001Full.tide_api w) = Threw e2) \/
        (exists e3, Part001Full.getSunData (Part001Full.sun_file w) = Threw e3)) /\
       body r = Part001Spec.empty_report e)).
Proof.
  unfold Part001Full.handler, Part001Handler.handler, Part001Full.sources_of.
  cbv zeta. simpl Part001Handler.sg. simpl Part001Handler.tides.
  simpl Part001Handler.sun. simpl Part001Handler.gulf. simpl Part001Handler.bay.
  destruct (Part001Full.fetchStormglassFresh (Part001Full.now_stamp w)
              (Part001Full.forecast_api w)) as [f | e1].
  - destruct (Part001.getNoaaTides (Part001Full.tide_api w)) as [t | e2].
    + destruct (Part001Full.getSunData (Part001Full.sun_file w)) as [u | e3].
      * simpl. repeat split. left. exists f, t, u. repeat split.
      * simpl. repeat split. right. exists e3. split; [| reflexivity].
        right. right. exists e3. reflexivity.
    + simpl. repeat split. right. exists e2. split; [| reflexivity].
      right. left. exists e2. reflexivity.
  - simpl. repeat split. right. exists e1. split; [| reflexivity].
    left. exists e1. reflexivity.
Qed.

(** X14.  In part_001 one prediction whose time stamp has no blank between
    date and time, whatever its type, makes [getNoaaTides] throw, and with it
    the handler gives the empty report: both buoy observations are null and
    [usharborsOutdated] is true, although every upstream answered. *)
Theorem part001_bad_time_stamp_empties_report (w : Part001Full.world)
    (ps : list prediction) (p : prediction)
    (Hapi : Part001Full.tide_api w =
            Returned {| ok := true;
                        payload := Returned {| predictions := Some ps |} |})
    (Hin : In p ps)
    (Hbad : nth_error (Part001.split_on " " (p_t p)) 1 = None) :
  (exists e, Part001.getNoaaTides (Part001Full.tide_api w) = Threw e) /\
  exists e, body (Part001Full.handler w) = Part001Spec.empty_report e.
Proof.
  assert (Ht : exists e, Part001.getNoaaTides (Part001Full.tide_api w) = Threw e).
  { rewrite Hapi. unfold Part001.getNoaaTides. simpl.
    destruct (scan_bad_event ps p Hin (formatted_no_blank p Hbad) JNull JNull)
      as [e He].
    exists e. rewrite He. reflexivity. }
  split; [exact Ht |]. destruct Ht as [e He].
  unfold Part001Full.handler, Part001Handler.handler, Part001Full.sources_of.
  cbv zeta. simpl Part001Handler.sg. simpl Part001Handler.tides.
  destruct (Part001Full.fetchStormglassFresh (Part001Full.now_stamp w)
              (Part001Full.forecast_api w)) as [f | e1].
  - rewrite He. simpl. exists e. reflexivity.
  - simpl. exists e1. reflexivity.
Qed.

Lemma part001_bad_time_stamp_empties_report_witness :
  (exists g, Part001Buoy.fetchBuoy
               (Part001Full.gulf_feed SamplePart001.iso_stamp) = Returned g) /\
  (exists e, Part001.getNoaaTides
               (Part001Full.tide_api SamplePart001.iso_stamp) = Threw e) /\
  exists e, body (Part001Full.handler SamplePart001.iso_stamp)
            = Part001Spec.empty_report e.
Proof.
  split; [eexists; vm_compute; reflexivity |].
  apply (part001_bad_time_stamp_empties_report SamplePart001.iso_stamp _
           {| p_t := "2025-12-07T09:45"; p_v := "0.312"; p_type := "L" |}
           eq_refl).
  - right. left. reflexivity.
  - reflexivity.
Defined.

(** ** The wave picked from a fresh forecast *)

Section FreshForecast.

Variable now : Z.

Let point (h : hour) : wave_point :=
  {| w_time := h_time h;
     w_waveFt := match h_sg h with
                 | Num m => Num (HourSpec.feet m)
                 | _ => Null
                 end |}.

Lemma point_distance (h : hour) :
  WaveSpec.distance now (point h) = FreshSpec.distance now h.
Proof.
  unfold WaveSpec.distance, FreshSpec.distance, HourSpec.distance, point. simpl.
  destruct (h_sg h); reflexivity.
Qed.

Lemma pick_fresh (hs : list hour) :
  let picked :=
    match Part004.scan now (map point hs) None None with
    | Some best => w_waveFt best
    | None => Null
    end in
  (Forall (fun h => FreshSpec.distance now h = None) hs /\ picked = Null) \/
  (exists pre h post d m,
      hs = pre ++ h :: post /\ h_sg h = Num m /\
      FreshSpec.distance now h = Some d /\
      picked = Num (HourSpec.feet m) /\
      FreshSpec.all_farther now d pre /\ FreshSpec.none_closer now d post).
Proof.
  intro picked. unfold picked.
  destruct (scan_invariant now (map point hs) None None)
    as [[Hs Hall] | (pre' & w & post' & d & Heq & Hd & _ & Hs & Hpre & Hpost)].
  - left. split; [| rewrite Hs; reflexivity].
    apply Forall_forall. intros h Hin.
    destruct (FreshSpec.distance now h) as [d |] eqn:Hd; [| reflexivity].
    rewrite <- point_distance in Hd.
    specialize (Hall (point h) d (in_map point hs h Hin) Hd). discriminate.
  - right. apply map_eq_app in Heq.
    destruct Heq as (pre & rest & -> & Hpre_eq & Hrest).
    apply map_eq_cons in Hrest.
    destruct Hrest as (h & post & -> & Hw & Hpost_eq).
    subst w pre' post'.
    rewrite point_distance in Hd.
    assert (Hm : exists m, h_sg h = Num m).
    { unfold FreshSpec.distance in Hd. destruct (h_sg h) as [| | m];
        try discriminate. exists m. reflexivity. }
    destruct Hm as [m Hm].
    exists pre, h, post, d, m. repeat split; try assumption.
    + rewrite Hs. simpl. rewrite Hm. reflexivity.
    + intros h' d' Hin Hd'. rewrite <- point_distance in Hd'.
      apply (Hpre (point h') d' (in_map point pre h' Hin) Hd').
    + intros h' d' Hin Hd'. rewrite <- point_distance in Hd'.
      apply (Hpost (point h') d' (in_map point post h' Hin) Hd').
Qed.

End FreshForecast.

(** X15.  In part_001 the wave of the report comes from a fresh forecast:
    [pickCurrentWave] applied to the result of [fetchStormglassFresh] gives
    the height in feet, rounded to one decimal, of the hour nearest to now
    among the hours that have a numeric height, the first such hour on a tie;
    hours without a height are passed over, and the result is null when no
    hour has one. *)
Theorem fresh_forecast_pick (now stamp : Z) (hs : list hour) :
  exists f,
    Part001Full.fetchStormglassFresh stamp
      (Returned {| ok := true; payload := Returned {| hours := Some hs |} |})
      = Returned f /\
    ((Forall (fun h => FreshSpec.distance now h = None) hs /\
      Part004.pickCurrentWave now (Some f) = Null) \/
     (exists pre h post d m,
         hs = pre ++ h :: post /\ h_sg h = Num m /\
         FreshSpec.distance now h = Some d /\
         Part004.pickCurrentWave now (Some f) = Num (HourSpec.feet m) /\
         FreshSpec.all_farther now d pre /\ FreshSpec.none_closer now d post)).
Proof.
  eexists. split; [reflexivity |].
  unfold Part004.pickCurrentWave. simpl s_waves.
  destruct (pick_fresh now hs) as [[Hall Hp] | (pre & h & post & d & m & H)].
  - left. split; [exact Hall |].
    destruct hs as [| h0 hs']; [reflexivity | exact Hp].
  - right. exists pre, h, post, d, m.
    destruct H as (Heq & Hm & Hd & Hp & Hpre & Hpost).
    repeat split; try assumption.
    destruct hs as [| h0 hs']; [destruct pre; discriminate | exact Hp].
Qed.

(** ** The alert classes *)

Section AlertFacts.

Import Alerts.

(** Every alert class on the page was put there by one of the calls [cs]. *)
Let only (cs : list (string * string)) (p : page) : Prop :=
  forall e c, In e p -> is_alert c = true -> In c (snd e) -> In (fst e, c) cs.

Lemma in_remove_class (c x : string) (cl : list string) :
  In x (remove_class c cl) -> In x cl /\ x <> c.
Proof.
  unfold remove_class. intro H. apply filter_In in H. destruct H as [Hin Hneq].
  split; [exact Hin |]. intros ->. rewrite String.eqb_refl in Hneq. discriminate.
Qed.

Lemma clearAlerts_only (p : page) : only [] (clearAlerts p).
Proof.
  intros e c Hin Ha Hc. unfold clearAlerts in Hin. apply in_map_iff in Hin.
  destruct Hin as (e0 & <- & _). simpl in Hc.
  apply in_remove_class in Hc. destruct Hc as [Hc Hy].
  apply in_remove_class in Hc. destruct Hc as [_ Hr].
  unfold is_alert in Ha. apply orb_prop in Ha.
  destruct Ha as [Ha | Ha]; apply String.eqb_eq in Ha; contradiction.
Qed.

Lemma in_add_class (c x : string) (cl : list string) :
  In x (add_class c cl) -> x = c \/ In x cl.
Proof.
  unfold add_class. destruct (has_class c cl); [now right |].
  intro H. apply in_app_or in H. destruct H as [H | [H | []]]; auto.
Qed.

Lemma add_class_keeps (c x : string) (cl : list string) :
  In x cl -> In x (add_class c cl).
Proof.
  unfold add_class. destruct (has_class c cl); [trivial |].
  intro H. apply in_or_app. now left.
Qed.

Lemma add_class_has (c : string) (cl : list string) : In c (add_class c cl).
Proof.
  unfold add_class, has_class. destruct (existsb (String.eqb c) cl) eqn:H.
  - apply existsb_exists in H. destruct H as (x & Hin & Hx).
    apply String.eqb_eq in Hx. now subst.
  - apply in_or_app. right. now left.
Qed.

Lemma mark_only (cs : list (string * string)) (id cls : string) (p p' : page) :
  only cs p -> mark id cls p = Some p' -> only ((id, cls) :: cs) p'.
Proof.
  revert p'. induction p as [| e p IH]; intros p' Ho Hm; [discriminate |].
  simpl in Hm. destruct (String.eqb (fst e) id) eqn:He.
  - injection Hm as <-. apply String.eqb_eq in He.
    intros e' c [<- | Hin] Ha Hc; simpl in *.
    + apply in_add_class in Hc. destruct Hc as [-> | Hc].
      * left. now rewrite He.
      * right. apply (Ho e c); [now left | exact Ha | exact Hc].
    + right. apply (Ho e' c); [now right | exact Ha | exact Hc].
  - destruct (mark id cls p) as [q |] eqn:Hq; [| discriminate].
    injection Hm as <-.
    assert (Ho' : only cs p) by (intros e' c Hin; apply Ho; now right).
    specialize (IH q Ho' eq_refl).
    intros e' c [<- | Hin] Ha Hc.
    + right. apply (Ho e c); [now left | exact Ha | exact Hc].
    + apply (IH e' c Hin Ha Hc).
Qed.

Lemma only_incl (cs cs' : list (string * string)) (p : page) :
  incl cs cs' -> only cs p -> only cs' p.
Proof. intros Hi Ho e c Hin Ha Hc. apply Hi. apply (Ho e c); assumption. Qed.

Lemma run_only (calls : list (string * string)) :
  forall cs p, only cs p -> only (calls ++ cs) (fst (run calls p)).
Proof.
  induction calls as [| [id cls] calls IH]; intros cs p Ho; [exact Ho |].
  simpl. destruct (mark id cls p) as [p' |] eqn:Hm.
  - eapply only_incl; [| apply (IH ((id, cls) :: cs) p' (mark_only _ _ _ _ _ Ho Hm))].
    intros x Hx. apply in_app_or in Hx. destruct Hx as [Hx | [<- | Hx]].
    + right. apply in_or_app. now left.
    + now left.
    + right. apply in_or_app. now right.
  - simpl. eapply only_incl; [| exact Ho].
    intros x Hx. right. apply in_or_app. now right.
Qed.

Lemma applyAlertLogic_only (gulf bay : StationObservation) (p : page) :
  only (calls gulf bay) (fst (applyAlertLogic gulf bay p)).
Proof.
  unfold applyAlertLogic.
  pose proof (run_only (calls gulf bay) [] _ (clearAlerts_only p)) as H.
  rewrite app_nil_r in H. exact H.
Qed.

(** No id is marked with both colours. *)
Lemma calls_one_colour (gulf bay : StationObservation) (id : string) :
  In (id, "alert-red"%string) (calls gulf bay) ->
  In (id, "alert-yellow"%string) (calls gulf bay) -> False.
Proof.
  unfold calls.
  destruct (waterLow gulf bay), (airLow gulf bay), (windHigh gulf bay);
    simpl; intros Hr Hy;
    repeat (destruct Hy as [Hy | Hy]; [try discriminate |]); try contradiction;
    injection Hy as <-;
    repeat (destruct Hr as [Hr | Hr]; [try discriminate |]); contradiction.
Qed.

Lemma has_class_in (c : string) (cl : list string) :
  has_class c cl = true -> In c cl.
Proof.
  unfold has_class. intro H. apply existsb_exists in H.
  destruct H as (x & Hin & Hx). apply String.eqb_eq in Hx. now subst.
Qed.

End AlertFacts.

(** X16.  After [applyAlertLogic], whether it completed or threw on a missing
    element, every alert class on the page was put there by this call: the
    alerts of the previous report do not survive, and no element carries
    alert-red and alert-yellow together. *)
Theorem applyAlertLogic_alerts_are_current (gulf bay : StationObservation)
    (p : Alerts.page) (e : Alerts.element) :
  In e (fst (Alerts.applyAlertLogic gulf bay p)) ->
  (forall c, Alerts.is_alert c = true -> In c (snd e) ->
             In (fst e, c) (Alerts.calls gulf bay)) /\
  ~ (Alerts.has_class "alert-red" (snd e) = true /\
     Alerts.has_class "alert-yellow" (snd e) = true).
Proof.
  intro Hin.
  assert (Hcur : forall c, Alerts.is_alert c = true -> In c (snd e) ->
                           In (fst e, c) (Alerts.calls gulf bay)).
  { intros c Ha Hc. apply (applyAlertLogic_only gulf bay p e c Hin Ha Hc). }
  split; [exact Hcur |].
  intros [Hr Hy]. apply has_class_in in Hr, Hy.
  apply (calls_one_colour gulf bay (fst e)); apply Hcur;
    (reflexivity || assumption).
Qed.

Lemma applyAlertLogic_alerts_are_current_witness :
  In ("gulfWater"%string, ["value"; "alert-red"]%string)
     (fst (Alerts.applyAlertLogic SamplePage.gulf SamplePage.bay SamplePage.board)) /\
  ~ (Alerts.has_class "alert-red" ["value"; "alert-red"]%string = true /\
     Alerts.has_class "alert-yellow" ["value"; "alert-red"]%string = true).
Proof.
  assert (Hin : In ("gulfWater"%string, ["value"; "alert-red"]%string)
                  (fst (Alerts.applyAlertLogic SamplePage.gulf SamplePage.bay
                          SamplePage.board)))
    by (vm_compute; tauto).
  split; [exact Hin |].
  exact (proj2 (applyAlertLogic_alerts_are_current _ _ _ _ Hin)).
Defined.

Section AlertMarks.

Import Alerts.

Lemma mark_classes (id cls : string) (p p' : page) :
  mark id cls p = Some p' ->
  forall id', classes id' p' =
              if String.eqb id' id
              then option_map (add_class cls) (classes id' p)
              else classes id' p.
Proof.
  revert p'. induction p as [| e p IH]; intros p' Hm id'; [discriminate |].
  simpl in Hm. destruct (String.eqb_spec (fst e) id) as [He | He].
  - injection Hm as <-. simpl. rewrite He.
    rewrite (String.eqb_sym id' id).
    destruct (String.eqb id id'); reflexivity.
  - destruct (mark id cls p) as [q |] eqn:Hq; [| discriminate].
    injection Hm as <-. simpl.
    destruct (String.eqb_spec (fst e) id') as [He' | He'].
    + destruct (String.eqb_spec id' id) as [Hi | Hi]; [congruence | reflexivity].
    + apply (IH q eq_refl).
Qed.

Lemma mark_found (id cls : string) (p : page) :
  classes id p <> None -> exists p', mark id cls p = Some p'.
Proof.
  induction p as [| e p IH]; simpl; [congruence |].
  destruct (String.eqb (fst e) id); [eexists; reflexivity |].
  intro H. destruct (IH H) as [q Hq]. rewrite Hq. eexists. reflexivity.
Qed.

Lemma classes_clearAlerts (id : string) (p : page) :
  classes id (clearAlerts p) =
  option_map (fun cl => remove_class "alert-yellow" (remove_class "alert-red" cl))
             (classes id p).
Proof.
  induction p as [| e p IH]; simpl; [reflexivity |].
  destruct (String.eqb (fst e) id); [reflexivity | exact IH].
Qed.

(** When every element to mark is on the page, the calls all succeed, each
    leaves its class on its element, and no class is taken away. *)
Lemma run_marks (calls : list (string * string)) :
  forall p,
    (forall id cls, In (id, cls) calls -> classes id p <> None) ->
    snd (run calls p) = None /\
    (forall id cl c, classes id p = Some cl -> In c cl ->
                     exists cl', classes id (fst (run calls p)) = Some cl' /\
                                 In c cl') /\
    (forall id cls, In (id, cls) calls ->
                    exists cl', classes id (fst (run calls p)) = Some cl' /\
                                In cls cl').
Proof.
  induction calls as [| [id0 cls0] calls IH]; intros p Hall.
  - simpl. split; [reflexivity |]. split.
    + intros id cl c Hc Hin. exists cl. split; assumption.
    + intros id cls [].
  - destruct (mark_found id0 cls0 p (Hall id0 cls0 (or_introl eq_refl)))
      as [p' Hm].
    simpl. rewrite Hm.
    pose proof (mark_classes id0 cls0 p p' Hm) as Hcl.
    assert (Hall' : forall id cls, In (id, cls) calls -> classes id p' <> None).
    { intros id cls Hin. rewrite Hcl.
      pose proof (Hall id cls (or_intror Hin)) as Hp.
      destruct (String.eqb id id0); [| exact Hp].
      destruct (classes id p); [discriminate | congruence]. }
    destruct (IH p' Hall') as (Hok & Hkeep & Hput).
    split; [exact Hok |]. split.
    + intros id cl c Hc Hin.
      assert (Hp' : exists cl1, classes id p' = Some cl1 /\ In c cl1).
      { rewrite Hcl. destruct (String.eqb id id0).
        - rewrite Hc. simpl. eexists. split; [reflexivity |].
          apply add_class_keeps. exact Hin.
        - exists cl. split; assumption. }
      destruct Hp' as (cl1 & Hc1 & Hin1). apply (Hkeep id cl1 c Hc1 Hin1).
    + intros id cls [Heq | Hin].
      * injection Heq as <- <-.
        pose proof (Hall id0 cls0 (or_introl eq_refl)) as Hp.
        destruct (classes id0 p) as [cl |] eqn:Hc; [| congruence].
        assert (Hc1 : classes id0 p' = Some (add_class cls0 cl)).
        { rewrite Hcl, String.eqb_refl, Hc. reflexivity. }
        apply (Hkeep id0 _ cls0 Hc1). apply add_class_has.
      * apply Hput. exact Hin.
Qed.

Lemma calls_ids (gulf bay : StationObservation) (id cls : string) :
  In (id, cls) (calls gulf bay) -> In id ids.
Proof.
  unfold calls, ids.
  destruct (waterLow gulf bay), (airLow gulf bay), (windHigh gulf bay);
    simpl; intro H;
    repeat (destruct H as [H | H]; [injection H as <- <-; tauto |]);
    contradiction.
Qed.

End AlertMarks.

(** X17.  On a page that has the nine elements, [applyAlertLogic] does not
    throw and every class it marks is on its element afterwards.  A water
    temperature that is null, a reading the buoy did not give, compares as 0
    and raises the red water alert on the three water elements. *)
Theorem applyAlertLogic_marks (gulf bay : StationObservation) (p : Alerts.page)
    (Hpage : forall id, In id Alerts.ids -> Alerts.classes id p <> None) :
  snd (Alerts.applyAlertLogic gulf bay p) = None /\
  (forall id cls,
      In (id, cls) (Alerts.calls gulf bay) ->
      exists cl, Alerts.classes id (fst (Alerts.applyAlertLogic gulf bay p))
                 = Some cl /\ In cls cl) /\
  (waterF gulf = Null \/ waterF bay = Null ->
   forall id, In id ["waterLabel"; "gulfWater"; "bayWater"]%string ->
              In (id, "alert-red"%string) (Alerts.calls gulf bay)).
Proof.
  assert (Hall : forall id cls, In (id, cls) (Alerts.calls gulf bay) ->
                                Alerts.classes id (Alerts.clearAlerts p) <> None).
  { intros id cls Hin. rewrite classes_clearAlerts.
    pose proof (Hpage id (calls_ids gulf bay id cls Hin)) as H.
    destruct (Alerts.classes id p); [discriminate | congruence]. }
  destruct (run_marks (Alerts.calls gulf bay) (Alerts.clearAlerts p) Hall)
    as (Hok & _ & Hput).
  split; [exact Hok |]. split; [exact Hput |].
  intros Hnull id Hid. unfold Alerts.calls.
  assert (Hw : Alerts.waterLow gulf bay = true).
  { unfold Alerts.waterLow. destruct Hnull as [-> | ->]; simpl;
      [reflexivity | apply orb_true_r]. }
  rewrite Hw. simpl Alerts.when. apply in_or_app. left.
  simpl in Hid. simpl. intuition (subst; auto).
Qed.

Lemma applyAlertLogic_marks_witness :
  snd (Alerts.applyAlertLogic SamplePage.gulf SamplePage.bay SamplePage.board)
    = None /\
  exists cl, Alerts.classes "bayWater"
               (fst (Alerts.applyAlertLogic SamplePage.gulf SamplePage.bay
                       SamplePage.board)) = Some cl /\
             In "alert-red"%string cl.
Proof.
  assert (Hpage : forall id, In id Alerts.ids ->
                             Alerts.classes id SamplePage.board <> None).
  { intros id Hid. unfold Alerts.ids in Hid. simpl in Hid.
    repeat (destruct Hid as [<- | Hid]; [vm_compute; discriminate |]).
    contradiction. }
  destruct (applyAlertLogic_marks SamplePage.gulf SamplePage.bay
              SamplePage.board Hpage) as (Hok & Hput & Hnull).
  split; [exact Hok |].
  apply Hput. apply Hnull; [left; reflexivity | simpl; tauto].
Defined.

(** ** Printing with one decimal and parsing back *)

Section DecimalRoundTrip.

Import Str.

Let ustr := DecimalString.NilEmpty.string_of_uint.

Let step := fun (acc : Z) (c : ascii) => 10 * acc + digit_value c.

Lemma digit_facts (c : ascii) :
  is_digit c = true ->
  is_space c = false /\ Ascii.eqb c "-"%char = false /\
  Ascii.eqb c "+"%char = false /\ Ascii.eqb c "."%char = false.
Proof.
  destruct c as [[] [] [] [] [] [] [] []]; vm_compute;
    intuition discriminate.
Qed.

Lemma ustr_digits (d : Decimal.uint) :
  Forall (fun c => is_digit c = true) (chars (ustr d)).
Proof.
  induction d; simpl; constructor; (reflexivity || assumption).
Qed.

Lemma ustr_fold (d : Decimal.uint) :
  forall d' : Decimal.uint,
    fold_left step (chars (ustr d)) (Z.of_N (DecimalPos.Unsigned.of_lu d')) =
    Z.of_N (DecimalPos.Unsigned.of_lu (Decimal.revapp d d')).
Proof.
  induction d; intro d'; [reflexivity | ..];
    simpl chars; simpl fold_left; simpl Decimal.revapp;
    rewrite <- IHd; f_equal; unfold step;
    match goal with
    | |- context [digit_value ?c] =>
        let v := eval vm_compute in (digit_value c) in
        change (digit_value c) with v
    end;
    cbn [DecimalPos.Unsigned.of_lu]; lia.
Qed.

Lemma ustr_value (n : N) :
  digits_value (chars (ustr (N.to_uint n))) = Z.of_N n.
Proof.
  unfold digits_value.
  change 0 with (Z.of_N (DecimalPos.Unsigned.of_lu Decimal.Nil)).
  fold step. rewrite ustr_fold. fold (Decimal.rev (N.to_uint n)).
  rewrite <- DecimalPos.Unsigned.of_uint_alt.
  change (Pos.of_uint (N.to_uint n)) with (N.of_uint (N.to_uint n)).
  now rewrite DecimalN.Unsigned.of_to.
Qed.

Lemma to_uint_nonnil (n : N) : N.to_uint n <> Decimal.Nil.
Proof.
  destruct n; simpl; [discriminate | apply DecimalPos.Unsigned.to_uint_nonnil].
Qed.

Lemma nilzero_ustr (n : N) :
  DecimalString.NilZero.string_of_uint (N.to_uint n) = ustr (N.to_uint n).
Proof.
  pose proof (to_uint_nonnil n) as H.
  unfold DecimalString.NilZero.string_of_uint.
  destruct (N.to_uint n); [congruence | reflexivity ..].
Qed.

Lemma ustr_nonempty (d : Decimal.uint) :
  d <> Decimal.Nil -> chars (ustr d) <> [].
Proof. destruct d; simpl; congruence. Qed.

Lemma span_digits_all (l rest : list ascii) :
  Forall (fun c => is_digit c = true) l ->
  match rest with
  | c :: _ => is_digit c = false
  | [] => True
  end ->
  span_digits (l ++ rest) = (l, rest).
Proof.
  intros Hl Hrest. induction Hl as [| c l Hc _ IH]; simpl.
  - destruct rest as [| c rest]; [reflexivity |]. simpl. now rewrite Hrest.
  - rewrite Hc, IH. reflexivity.
Qed.

(** A sign, digits, a point and digits parse as the decimal they write. *)
Lemma parse_decimal (neg : bool) (W F : list ascii) :
  W <> [] -> F <> [] ->
  Forall (fun c => is_digit c = true) W ->
  Forall (fun c => is_digit c = true) F ->
  parseFloat_chars ((if neg then ["-"%char] else []) ++ W ++ "."%char :: F) =
  Num (scale (if neg then - digits_value (W ++ F) else digits_value (W ++ F))
             (- Z.of_nat (List.length F))).
Proof.
  intros HW HF HWd HFd.
  destruct W as [| c W]; [congruence |].
  inversion HWd as [| ? ? Hc HWd']; subst.
  destruct (digit_facts c Hc) as (Hsp & Hm & Hp & Hdot).
  unfold parseFloat_chars.
  assert (Hsign : sign_of (drop_space ((if neg then ["-"%char] else []) ++
                                         (c :: W) ++ "."%char :: F)) =
                  (neg, (c :: W) ++ "."%char :: F)).
  { destruct neg; simpl.
    - reflexivity.
    - rewrite Hsp. simpl. rewrite Hm, Hp. reflexivity. }
  rewrite Hsign.
  rewrite (span_digits_all (c :: W) ("."%char :: F) HWd) by reflexivity.
  simpl. rewrite <- (app_nil_r F) at 1.
  rewrite (span_digits_all F [] HFd) by exact I.
  destruct F as [| f F]; [congruence |].
  simpl exponent_of. reflexivity.
Qed.

Lemma one_digit (r : N) :
  (r < 10)%N -> exists c, chars (ustr (N.to_uint r)) = [c] /\
                          is_digit c = true /\ digit_value c = Z.of_N r.
Proof.
  intro H.
  assert (Hr : (r = 0 \/ r = 1 \/ r = 2 \/ r = 3 \/ r = 4 \/ r = 5 \/ r = 6 \/
               r = 7 \/ r = 8 \/ r = 9)%N) by lia.
  repeat (destruct Hr as [-> | Hr]; [eexists; repeat split |]).
  subst. eexists. repeat split.
Qed.

Lemma digits_value_snoc (l : list ascii) (c : ascii) :
  digits_value (l ++ [c]) = 10 * digits_value l + digit_value c.
Proof. unfold digits_value. rewrite fold_left_app. reflexivity. Qed.

(** The characters of a number printed with one decimal. *)
Lemma fixed1_chars (neg : bool) (t : N) :
  exists W F,
    chars ((if neg then "-" else EmptyString) ++
           DecimalString.NilZero.string_of_uint (N.to_uint (t / 10)) ++ "." ++
           DecimalString.NilZero.string_of_uint (N.to_uint (t mod 10)))%string =
    (if neg then ["-"%char] else []) ++ W ++ "."%char :: F /\
    W <> [] /\ F <> [] /\
    Forall (fun c => is_digit c = true) W /\
    Forall (fun c => is_digit c = true) F /\
    List.length F = 1%nat /\
    digits_value (W ++ F) = Z.of_N t.
Proof.
  rewrite !nilzero_ustr.
  destruct (one_digit (t mod 10)) as (c & Hc & Hd & Hv);
    [apply N.mod_lt; discriminate |].
  exists (chars (ustr (N.to_uint (t / 10)))), [c].
  repeat split.
  - rewrite !chars_app, Hc. destruct neg; reflexivity.
  - apply ustr_nonempty, to_uint_nonnil.
  - discriminate.
  - apply ustr_digits.
  - constructor; [exact Hd | constructor].
  - rewrite digits_value_snoc, ustr_value, Hv.
    rewrite (N.div_mod t 10) at 3 by discriminate.
    rewrite N2Z.inj_add, N2Z.inj_mul. reflexivity.
Qed.

Lemma parse_fixed (neg : bool) (t : N) :
  parseFloat_chars
    (chars ((if neg then "-" else EmptyString) ++
            DecimalString.NilZero.string_of_uint (N.to_uint (t / 10)) ++ "." ++
            DecimalString.NilZero.string_of_uint (N.to_uint (t mod 10)))%string) =
  Num (scale (if neg then - Z.of_N t else Z.of_N t) (-1)).
Proof.
  destruct (fixed1_chars neg t) as (W & F & Hc & HW & HF & HWd & HFd & Hlen & Hv).
  rewrite Hc, (parse_decimal neg W F HW HF HWd HFd), Hlen, Hv. reflexivity.
Qed.

End DecimalRoundTrip.

Section RoundTripValue.

Local Open Scope Q_scope.

Lemma tenths_value (q : Q) :
  Z.of_N (Z.to_N (Qfloor (Qabs q * 10 + (1 # 2)))) =
  Qfloor (Qabs q * 10 + (1 # 2)).
Proof.
  apply Z2N.id.
  assert (H : (0 <= Qfloor (Qabs q * 10 + (1 # 2)) < 1 + Qfloor (Qabs q * 10 + (1 # 2)))%Z)
    by (split; [| lia];
        apply (Qfloor_resp_le 0 (Qabs q * 10 + (1 # 2)));
        pose proof (Qabs_nonneg q); lra).
  lia.
Qed.

Lemma scale_tenths (m : Z) : scale m (-1) = Qred (m # 10).
Proof. reflexivity. Qed.

End RoundTripValue.

(** X18.  Printing a number with [toFixed(1)] and reading the text back with
    [parseFloat], as part_003 does for its temperatures and speeds, gives the
    number rounded to one decimal, halves away from zero; NaN prints as NaN
    and reads back as NaN. *)
Theorem parseFloat_toFixed_round_trip (q : Q) :
  parseFloat (WeatherCjs.fixed1_string (Num q)) = Util.oneDec (Num q) /\
  parseFloat (WeatherCjs.fixed1_string NaN) = Util.oneDec NaN.
Proof.
  split; [| reflexivity].
  unfold WeatherCjs.fixed1_string, parseFloat, Util.oneDec, toFixed1.
  set (t := Z.to_N (Qfloor (Qabs q * 10 + (1 # 2)))).
  pose proof (tenths_value q) as Ht. fold t in Ht.
  destruct (Qle_bool 0 q) eqn:Hq.
  - pose proof (parse_fixed false t) as Hp. cbv iota in Hp. rewrite Hp, Ht.
    f_equal. rewrite scale_tenths.
    apply Qred_complete. apply Qle_bool_iff in Hq.
    rewrite (Qfloor_comp _ (q * 10 + (1 # 2)))
      by (rewrite (Qabs_pos q Hq); reflexivity).
    rewrite (Qmake_Qdiv _ 10). reflexivity.
  - pose proof (parse_fixed true t) as Hp. cbv iota in Hp. rewrite Hp, Ht.
    f_equal. rewrite scale_tenths.
    apply Qred_complete.
    assert (Hneg : (q <= 0)%Q).
    { destruct (Qlt_le_dec q 0) as [H | H]; [lra |].
      apply Qle_bool_iff in H. congruence. }
    rewrite (Qfloor_comp _ (- q * 10 + (1 # 2)))
      by (rewrite (Qabs_neg q Hneg); reflexivity).
    rewrite (Qmake_Qdiv _ 10). rewrite inject_Z_opp.
    change (inject_Z (Z.pos 10)) with 10%Q. field.
Qed.

(** ** The USHarbors table *)

Section TsvFacts.

Import Tsv TsvSpec.

Lemma span_digits_head (c : ascii) (l ip r : list ascii) :
  span_digits (c :: l) = (ip, r) -> ip <> [] -> Str.is_digit c = true.
Proof.
  simpl. destruct (Str.is_digit c); [reflexivity |].
  intro H. injection H as <- _. congruence.
Qed.

Lemma parseFloat_chars_digits (l l1 ip r : list ascii) (neg : bool) :
  sign_of (Str.drop_space l) = (neg, l1) ->
  span_digits l1 = (ip, r) -> ip <> [] ->
  exists q, parseFloat_chars l = Num q.
Proof.
  intros Hsign Hspan Hip. unfold parseFloat_chars. rewrite Hsign, Hspan.
  destruct (match r with
            | [] => ([], [])
            | c :: l2' => if Ascii.eqb c "."%char then span_digits l2' else ([], r)
            end) as [fp l3].
  destruct ip; [congruence |]. eexists. reflexivity.
Qed.

(** A text that passes [validNum] is read as a number by [parseFloat]. *)
Lemma validNum_parses (s : string) :
  validNum_chars (Str.chars s) = true -> exists q, parseFloat s = Num q.
Proof.
  unfold parseFloat, validNum_chars.
  destruct (Str.chars s) as [| c l]; [discriminate |].
  destruct (Ascii.eqb_spec c "-"%char) as [-> | Hc].
  - destruct (span_digits l) as [ip r] eqn:Hs.
    destruct ip as [| d ip]; [discriminate |]. intros _.
    apply (parseFloat_chars_digits _ l (d :: ip) r true);
      [reflexivity | exact Hs | discriminate].
  - destruct (span_digits (c :: l)) as [ip r] eqn:Hs.
    destruct ip as [| d ip]; [discriminate |]. intros _.
    assert (Hd : Str.is_digit c = true)
      by (apply (span_digits_head c l (d :: ip) r Hs); discriminate).
    destruct (digit_facts c Hd) as (Hsp & Hm & Hp & _).
    apply (parseFloat_chars_digits _ (c :: l) (d :: ip) r false);
      [| exact Hs | discriminate].
    simpl. rewrite Hsp. simpl. rewrite Hm, Hp. reflexivity.
Qed.

Lemma push_event_good (t v : option string) (events : list event) :
  Forall good_event events ->
  Forall good_event (push_event t v events) /\
  (List.length (push_event t v events) <= S (List.length events))%nat.
Proof.
  intro H. unfold push_event.
  destruct (validTime t && validNum v)%bool eqn:Hv; [| split; [exact H | lia]].
  apply andb_prop in Hv. destruct Hv as [Ht Hn].
  destruct t as [time |]; [| discriminate].
  destruct v as [vs |]; [| discriminate].
  split.
  - apply Forall_app. split; [exact H |].
    constructor; [| constructor]. split; [exact Ht |].
    simpl. apply validNum_parses. exact Hn.
  - rewrite length_app. simpl. lia.
Qed.

Lemma good_time_if (t : option string) :
  good_time (if validTime t then t else None).
Proof.
  destruct (validTime t) eqn:H; [| exact I].
  destruct t; [exact H | exact I].
Qed.

Lemma record_of_good (cols : list string) : good_record (record_of cols).
Proof.
  unfold record_of, good_record. cbv zeta. cbn [high low sunrise sunset].
  destruct (push_event_good (nth_error cols 2) (nth_error cols 3) [])
    as [H1 L1]; [constructor |].
  destruct (push_event_good (nth_error cols 4) (nth_error cols 5) _ H1)
    as [H2 L2].
  destruct (push_event_good (nth_error cols 6) (nth_error cols 7) [])
    as [H3 L3]; [constructor |].
  destruct (push_event_good (nth_error cols 8) (nth_error cols 9) _ H3)
    as [H4 L4].
  cbn [List.length] in L1, L3.
  repeat split; try assumption; try lia; apply good_time_if.
Qed.

Lemma turn_good (d : days) (line : string) :
  Forall (fun kv => good_record (snd kv)) d ->
  Forall (fun kv => good_record (snd kv)) (turn d line).
Proof.
  intro H. unfold turn. destruct (negb (Str.truthy line)); [exact H |].
  destruct (parseInt _); [| exact H].
  constructor; [apply record_of_good | exact H].
Qed.

Lemma fold_turn_good (lines : list string) (d : days) :
  Forall (fun kv => good_record (snd kv)) d ->
  Forall (fun kv => good_record (snd kv)) (fold_left turn lines d).
Proof.
  revert d. induction lines as [| l lines IH]; intros d H; [exact H |].
  simpl. apply IH. apply turn_good. exact H.
Qed.

Lemma lookup_in (day : Z) (d : days) (r : day_record) :
  lookup day d = Some r -> exists k, In (k, r) d.
Proof.
  induction d as [| [k r0] d IH]; simpl; [discriminate |].
  destruct (k =? day).
  - intro H. injection H as <-. exists k. now left.
  - intro H. destruct (IH H) as [k' Hk]. exists k'. now right.
Qed.

Lemma parsed_record_good (tsv : string) (day : Z) (r : day_record) :
  lookup day (parseUsharborsTSV tsv) = Some r -> good_record r.
Proof.
  intro H. apply lookup_in in H. destruct H as [k Hin].
  pose proof (fold_turn_good (map Str.trim (Str.split_lines tsv)) []
                (Forall_nil _)) as Hall.
  rewrite Forall_forall in Hall. apply (Hall (k, r) Hin).
Qed.



End TsvFacts.

(** X19.  Every record [parseUsharborsTSV] keeps for a day is well formed,
    whatever the text of the table: it has at most two high and two low
    events, each with a time of the form h:mm or hh:mm and a height that is a
    number, never NaN, and its sunrise and sunset are null or such a time. *)
Theorem parseUsharborsTSV_records_well_formed (tsv : string) (day : Z)
    (r : Tsv.day_record)
    (Hday : Tsv.lookup day (Tsv.parseUsharborsTSV tsv) = Some r) :
  TsvSpec.good_record r.
Proof. exact (parsed_record_good tsv day r Hday). Qed.

Lemma parseUsharborsTSV_records_well_formed_witness :
  exists r,
    Tsv.lookup 7 (Tsv.parseUsharborsTSV SampleTsv.table) = Some r /\
    Tsv.sunset r = None /\ List.length (Tsv.high r) = 1%nat /\
    TsvSpec.good_record r.
Proof.
  eexists. split; [vm_compute; reflexivity |].
  split; [reflexivity |]. split; [reflexivity |].
  apply (parseUsharborsTSV_records_well_formed SampleTsv.table 7).
  vm_compute. reflexivity.
Defined.


(** ** A feed without data rows *)

Section NoRows.

Lemma filter_none {A : Type} (p : A -> bool) (l : list A) :
  Forall (fun x => p x = false) l -> filter p l = [].
Proof.
  induction 1 as [| x l Hx _ IH]; simpl; [reflexivity |].
  now rewrite Hx.
Qed.

Lemma split_nl_go_nonempty (l cur : list ascii) : Str.split_nl_go l cur <> [].
Proof.
  revert cur. induction l as [| c l IH]; intro cur; simpl; [discriminate |].
  destruct (Ascii.eqb c "010"%char); [discriminate | apply IH].
Qed.

End NoRows.

(** X21.  When the payload of a buoy feed has only comment lines, the header
    lines without any observation, [parseBuoy] of part_003 falls off its
    loop and returns undefined, and the report of the handler, still status
    200, has no member for that station at all. *)
Theorem part003_no_rows_no_member (toLocalHM : string -> string)
    (toLocal : Z -> Z) (w : Blocks.world) (raw : string)
    (Hfeed : Blocks.gulf_feed w = Returned raw)
    (Hlines : Forall (fun l => Str.startsWith "#" l = true)
                     (Str.split_nl (Str.trim raw))) :
  Part003.parseBuoy (Returned raw) = None /\
  statusCode (Blocks.handler_003 toLocalHM toLocal w) = 200 /\
  get_field "gulf" (body (Blocks.handler_003 toLocalHM toLocal w)) = None.
Proof.
  assert (Hp : Part003.parseBuoy (Returned raw) = None).
  { unfold Part003.parseBuoy.
    destruct (Str.split_nl (Str.trim raw)) as [| l ls] eqn:Hs.
    - exfalso. apply (split_nl_go_nonempty (Str.chars (Str.trim raw)) []).
      exact Hs.
    - inversion Hlines as [| ? ? Hl Hls]; subst.
      unfold Str.find_. simpl find. rewrite Hl.
      rewrite filter_none; [reflexivity |].
      apply Forall_forall. intros x Hx. rewrite Forall_forall in Hlines.
      rewrite (Hlines x Hx). reflexivity. }
  split; [exact Hp |]. split; [reflexivity |].
  unfold Blocks.handler_003. cbv zeta. rewrite Hfeed, Hp. simpl.
  destruct (Part003.parseBuoy (Blocks.bay_feed w)); reflexivity.
Qed.

Lemma part003_no_rows_no_member_witness :
  Part003.parseBuoy (Returned SampleOutage.headers_only) = None /\
  get_field "gulf"
    (body (Blocks.handler_003 (fun s => s) (fun t => t)
             {| Blocks.now := 0;
                Blocks.gulf_feed := Returned SampleOutage.headers_only;
                Blocks.bay_feed := Returned Sample.buoy_text;
                Blocks.tide_api := Returned Sample.tide_document;
                Blocks.sun_api := Threw "FetchError";
                Blocks.wave_api := Threw "FetchError" |})) = None.
Proof.
  destruct (part003_no_rows_no_member (fun s => s) (fun t => t)
              {| Blocks.now := 0;
                 Blocks.gulf_feed := Returned SampleOutage.headers_only;
                 Blocks.bay_feed := Returned Sample.buoy_text;
                 Blocks.tide_api := Returned Sample.tide_document;
                 Blocks.sun_api := Threw "FetchError";
                 Blocks.wave_api := Threw "FetchError" |}
              SampleOutage.headers_only eq_refl) as (H1 & _ & H3).
  - vm_compute. repeat constructor.
  - split; assumption.
Defined.

(** X22.  On a successful response whose payload has no data row (every
    line is blank or a comment), functions/weather.js throws "No buoy rows"
    and its safe wrapper gives the observation of nulls with the direction
    "--"; js/buoys.js, which lacks the check, returns an observation whose
    five members are all null. *)
Theorem fetchBuoy_without_rows (text : string)
    (Hlines : Forall (fun l => Str.truthy (Str.trim l) = false \/
                               Str.startsWith "#" l = true)
                     (Str.split_lines text)) :
  WeatherJs.fetchBuoy (Returned {| ok := true; payload := text |}) =
    Threw "Error: No buoy rows" /\
  WeatherJs.safeFetchBuoy (Returned {| ok := true; payload := text |}) =
    {| airF := Null; waterF := Null; windKts := Null; gustKts := Null;
       windDirCardinal := JString "--" |} /\
  Buoys.fetchBuoy (Returned {| ok := true; payload := text |}) =
    Returned {| airF := Null; waterF := Null; windKts := Null; gustKts := Null;
                windDirCardinal := JNull |}.
Proof.
  assert (Hd : Buoys.data_lines text = []).
  { unfold Buoys.data_lines. apply filter_none.
    eapply Forall_impl; [| exact Hlines].
    intros l [H | H]; rewrite H; [reflexivity | apply andb_false_r]. }
  unfold WeatherJs.safeFetchBuoy, WeatherJs.fetchBuoy, Buoys.fetchBuoy.
  simpl. rewrite Hd. repeat split.
Qed.

Lemma fetchBuoy_without_rows_witness :
  WeatherJs.safeFetchBuoy
    (Returned {| ok := true; payload := SampleOutage.headers_only |}) =
    {| airF := Null; waterF := Null; windKts := Null; gustKts := Null;
       windDirCardinal := JString "--" |}.
Proof.
  apply (fetchBuoy_without_rows SampleOutage.headers_only).
  vm_compute. repeat constructor; tauto.
Defined.
